(** * Ingestion pipeline: data-quality helpers, canonical keys, merge and loader

    A shallow embedding of the Python sources
      - [src/ingestion/data_quality.py]
      - [src/ingestion/ingested_data.py]
      - [src/loaders/loader.py]
    followed by the properties established about them.

    Conventions.
      - A Python [str] is a sequence of code points; the embedding covers the
        code points below 256 (Rocq's [ascii]), with CPython's character
        classes on that range ([str.isspace], [str.lower], the regex class
        [\w]).
      - Python's [None] is [None] of [option]; a raised exception is [inl] of
        the error monad [sum exn].
      - Library calls whose result the sources only pass along (the SHA-2
        digest, [chardet.detect], [json.loads], [str] of a list, the file
        system, the clock) are arguments of the definitions that use them. *)

From Stdlib Require Import String Ascii List Bool Arith ZArith Lia DecimalString.
From ExtLib Require Import Structures.Monad Structures.MonadExc Data.Monads.EitherMonad.
Import ListNotations.
Import MonadNotation.
Local Open Scope string_scope.
Local Open Scope nat_scope.
Local Open Scope list_scope.
Local Open Scope monad_scope.
Set Warnings "-register-all,-abstract-large-number".

(** ** Python string primitives *)

Module PyStr.

Definition chars := list ascii.

Definition code (c : ascii) : nat := nat_of_ascii c.

Definition between (lo hi n : nat) : bool := (lo <=? n) && (n <=? hi).

(** [str.isspace] on one character: TAB..CR, FS..US, SPACE, NEL, NBSP. *)
Definition isspace (c : ascii) : bool :=
  let n := code c in
  between 9 13 n || between 28 32 n || (n =? 133) || (n =? 160).

(** [str.lower] on one character (A-Z and the Latin-1 capitals). *)
Definition lower_char (c : ascii) : ascii :=
  let n := code c in
  if between 65 90 n || between 192 214 n || between 216 222 n
  then ascii_of_nat (n + 32) else c.

(** The regex class [\w] of a [str] pattern: alphanumeric or underscore. *)
Definition is_word (c : ascii) : bool :=
  let n := code c in
  between 48 57 n || between 65 90 n || (n =? 95) || between 97 122 n
  || (n =? 170) || (n =? 178) || (n =? 179) || (n =? 181) || (n =? 185)
  || (n =? 186) || between 188 190 n || between 192 214 n
  || between 216 246 n || between 248 255 n.

(** The regex class [[\x00-\x08\x0B-\x0C\x0E-\x1F\x7F]]. *)
Definition is_control (c : ascii) : bool :=
  let n := code c in
  (n <=? 8) || between 11 12 n || between 14 31 n || (n =? 127).

Definition is_char (a c : ascii) : bool := Ascii.eqb a c.

Definition underscore : ascii := "_"%char.
Definition space : ascii := " "%char.

#[global] Arguments isspace : simpl never.
#[global] Arguments lower_char : simpl never.
#[global] Arguments is_word : simpl never.
#[global] Arguments is_control : simpl never.
#[global] Arguments is_char : simpl never.
#[global] Arguments underscore : simpl never.
#[global] Arguments space : simpl never.

Definition lower (l : chars) : chars := map lower_char l.

(** [s.lstrip(...)]: drop the leading characters of the class [p]. *)
Fixpoint lstrip_by (p : ascii -> bool) (l : chars) : chars :=
  match l with
  | [] => []
  | c :: t => if p c then lstrip_by p t else l
  end.

(** [s.rstrip(...)]: drop the trailing characters of the class [p]. *)
Fixpoint rstrip_by (p : ascii -> bool) (l : chars) : chars :=
  match l with
  | [] => []
  | c :: t =>
      match rstrip_by p t with
      | [] => if p c then [] else [c]
      | t' => c :: t'
      end
  end.

Definition strip_by (p : ascii -> bool) (l : chars) : chars :=
  rstrip_by p (lstrip_by p l).

(** [s.strip()] with no argument strips white space. *)
Definition strip (l : chars) : chars := strip_by isspace l.

(** [s.split()] with no argument: the maximal runs of non-space characters. *)
Fixpoint split (l : chars) : list chars :=
  match l with
  | [] => []
  | c :: t =>
      if isspace c then split t
      else
        match t with
        | [] => [[c]]
        | c' :: _ =>
            if isspace c' then [c] :: split t
            else
              match split t with
              | w :: ws => (c :: w) :: ws
              | [] => [[c]]
              end
        end
  end.

(** [sep.join(parts)]. *)
Fixpoint join (sep : chars) (parts : list chars) : chars :=
  match parts with
  | [] => []
  | [w] => w
  | w :: ws => w ++ sep ++ join sep ws
  end.

(** [s.count(c)] for a one-character needle. *)
Definition count (a : ascii) (l : chars) : nat :=
  length (filter (is_char a) l).

(** [s.replace(a, b)] for one-character [a] and [b]. *)
Definition replace (a b : ascii) (l : chars) : chars :=
  map (fun c => if is_char a c then b else c) l.

(** [re.sub(cls, '', s)] for a one-character class. *)
Definition re_delete (cls : ascii -> bool) (l : chars) : chars :=
  filter (fun c => negb (cls c)) l.

(** [re.sub(cls, r, s)] for a one-character class and replacement. *)
Definition re_replace (cls : ascii -> bool) (r : ascii) (l : chars) : chars :=
  map (fun c => if cls c then r else c) l.

(** [re.sub(a+, a, s)]: every maximal run of [a] becomes one [a]. *)
Fixpoint re_squeeze (a : ascii) (l : chars) : chars :=
  match l with
  | [] => []
  | c :: t =>
      match t with
      | c' :: _ =>
          if is_char a c && is_char a c' then re_squeeze a t
          else c :: re_squeeze a t
      | [] => [c]
      end
  end.

Definition of_string (s : string) : chars := list_ascii_of_string s.
Definition to_string (l : chars) : string := string_of_list_ascii l.

(** [x in xs] for strings. *)
Definition str_in (x : string) (xs : list string) : bool :=
  existsb (String.eqb x) xs.

(** The first and the last character are outside the class [p]. *)
Definition hd_ok (p : ascii -> bool) (l : chars) : bool :=
  match l with
  | [] => true
  | c :: _ => negb (p c)
  end.

Fixpoint last_ok (p : ascii -> bool) (l : chars) : bool :=
  match l with
  | [] => true
  | c :: t => match t with [] => negb (p c) | _ :: _ => last_ok p t end
  end.

(** No two neighbouring characters are both [a]. *)
Fixpoint no_run (a : ascii) (l : chars) : bool :=
  match l with
  | [] => true
  | c :: t =>
      match t with
      | [] => true
      | c' :: _ => negb (is_char a c && is_char a c') && no_run a t
      end
  end.

Definition nonspace (c : ascii) : bool := negb (isspace c).

(** Words that are non-empty and free of white space. *)
Definition good_words (ws : list chars) : Prop :=
  Forall (fun w => w <> [] /\ forallb nonspace w = true) ws.

(** [s.startswith(prefix)] and [s.endswith(suffix)]. *)
Fixpoint startswith (l prefix : chars) {struct prefix} : bool :=
  match prefix, l with
  | [], _ => true
  | p :: prefix', c :: l' => Ascii.eqb c p && startswith l' prefix'
  | _ :: _, [] => false
  end.

Definition endswith (l suffix : chars) : bool := startswith (rev l) (rev suffix).

End PyStr.

(** ** Exceptions *)

Inductive exn : Type :=
| OSError (msg : string)
| ValueError (msg : string)
| Exception (msg : string).

(** Computations that may raise. *)
Abbreviation exc := (sum exn).

(** [try: body except Exception: handler]. *)
Definition try_except {A : Type} (body : exc A) (handler : exn -> exc A) : exc A :=
  catch body handler.

(** ** [data_quality.py] *)

Module DataQuality.
Import PyStr.

Section Encoding.

(** [open(file_path, 'rb')] followed by [f.read(sample_size)]. *)
Variable open_read : string -> nat -> exc string.
(** [chardet.detect(raw_data)]: either raises or returns a dict, here its
    entries whose values are a string or [None]. *)
Variable chardet_detect : string -> exc (list (string * option string)).

(** [d.get(key, default)]. *)
Fixpoint dict_get (d : list (string * option string)) (key : string)
    (default : option string) : option string :=
  match d with
  | [] => default
  | (k, v) :: d' => if String.eqb k key then v else dict_get d' key default
  end.

Definition lower_str (s : string) : string := to_string (lower (of_string s)).

Definition detect_encoding_safe (file_path : string) (sample_size : nat) : exc string :=
  try_except
    (raw_data <- open_read file_path sample_size ;;
     result <- chardet_detect raw_data ;;
     let encoding := dict_get result "encoding" (Some "utf-8") in
     match encoding with
     | None => ret "utf-8"
     | Some enc =>
         if str_in (lower_str enc) ["ascii"; "us-ascii"] then ret "utf-8"
         else if String.eqb (lower_str enc) "windows-1252" then ret "latin-1"
         else ret enc
     end)
    (fun _ => ret "utf-8").

(** The fallback policy, case by case. *)
Definition fallback_policy (file_path : string) (sample_size : nat) : string :=
  match open_read file_path sample_size with
  | inl _ => "utf-8"
  | inr raw_data =>
      match chardet_detect raw_data with
      | inl _ => "utf-8"
      | inr result =>
          match dict_get result "encoding" (Some "utf-8") with
          | None => "utf-8"
          | Some enc =>
              if str_in (lower_str enc) ["ascii"; "us-ascii"]
              then "utf-8"
              else if String.eqb (lower_str enc) "windows-1252"
                   then "latin-1" else enc
          end
      end
  end.

End Encoding.

(** The three steps of [clean_string] on the characters of [str(value)]. *)
Definition clean_chars (l : chars) : chars :=
  let l := re_delete is_control l in
  let l := join [space] (split l) in
  strip l.

(** What [clean_chars] leaves: no control character, and no white space
    but the single space. *)
Definition clean_char (c : ascii) : bool :=
  negb (is_control c) && (nonspace c || is_char space c).

(** [clean_string(value)]; [Some s] stands for a value whose [str(value)] is [s]. *)
Definition clean_string (value : option string) : string :=
  match value with
  | None => ""
  | Some str_value => to_string (clean_chars (of_string str_value))
  end.

Section Json.

(** [json.loads]: [None] stands for a raised exception. *)
Variable JSON : Type.
Variable json_loads : string -> option JSON.

(** The line after the two balancing steps. *)
Definition balance (opener closer : ascii) (line : chars) : chars :=
  if count closer line <? count opener line
  then line ++ repeat closer (count opener line - count closer line)
  else line.

Definition repair_line (line : chars) : chars :=
  let line := strip line in
  let line := balance "{"%char "}"%char line in
  balance "["%char "]"%char line.

Definition is_empty (l : chars) : bool :=
  match l with [] => true | _ => false end.

Definition fix_malformed_json_line (line : string) : option string :=
  if is_empty (of_string line) || is_empty (strip (of_string line)) then None
  else
    let line := to_string (repair_line (of_string line)) in
    match json_loads line with
    | Some _ => Some line
    | None => None
    end.

End Json.

Definition normalize_chars (name : chars) : chars :=
  let name := strip (lower name) in
  let name := re_replace (fun c => negb (is_word c)) underscore name in
  let name := re_squeeze underscore name in
  strip_by (is_char underscore) name.

Definition normalize_field_name (name : string) : string :=
  to_string (normalize_chars (of_string name)).

(** A name in normalized form: lower-case word characters, no repeated
    underscore, no underscore at either end. *)
Definition normalized_chars (l : chars) : bool :=
  forallb (fun c => is_word c && Ascii.eqb (lower_char c) c) l
  && no_run underscore l
  && hd_ok (is_char underscore) l
  && last_ok (is_char underscore) l.

Definition is_normalized (name : string) : bool := normalized_chars (of_string name).

(** *** [sanitize_for_storage] *)

(** [s[:n]] for an [int] [n]; a negative [n] counts from the end. *)
Definition slice_to (l : chars) (n : Z) : chars :=
  if (0 <=? n)%Z then firstn (Z.to_nat n) l
  else firstn (length l - Z.to_nat (- n)) l.

(** [sanitize_for_storage(value, max_length)]; [Some s] stands for a value
    whose [str(value)] is [s]. *)
Definition sanitize_for_storage (value : option string) (max_length : Z) : string :=
  match value with
  | None => ""
  | Some str_value =>
      let str_value :=
        if (max_length <? Z.of_nat (length (of_string str_value)))%Z
        then to_string (slice_to (of_string str_value) max_length)
        else str_value in
      clean_string (Some str_value)
  end.

(** *** [handle_corrupted_line] *)

(** [s.split(d)] for a one-character separator. *)
Fixpoint split_on (d : ascii) (l : chars) : list chars :=
  match l with
  | [] => [[]]
  | c :: t =>
      if is_char d c then [] :: split_on d t
      else match split_on d t with
           | w :: ws => (c :: w) :: ws
           | [] => [[c]]
           end
  end.





Section Recover.

Variable JSON : Type.
Variable json_loads : string -> option JSON.



End Recover.

End DataQuality.

(** ** The Spark DataFrame operations the pipeline uses *)

Module Spark.

(** A cell is a string or SQL NULL. *)
Definition cell := option string.
Definition Row := list cell.

Record DataFrame : Type := mkDataFrame {
  columns : list string;
  rows : list Row
}.

(** Column expressions ([pyspark.sql.functions]). *)
Inductive Column : Type :=
| col (name : string)
| lit (s : string)
| trim (c : Column)
| lower (c : Column)
| concat_ws (sep : string) (cs : list Column)
| sha2 (c : Column) (numBits : nat)
| current_timestamp.

(** [c in df.columns]. *)
Definition has_column (c : string) (cols : list string) : bool :=
  existsb (String.eqb c) cols.

(** The cell of [row] under the column named [c]; NULL when there is none. *)
Fixpoint get (cols : list string) (row : Row) (c : string) : cell :=
  match cols, row with
  | k :: cols', v :: row' => if String.eqb k c then v else get cols' row' c
  | _, _ => None
  end.

(** Spark's [trim] removes the space character from both ends. *)
Definition trim_str (s : string) : string :=
  PyStr.to_string (PyStr.strip_by (PyStr.is_char PyStr.space) (PyStr.of_string s)).

Definition lower_str (s : string) : string :=
  PyStr.to_string (PyStr.lower (PyStr.of_string s)).

(** [concat_ws] skips NULL arguments. *)
Fixpoint present {A : Type} (vs : list (option A)) : list A :=
  match vs with
  | [] => []
  | Some s :: vs' => s :: present vs'
  | None :: vs' => present vs'
  end.

Definition join_ws (sep : string) (parts : list string) : string :=
  String.concat sep parts.

Definition valid_bits (n : nat) : bool :=
  (n =? 0) || (n =? 224) || (n =? 256) || (n =? 384) || (n =? 512).

Section Eval.

(** The hexadecimal SHA-2 digest of a string for a bit length. *)
Variable digest : nat -> string -> string.
(** The value of [current_timestamp()] for the query. *)
Variable now : string.

Fixpoint eval (cols : list string) (row : Row) (e : Column) {struct e} : cell :=
  match e with
  | col c => get cols row c
  | lit s => Some s
  | trim c => option_map trim_str (eval cols row c)
  | lower c => option_map lower_str (eval cols row c)
  | concat_ws sep cs => Some (join_ws sep (present (map (eval cols row) cs)))
  | sha2 c n =>
      if valid_bits n then option_map (digest n) (eval cols row c) else None
  | current_timestamp => Some now
  end.

(** [df.withColumn(name, e)]: replaces the column of that name, or appends
    it.  The name is compared exactly; see the note on names that closes
    this module. *)
Definition withColumn (df : DataFrame) (name : string) (e : Column) : DataFrame :=
  let cols' :=
    if has_column name (columns df) then columns df else columns df ++ [name] in
  mkDataFrame cols'
    (map (fun row =>
            map (fun c => if String.eqb c name then eval (columns df) row e
                          else get (columns df) row c) cols')
         (rows df)).

End Eval.

(** [df.withColumnRenamed(old, new)], names compared exactly. *)
Definition withColumnRenamed (df : DataFrame) (old new : string) : DataFrame :=
  mkDataFrame (map (fun c => if String.eqb c old then new else c) (columns df)) (rows df).

(** [a.unionByName(b, allowMissingColumns=True)]: the columns of [a], then
    those of [b] that [a] lacks; a row takes NULL under a column its frame
    did not have.  Names are compared exactly; see the note on names that
    closes this module. *)
Definition union_columns (a b : list string) : list string :=
  a ++ filter (fun c => negb (has_column c a)) b.

Definition conform (cols' cols : list string) (row : Row) : Row :=
  map (get cols row) cols'.

Definition unionByName (a b : DataFrame) : DataFrame :=
  let cols' := union_columns (columns a) (columns b) in
  mkDataFrame cols'
    (map (conform cols' (columns a)) (rows a) ++ map (conform cols' (columns b)) (rows b)).

Definition cell_eq_dec (a b : cell) : {a = b} + {a <> b}.
Proof. decide equality; apply string_dec. Defined.

Definition key_eq_dec : forall k1 k2 : list cell, {k1 = k2} + {k1 <> k2} :=
  list_eq_dec cell_eq_dec.

(** The values of [row] under the columns [subset]. *)
Definition row_key (cols subset : list string) (row : Row) : list cell :=
  map (get cols row) subset.

(** One row per key, the first in row order; [seen] holds the keys already kept. *)
Fixpoint keep_first (key : Row -> list cell) (seen : list (list cell)) (rs : list Row)
    : list Row :=
  match rs with
  | [] => []
  | r :: rs' =>
      if in_dec key_eq_dec (key r) seen then keep_first key seen rs'
      else r :: keep_first key (key r :: seen) rs'
  end.

(** [df.dropDuplicates(subset)]. *)
Definition dropDuplicates (df : DataFrame) (subset : list string) : DataFrame :=
  mkDataFrame (columns df) (keep_first (row_key (columns df) subset) [] (rows df)).

(** [df.count()]. *)
Definition count (df : DataFrame) : nat := length (rows df).

(** The cells under the column named exactly [c], row by row; NULL where the
    frame has no such column. *)
Definition select (df : DataFrame) (c : string) : list cell :=
  map (fun row => get (columns df) row c) (rows df).

(** *** Names as Spark resolves them

    The operations above compare column names exactly, as Python's
    [c in df.columns] does.  Spark itself, with its default resolver
    ([spark.sql.caseSensitive] off), compares them without regard to letter
    case and refuses a reference that matches two columns.  The two agree on
    names that are pairwise distinct and never differ by letter case only;
    the statements about cells below are made for such names. *)

(** No two of the names differ by letter case only. *)
Definition case_exact (names : list string) : bool :=
  forallb
    (fun a =>
       forallb (fun b => implb (String.eqb (lower_str a) (lower_str b)) (String.eqb a b))
               names)
    names.

(** The names are pairwise distinct. *)
Fixpoint distinct_names (names : list string) : bool :=
  match names with
  | [] => true
  | n :: names' => negb (has_column n names') && distinct_names names'
  end.

End Spark.

(** ** [ingested_data.py]: utilities and the flattener *)

Module IngestedData.

Section Encoding.

Variable open_read : string -> nat -> exc string.
Variable chardet_detect : string -> exc (list (string * option string)).

Definition detect_encoding_safe (file_path : string) (sample_size : nat) : exc string :=
  try_except
    (raw_data <- open_read file_path sample_size ;;
     result <- chardet_detect raw_data ;;
     let encoding := DataQuality.dict_get result "encoding" (Some "utf-8") in
     match encoding with
     | None => ret "utf-8"
     | Some enc =>
         if PyStr.str_in (DataQuality.lower_str enc) ["ascii"; "us-ascii"]
         then ret "utf-8"
         else ret enc
     end)
    (fun _ => ret "utf-8").

(** [detect_encoding(file_path)]: the sample size takes its default. *)
Definition detect_encoding (file_path : string) : exc string :=
  detect_encoding_safe file_path 10000.

End Encoding.

Definition normalize_field_name (name : string) : string :=
  let name := PyStr.strip (PyStr.lower (PyStr.of_string name)) in
  let name := PyStr.re_replace (fun c => negb (PyStr.is_word c)) PyStr.underscore name in
  let name := PyStr.re_squeeze PyStr.underscore name in
  PyStr.to_string (PyStr.strip_by (PyStr.is_char PyStr.underscore) name).

(** The values a raw record holds: scalars, lists and nested dicts. A dict
    is the list of its items in insertion order. *)
Inductive value : Type :=
| VNone
| VBool (b : bool)
| VInt (n : nat)
| VStr (s : string)
| VList (l : list value)
| VDict (d : list (string * value)).

Definition dict := list (string * value).

(** [d[k] = v]: an existing key keeps its place and takes the new value. *)
Fixpoint dict_set (d : dict) (k : string) (v : value) : dict :=
  match d with
  | [] => [(k, v)]
  | (k', v') :: d' =>
      if String.eqb k' k then (k', v) :: d' else (k', v') :: dict_set d' k v
  end.

(** [dict(items)]. *)
Definition dict_of_items (items : list (string * value)) : dict :=
  fold_left (fun d kv => dict_set d (fst kv) (snd kv)) items [].

(** [f"{parent_key}{sep}{k}" if parent_key else k]. *)
Definition new_key (parent_key sep k : string) : string :=
  if String.eqb parent_key "" then k else parent_key ++ sep ++ k.

Section Flatten.

(** [str(v)] of a list. *)
Variable py_str : list value -> string.

(** What one item [(k, v)] of the loop adds to [items], [key] being its
    [new_key]; the recursive calls are [flatten_dict(v, new_key, sep)] and
    [flatten_dict(v[0], new_key, sep)]. *)
Fixpoint flatten_value (sep key : string) (v : value) {struct v} : list (string * value) :=
  let flatten_dict (d : dict) : dict :=
    dict_of_items
      ((fix items (d : dict) : list (string * value) :=
          match d with
          | [] => []
          | (k, v') :: d' => flatten_value sep (new_key key sep k) v' ++ items d'
          end) d) in
  match v with
  | VDict d => flatten_dict d
  | VList l =>
      match l with
      | [] => [(key, VStr "")]
      | v0 :: _ =>
          match v0 with
          | VDict _ => flatten_value sep key v0
          | _ => [(key, VStr (py_str l))]
          end
      end
  | _ => [(key, v)]
  end.

Definition flatten_dict_in (d : dict) (parent_key sep : string) : dict :=
  flatten_value sep parent_key (VDict d).

(** [flatten_dict(d)] with the default [parent_key=''] and [sep='_']. *)
Definition flatten_dict (d : dict) : dict := flatten_dict_in d "" "_".

End Flatten.

(** A value that is neither a dict nor a list. *)
Definition is_scalar (v : value) : bool :=
  match v with
  | VList _ | VDict _ => false
  | _ => true
  end.

(** A record whose values hold no nested dict or list. *)
Definition is_flat (d : dict) : bool := forallb (fun kv => is_scalar (snd kv)) d.

(** The keys of a Python dict are pairwise distinct. *)
Fixpoint distinct_keys (d : dict) : bool :=
  match d with
  | [] => true
  | (k, _) :: d' => negb (existsb (fun kv => String.eqb (fst kv) k) d') && distinct_keys d'
  end.

(** *** Normalisation, canonical key, merge and deduplication *)

Import Spark.

Definition mapping : list (string * string) :=
  [ ("fname", "first_name");
    ("lname", "last_name");
    ("full_name", "name");
    ("email_address", "email");
    ("e_mail", "email");
    ("phone_number", "phone");
    ("mobile", "phone");
    ("date_of_birth", "dob");
    ("birth_date", "dob") ].

Definition rename_step (df : DataFrame) (on : string * string) : DataFrame :=
  let (old, new) := on in
  if has_column old (columns df) && negb (has_column new (columns df))
  then withColumnRenamed df old new else df.

Section Pipeline.

Variable digest : nat -> string -> string.
Variable now : string.

Definition tidy_step (df : DataFrame) (field : string) : DataFrame :=
  if has_column field (columns df)
  then withColumn digest now df field (trim (lower (col field))) else df.

Definition normalize_columns (df : DataFrame) : DataFrame :=
  let df := fold_left rename_step mapping df in
  let df := fold_left tidy_step ["name"; "first_name"; "last_name"; "email"; "phone"] df in
  withColumn digest now df "ingest_timestamp" current_timestamp.

Definition identity_fields : list string := ["name"; "email"; "phone"; "dob"].

(** The loop of [generate_canonical_key]: the identity columns the frame has. *)
Definition key_cols (df : DataFrame) : list Column :=
  map col (filter (fun c => has_column c (columns df)) identity_fields).

Definition generate_canonical_key (df : DataFrame) : DataFrame :=
  if length (key_cols df) =? 0
  then withColumn digest now df "canonical_key" (sha2 (lit "no_key") 256)
  else withColumn digest now df "canonical_key" (sha2 (concat_ws "||" (key_cols df)) 256).

(** The per-file part of [main] after a successful [read_file]. *)
Definition prepare (df : DataFrame) : DataFrame :=
  generate_canonical_key (normalize_columns df).

(** [merged_df = all_dfs[0]; for df in all_dfs[1:]: merged_df = merged_df.unionByName(...)]. *)
Definition merge (all_dfs : list DataFrame) : option DataFrame :=
  match all_dfs with
  | [] => None
  | df0 :: dfs => Some (fold_left unionByName dfs df0)
  end.

(** The deduplication step of [main]. *)
Definition deduplicate (merged_df : DataFrame) : DataFrame :=
  if has_column "canonical_key" (columns merged_df)
  then dropDuplicates merged_df ["canonical_key"] else merged_df.

(** [main], from the frames that were read to the frame that is written;
    [None] when there was no valid file. *)
Definition main (read : list DataFrame) : option DataFrame :=
  option_map deduplicate (merge (map prepare read)).

End Pipeline.


Definition has_key (k : string) (d : dict) : bool :=
  existsb (fun kv => String.eqb (fst kv) k) d.

(** The identity columns a frame has, in the order of the loop of
    [generate_canonical_key]. *)
Definition identity_columns (cols : list string) : list string :=
  filter (fun c => has_column c cols) identity_fields.

(** The column names the pipeline hands to Spark. *)
Definition pipeline_names : list string :=
  map fst mapping ++ map snd mapping
  ++ ["name"; "first_name"; "last_name"; "email"; "phone"]
  ++ identity_fields ++ ["ingest_timestamp"; "canonical_key"].

(** Column names that Spark resolves as [c in df.columns] does: pairwise
    distinct, and none a letter-case variant of another or of a name the
    pipeline uses. *)
Definition well_named (cols : list string) : bool :=
  distinct_names cols && case_exact (cols ++ pipeline_names).

(** Frames that [unionByName] matches by exact name: the columns of each are
    pairwise distinct, and no two column names of any of them differ by
    letter case only. *)
Definition well_named_together (dfs : list DataFrame) : bool :=
  forallb (fun df => distinct_names (columns df)) dfs
  && case_exact (concat (map columns dfs)).

(** The [canonical_key] cell of every row. *)
Definition canonical_keys (df : DataFrame) : list cell :=
  map (fun row => get (columns df) row "canonical_key") (rows df).

(** *** [sanitize_for_storage] and [detect_format] *)

(** [sanitize_for_storage(value, max_length)] of [ingested_data.py]; [Some s]
    stands for a value whose [str(value)] is [s]. *)
Definition sanitize_for_storage (value : option string) (max_length : Z) : string :=
  match value with
  | None => ""
  | Some str_value =>
      let str_value :=
        if (max_length <? Z.of_nat (length (PyStr.of_string str_value)))%Z
        then DataQuality.slice_to (PyStr.of_string str_value) max_length
        else PyStr.of_string str_value in
      PyStr.to_string (PyStr.strip str_value)
  end.

Definition detect_format (path : string) : option string :=
  let path_lower := PyStr.lower (PyStr.of_string path) in
  let ends (suffix : string) := PyStr.endswith path_lower (PyStr.of_string suffix) in
  if ends ".csv" then Some "csv"
  else if ends ".json" || ends ".jsonl" then Some "json"
  else if ends ".parquet" then Some "parquet"
  else if ends ".xml" then Some "xml"
  else if ends ".xlsx" || ends ".xls" then Some "excel"
  else if ends ".sql" || ends ".dump" then Some "sql"
  else None.

(** The extensions [detect_format] tests, each with the format it answers. *)
Definition extensions : list (string * string) :=
  [ (".csv", "csv"); (".json", "json"); (".jsonl", "json"); (".parquet", "parquet");
    (".xml", "xml"); (".xlsx", "excel"); (".xls", "excel"); (".sql", "sql");
    (".dump", "sql") ].

(** *** [parse_sql_dump]: the values of a row and the record made of them *)

Definition double_quote : ascii := "034"%char.
Definition single_quote : ascii := "039"%char.
Definition backtick : ascii := "096"%char.
Definition comma : ascii := ","%char.

(** [s.strip(chars)]. *)
Definition strip_chars (set : list ascii) (l : PyStr.chars) : PyStr.chars :=
  PyStr.strip_by (fun c => existsb (Ascii.eqb c) set) l.

(** [current_value.strip()] followed by [.strip(...)] of the two quote
    characters and the backtick. *)
Definition unquote (current_value : PyStr.chars) : string :=
  PyStr.to_string
    (strip_chars [single_quote; double_quote; backtick] (PyStr.strip current_value)).

(** The variables of the loop over the characters of a row. *)
Record parse_state : Type := mkParse {
  values : list string;
  current_value : PyStr.chars;
  in_quotes : bool;
  quote_char : option ascii
}.

(** [char] is one of the two quote characters. *)
Definition is_quote (char : ascii) : bool :=
  Ascii.eqb char double_quote || Ascii.eqb char single_quote.

(** The body of [for char in row_str]. *)
Definition parse_char (st : parse_state) (char : ascii) : parse_state :=
  if is_quote char
     && (negb (in_quotes st)
         || match quote_char st with
            | Some q => Ascii.eqb char q
            | None => false
            end)
  then
    let in_quotes' := negb (in_quotes st) in
    mkParse (values st) (current_value st ++ [char]) in_quotes'
      (if in_quotes' then Some char else None)
  else if Ascii.eqb char comma && negb (in_quotes st)
  then mkParse (values st ++ [unquote (current_value st)]) [] (in_quotes st) (quote_char st)
  else mkParse (values st) (current_value st ++ [char]) (in_quotes st) (quote_char st).

Definition parse_loop (row_str : PyStr.chars) (st : parse_state) : parse_state :=
  fold_left parse_char row_str st.

(** The values of one row of a [VALUES] list. *)
Definition parse_values (row_str : PyStr.chars) : list string :=
  let row_str := strip_chars ["("%char; ")"%char] (PyStr.strip row_str) in
  let st := parse_loop row_str (mkParse [] [] false None) in
  if DataQuality.is_empty (current_value st) then values st
  else values st ++ [unquote (current_value st)].

(** The columns of an [INSERT]: the pieces of [columns_str.split(',')],
    each stripped of white space and then of backticks and quotes. *)
Definition parse_columns (columns_str : PyStr.chars) : list string :=
  map (fun col =>
         PyStr.to_string
           (strip_chars [backtick; double_quote; single_quote] (PyStr.strip col)))
      (DataQuality.split_on comma columns_str).

Section Sql.

Variable py_str : list value -> string.

(** One item of the dict comprehensions. *)
Definition sql_item (cv : string * string) : string * value :=
  (normalize_field_name (fst cv), VStr (sanitize_for_storage (Some (snd cv)) 10000)).

(** The record appended for a row, if any: all the columns when there are as
    many values, else the columns that have a value. *)
Definition make_record (columns vals : list string) : option dict :=
  if length vals =? length columns
  then Some (flatten_dict py_str (dict_of_items (map sql_item (combine columns vals))))
  else if 0 <? length vals
  then Some (flatten_dict py_str (dict_of_items (map sql_item (combine columns vals))))
  else None.

End Sql.

(** The pieces of a split without an empty last piece. *)
Definition drop_empty_last (pieces : list PyStr.chars) : list PyStr.chars :=
  if DataQuality.is_empty (last pieces []) then removelast pieces else pieces.

(** *** [read_xml_to_dicts] *)

(** An [xml.etree.ElementTree] element: its tag, its text and its children. *)
Inductive Element : Type :=
| Elem (tag : string) (text : option string) (children : list Element).

Definition tag_of (e : Element) : string :=
  match e with Elem tag _ _ => tag end.

Definition text_of (e : Element) : option string :=
  match e with Elem _ text _ => text end.

Definition children_of (e : Element) : list Element :=
  match e with Elem _ _ children => children end.

(** [e.iter()]: the element, then its descendants, in document order. *)
Fixpoint iter (e : Element) : list Element :=
  match e with
  | Elem _ _ children => e :: flat_map iter children
  end.

(** [elem.text and elem.text.strip()]. *)
Definition has_text (e : Element) : bool :=
  match text_of e with
  | Some s =>
      negb (DataQuality.is_empty (PyStr.of_string s))
      && negb (DataQuality.is_empty (PyStr.strip (PyStr.of_string s)))
  | None => false
  end.

(** [elem.text.strip()]. *)
Definition stripped_text (e : Element) : string :=
  match text_of e with
  | Some s => PyStr.to_string (PyStr.strip (PyStr.of_string s))
  | None => ""
  end.

(** [d[k]] for a key the dict may lack. *)
Fixpoint dict_lookup (d : dict) (k : string) : option value :=
  match d with
  | [] => None
  | (k', v) :: d' => if String.eqb k' k then Some v else dict_lookup d' k
  end.

(** The body of the loop over [child.iter()]: a tag met again turns its
    value into the list of its texts. *)
Definition add_text (record : dict) (elem : Element) : dict :=
  if has_text elem then
    let key := tag_of elem in
    match dict_lookup record key with
    | Some old =>
        let texts := match old with VList l => l | _ => [old] end in
        dict_set record key (VList (texts ++ [VStr (stripped_text elem)]))
    | None => dict_set record key (VStr (stripped_text elem))
    end
  else record.

(** The body of the loop over [root.iter()] of the second pass. *)
Definition set_text (root : Element) (record : dict) (elem : Element) : dict :=
  if has_text elem && negb (String.eqb (tag_of elem) (tag_of root))
  then dict_set record (tag_of elem) (VStr (stripped_text elem))
  else record.

Definition is_nil {A : Type} (l : list A) : bool :=
  match l with [] => true | _ :: _ => false end.

Section Xml.

Variable py_str : list value -> string.
Variable open_read : string -> nat -> exc string.
Variable chardet_detect : string -> exc (list (string * option string)).
(** [ET.parse(file_path).getroot()]. *)
Variable parse : string -> exc Element.

(** The body of the loop over the children of the root. *)
Definition add_child (records : list dict) (child : Element) : list dict :=
  let record := fold_left add_text (iter child) [] in
  if is_nil record then records else records ++ [flatten_dict py_str record].

Definition xml_records (root : Element) : list dict :=
  let records := fold_left add_child (children_of root) [] in
  if is_nil records then
    let record := fold_left (set_text root) (iter root) [] in
    if is_nil record then records else records ++ [flatten_dict py_str record]
  else records.

Definition read_xml_to_dicts (file_path : string) : exc (list dict) :=
  try_except
    (encoding <- detect_encoding open_read chardet_detect file_path ;;
     root <- parse file_path ;;
     ret (xml_records root))
    (fun _ => ret []).

End Xml.

(** A value the first pass stores: a text, or a list that starts with one. *)
Definition is_texts (v : value) : bool :=
  match v with
  | VStr _ => true
  | VList (VStr _ :: _) => true
  | _ => false
  end.

End IngestedData.

(** ** [loader.py] *)

Module Loader.

(** *** The pandas frame the loader reads from Parquet *)

(** A pandas cell: the object [None], the float NaN, or a value, kept as
    the string [str] gives for it. *)
Inductive pcell : Type :=
| PNone
| PNaN
| PVal (s : string).

Inductive dtype : Type := ObjectDtype | NumericDtype | DatetimeDtype.

Record Series : Type := mkSeries {
  name : string;
  dty : dtype;
  values : list pcell
}.

(** A frame is the list of its columns, in order. *)
Definition PandasFrame := list Series.

Definition columns (df : PandasFrame) : list string := map name df.

(** [s.astype(str)] on an object column (pandas 1 and 2): every element goes
    through [str], the missing ones too. *)
Definition astype_str (c : pcell) : pcell :=
  match c with
  | PNone => PVal "None"
  | PNaN => PVal "nan"
  | PVal s => PVal s
  end.

(** [s.fillna(v)]. *)
Definition fillna (v : string) (c : pcell) : pcell :=
  match c with
  | PNone | PNaN => PVal v
  | PVal s => PVal s
  end.

Definition nrows (df : PandasFrame) : nat :=
  match df with
  | [] => 0
  | s :: _ => length (values s)
  end.

Section Cast.

(** [pd.to_datetime(..., errors="coerce")] and [pd.Timestamp.now()]. *)
Variable to_datetime : pcell -> pcell.
Variable timestamp_now : string.

(** [s.fillna("").astype(str)] on a datetime64 column: the empty string is
    taken for a date, and as a date it is the missing one, so a missing cell
    stays missing and is printed as [NaT]. *)
Definition fill_datetime (c : pcell) : pcell :=
  match c with
  | PNone | PNaN => PVal "NaT"
  | PVal s => PVal s
  end.

Definition cast_column (s : Series) : Series :=
  if String.eqb (name s) "ingest_timestamp" then s
  else
    match dty s with
    | ObjectDtype => mkSeries (name s) ObjectDtype (map (fun c => fillna "" (astype_str c)) (values s))
    | NumericDtype => mkSeries (name s) ObjectDtype (map (fun c => astype_str (fillna "" c)) (values s))
    | DatetimeDtype => mkSeries (name s) ObjectDtype (map fill_datetime (values s))
    end.

Definition cast_dataframe (df : PandasFrame) : PandasFrame :=
  let df :=
    if PyStr.str_in "ingest_timestamp" (columns df)
    then map (fun s => if String.eqb (name s) "ingest_timestamp"
                       then mkSeries (name s) DatetimeDtype (map to_datetime (values s))
                       else s) df
    else df ++ [mkSeries "ingest_timestamp" DatetimeDtype
                  (repeat (PVal timestamp_now) (nrows df))] in
  map cast_column df.

End Cast.

(** [df.values.tolist()]: the rows of the frame. *)
Definition values_tolist (df : PandasFrame) : list (list pcell) :=
  map (fun i => map (fun s => nth i (values s) PNone) df) (seq 0 (nrows df)).

(** *** The store behind the ClickHouse client *)

Inductive event : Type :=
| Describe (ok : bool)
| AddColumn (column ty : string) (ok : bool)
| Insert (column_names : list string) (batch : list (list pcell))
    (schema_then : list string) (ok : bool).

(** The table [master_records] ([None] while it does not exist), which
    calls the store refuses, and the calls made so far. *)
Record Client : Type := mkClient {
  table : option (list string);
  describe_fails : bool;
  alter_fails : string -> bool;
  insert_fails : nat -> bool;
  trace : list event
}.

Definition record (cl : Client) (e : event) (t : option (list string)) : Client :=
  mkClient t (describe_fails cl) (alter_fails cl) (insert_fails cl) (trace cl ++ [e]).

(** [client.query("DESCRIBE master_records")]: the column names, or an exception. *)
Definition query_describe (cl : Client) : Client * exc (list string) :=
  match table cl with
  | Some cols =>
      if describe_fails cl
      then (record cl (Describe false) (table cl), inl (Exception "describe"))
      else (record cl (Describe true) (table cl), inr cols)
  | None => (record cl (Describe false) (table cl), inl (Exception "no table"))
  end.

(** [client.command("ALTER TABLE master_records ADD COLUMN IF NOT EXISTS c ty")]. *)
Definition command_add_column (cl : Client) (c ty : string) : Client * exc unit :=
  match table cl with
  | Some cols =>
      if alter_fails cl c
      then (record cl (AddColumn c ty false) (table cl), inl (Exception "alter"))
      else
        (record cl (AddColumn c ty true)
           (Some (if PyStr.str_in c cols then cols else cols ++ [c])),
         inr tt)
  | None => (record cl (AddColumn c ty false) (table cl), inl (Exception "no table"))
  end.

(** [client.insert("master_records", batch, column_names=colnames)]: refused
    when a named column is not in the table. *)
Definition insert (cl : Client) (offset : nat) (batch : list (list pcell))
    (column_names : list string) : Client * exc unit :=
  let schema_then := match table cl with Some cols => cols | None => [] end in
  let ok :=
    match table cl with
    | Some cols =>
        negb (insert_fails cl offset)
        && forallb (fun c => PyStr.str_in c cols) column_names
    | None => false
    end in
  (record cl (Insert column_names batch schema_then ok) (table cl),
   if ok then inr tt else inl (Exception "insert")).

Definition core_columns : list string :=
  ["canonical_key"; "name"; "first_name"; "last_name"; "email"; "phone"; "dob";
   "ingest_timestamp"].

(** The effect of [CREATE TABLE IF NOT EXISTS master_records (...)] when the
    store accepts it; [command_create_table] below is the call itself. *)
Definition create_table (cl : Client) : Client :=
  match table cl with
  | Some _ => cl
  | None => mkClient (Some core_columns) (describe_fails cl) (alter_fails cl)
              (insert_fails cl) (trace cl)
  end.

(** *** [ensure_table_schema] and [main] *)

Definition BATCH_SIZE : nat := 50000.

(** [col.replace(" ", "_").replace("-", "_")]. *)
Definition safe_col (col : string) : string :=
  PyStr.to_string
    (PyStr.replace "-"%char "_"%char (PyStr.replace " "%char "_"%char (PyStr.of_string col))).

(** One turn of the loop over [columns]; the exception of a refused
    [ALTER] is caught and reported, and the loop goes on. *)
Definition add_missing (existing_cols : list string) (cl : Client) (col : string) : Client :=
  let safe := safe_col col in
  if negb (PyStr.str_in safe existing_cols) && negb (String.eqb safe "ingest_timestamp")
  then fst (command_add_column cl safe "String")
  else cl.

Definition ensure_table_schema (cl : Client) (cols : list string) : Client :=
  match query_describe cl with
  | (cl, inl _) => cl
  | (cl, inr existing_cols) =>
      let cl := fold_left (add_missing existing_cols) cols cl in
      if negb (PyStr.str_in "ingest_timestamp" existing_cols)
      then fst (command_add_column cl "ingest_timestamp" "DateTime")
      else cl
  end.

(** [for i in range(0, len(rows), BATCH_SIZE)], the rows from offset [i] on
    being [rest]; a refused batch is reported and the loop goes on. *)
Fixpoint insert_batches (fuel i : nat) (rest : list (list pcell)) (colnames : list string)
    (cl : Client) : Client :=
  match fuel, rest with
  | S fuel', _ :: _ =>
      let batch := firstn BATCH_SIZE rest in
      let cl := fst (insert cl i batch colnames) in
      insert_batches fuel' (i + BATCH_SIZE) (skipn BATCH_SIZE rest) colnames cl
  | _, _ => cl
  end.

Section Load.

Variable to_datetime : pcell -> pcell.
Variable timestamp_now : string.

(** The body of the loop over the Parquet files, for a file read as [df]. *)
Definition load_file (cl : Client) (df : PandasFrame) : Client :=
  let df := cast_dataframe to_datetime timestamp_now df in
  let cl := ensure_table_schema cl (columns df) in
  let rows := values_tolist df in
  insert_batches (length rows) 0 rows (columns df) cl.

(** The [CREATE TABLE IF NOT EXISTS] command of [main].  It stands outside
    every [try]: when the store refuses it, the exception leaves [main]. *)
Definition command_create_table (refused : bool) (cl : Client) : exc Client :=
  if refused then raise (Exception "create table") else ret (create_table cl).

(** [main] from the connected client on, over the frames of the Parquet
    files; [create_refused] tells whether the store refuses the
    [CREATE TABLE]. *)
Definition main (create_refused : bool) (cl : Client) (files : list PandasFrame)
    : exc Client :=
  cl <- command_create_table create_refused cl ;;
  ret (fold_left load_file files cl).

End Load.

(** [pq.read_table(file_path).to_pandas()] of the frame Spark wrote: string
    columns come back with dtype object, NULL as [None]. *)
Definition to_pcell (c : Spark.cell) : pcell :=
  match c with
  | Some s => PVal s
  | None => PNone
  end.

Definition read_parquet (df : Spark.DataFrame) : PandasFrame :=
  map (fun c => mkSeries c ObjectDtype
                  (map (fun row => to_pcell (Spark.get (Spark.columns df) row c))
                       (Spark.rows df)))
      (Spark.columns df).

(** The cells of the column named [c]. *)
Definition column_values (df : PandasFrame) (c : string) : option (list pcell) :=
  option_map values (find (fun s => String.eqb (name s) c) df).

(** The columns of the [ADD COLUMN] calls of a trace, in order. *)
Fixpoint add_column_calls (t : list event) : list string :=
  match t with
  | [] => []
  | AddColumn c _ _ :: t' => c :: add_column_calls t'
  | _ :: t' => add_column_calls t'
  end.

Definition is_insert (e : event) : bool :=
  match e with
  | Insert _ _ _ _ => true
  | _ => false
  end.

(** The same store, observed from now on. *)
Definition reset_trace (cl : Client) : Client :=
  mkClient (table cl) (describe_fails cl) (alter_fails cl) (insert_fails cl) [].

(** A store that refuses neither [DESCRIBE] nor [ALTER TABLE]. *)
Definition obliging (cl : Client) : Prop :=
  describe_fails cl = false /\ (forall c, alter_fails cl c = false).

(** [cl'] is [cl] after some calls: same refusals, and a table that has
    grown from [cols] to [cols']. *)
Definition grown (cl cl' : Client) (cols cols' : list string) : Prop :=
  table cl' = Some cols'
  /\ incl cols cols'
  /\ describe_fails cl' = describe_fails cl
  /\ alter_fails cl' = alter_fails cl
  /\ insert_fails cl' = insert_fails cl.

(** An [Insert] event of the batches of one file. *)
Definition insert_of (colnames sch : list string) (e : event) : Prop :=
  exists batch ok, e = Insert colnames batch sch ok.

(** The columns of the table; none while it does not exist. *)
Definition table_cols (cl : Client) : list string :=
  match table cl with
  | Some cols => cols
  | None => []
  end.

(** The batches of the attempted inserts, in order. *)
Fixpoint batches (t : list event) : list (list (list pcell)) :=
  match t with
  | [] => []
  | Insert _ batch _ _ :: t' => batch :: batches t'
  | _ :: t' => batches t'
  end.

(** The rows the store was offered, in order. *)
Definition offered (t : list event) : list (list pcell) := concat (batches t).

(** A cell that is not missing. *)
Definition is_value (c : pcell) : bool :=
  match c with
  | PVal _ => true
  | _ => false
  end.

(** The sizes of the batches [range(0, n, size)] cuts [n] rows into. *)
Fixpoint batch_sizes (size fuel n : nat) : list nat :=
  match fuel with
  | 0 => []
  | S fuel' => if n =? 0 then [] else Nat.min size n :: batch_sizes size fuel' (n - size)
  end.

(** An [ADD COLUMN] call of the loop of [ensure_table_schema]. *)
Definition loop_call (existing cs : list string) (e : event) : Prop :=
  exists c ok,
    e = AddColumn c "String" ok
    /\ ~ In c existing /\ c <> "ingest_timestamp" /\ In c (map safe_col cs).

(** The series named [c], as [df[c]] finds it. *)
Definition series_of (df : PandasFrame) (c : string) : option Series :=
  find (fun s => String.eqb (name s) c) df.

End Loader.

(** * Properties *)

(** ** Facts about the string primitives *)

(** Every character is one of the 256 code points. *)
Ltac each_char c := destruct c as [[] [] [] [] [] [] [] []]; vm_compute; try reflexivity; try discriminate.

(** Case analysis on the test of the first conditional of the goal. *)
Ltac case_if :=
  match goal with
  | |- context [if ?b then _ else _] => destruct b eqn:?
  end.

Section PyStrFacts.
Import PyStr.

Lemma of_to_string (l : chars) : of_string (to_string l) = l.
Proof. apply list_ascii_of_string_of_list_ascii. Qed.

Lemma to_of_string (s : string) : to_string (of_string s) = s.
Proof. apply string_of_list_ascii_of_string. Qed.

Lemma lower_char_idem (c : ascii) : lower_char (lower_char c) = lower_char c.
Proof. each_char c. Qed.

Lemma word_not_space (c : ascii) : is_word c = true -> isspace c = false.
Proof. each_char c. Qed.

Lemma is_char_eq (a c : ascii) : is_char a c = true <-> a = c.
Proof. unfold is_char. apply Ascii.eqb_eq. Qed.

Lemma lstrip_hd_ok p l : hd_ok p (lstrip_by p l) = true.
Proof.
  induction l as [|c t IH]; simpl; auto.
  destruct (p c) eqn:E; auto. simpl. now rewrite E.
Qed.

Lemma lstrip_fixed p l : hd_ok p l = true -> lstrip_by p l = l.
Proof.
  destruct l as [|c t]; simpl; auto.
  destruct (p c); simpl; auto; discriminate.
Qed.

Lemma rstrip_last_ok p l : last_ok p (rstrip_by p l) = true.
Proof.
  induction l as [|c t IH]; simpl; auto.
  destruct (rstrip_by p t) as [|c' t'] eqn:E.
  - destruct (p c) eqn:Ec; simpl; auto. now rewrite Ec.
  - exact IH.
Qed.

Lemma rstrip_hd_ok p l : hd_ok p l = true -> hd_ok p (rstrip_by p l) = true.
Proof.
  destruct l as [|c t]; simpl; auto.
  intros H. destruct (rstrip_by p t); simpl; auto.
  destruct (p c) eqn:E; simpl; rewrite ?E; auto.
Qed.

Lemma rstrip_fixed p l : last_ok p l = true -> rstrip_by p l = l.
Proof.
  induction l as [|c t IH]; simpl; auto.
  destruct t as [|c' t'].
  - simpl. destruct (p c); simpl; auto; discriminate.
  - intros H. rewrite (IH H). reflexivity.
Qed.

Lemma strip_by_ends p l :
  hd_ok p (strip_by p l) = true /\ last_ok p (strip_by p l) = true.
Proof.
  unfold strip_by. split.
  - apply rstrip_hd_ok, lstrip_hd_ok.
  - apply rstrip_last_ok.
Qed.

Lemma strip_by_fixed p l :
  hd_ok p l = true -> last_ok p l = true -> strip_by p l = l.
Proof.
  intros H1 H2. unfold strip_by. rewrite (lstrip_fixed _ _ H1). now apply rstrip_fixed.
Qed.

Lemma forallb_lstrip f p l : forallb f l = true -> forallb f (lstrip_by p l) = true.
Proof.
  induction l as [|c t IH]; simpl; auto.
  intros H. apply andb_true_iff in H as [H1 H2].
  destruct (p c); auto. simpl. now rewrite H1, H2.
Qed.

Lemma forallb_rstrip f p l : forallb f l = true -> forallb f (rstrip_by p l) = true.
Proof.
  induction l as [|c t IH]; simpl; auto.
  intros H. apply andb_true_iff in H as [H1 H2].
  specialize (IH H2).
  destruct (rstrip_by p t) as [|c' t'].
  - destruct (p c); simpl; auto. now rewrite H1.
  - simpl in *. now rewrite H1, IH.
Qed.

Lemma forallb_strip_by f p l : forallb f l = true -> forallb f (strip_by p l) = true.
Proof. intros H. unfold strip_by. now apply forallb_rstrip, forallb_lstrip. Qed.

Lemma no_run_tail a c t : no_run a (c :: t) = true -> no_run a t = true.
Proof.
  simpl. destruct t as [|c' t']; auto.
  intros H. now apply andb_true_iff in H as [_ H].
Qed.

Lemma no_run_lstrip a p l : no_run a l = true -> no_run a (lstrip_by p l) = true.
Proof.
  induction l as [|c t IH]; auto.
  intros H. simpl. destruct (p c); auto.
  apply IH. eapply no_run_tail; eauto.
Qed.

Lemma rstrip_cons_hd p c t c' t' : rstrip_by p (c :: t) = c' :: t' -> c' = c.
Proof.
  simpl. destruct (rstrip_by p t).
  - destruct (p c); [discriminate|]. now intros [= -> _].
  - now intros [= -> _].
Qed.

Lemma no_run_rstrip a p l : no_run a l = true -> no_run a (rstrip_by p l) = true.
Proof.
  induction l as [|c t IH]; auto.
  intros H. pose proof (no_run_tail _ _ _ H) as Ht. specialize (IH Ht).
  simpl. destruct (rstrip_by p t) as [|c' t'] eqn:E.
  - destruct (p c); reflexivity.
  - destruct t as [|c0 t0]; [discriminate|].
    apply rstrip_cons_hd in E as Ec. subst c'.
    change (no_run a (c :: c0 :: t')) with
      (negb (is_char a c && is_char a c0) && no_run a (c0 :: t')).
    rewrite IH. simpl in H.
    apply andb_true_iff in H as [H _]. now rewrite H.
Qed.

Lemma no_run_strip_by a p l : no_run a l = true -> no_run a (strip_by p l) = true.
Proof. intros H. unfold strip_by. now apply no_run_rstrip, no_run_lstrip. Qed.

Lemma squeeze_no_run a l : no_run a (re_squeeze a l) = true.
Proof.
  induction l as [|c t IH]; auto.
  simpl. destruct t as [|c' t']; auto.
  destruct (is_char a c && is_char a c') eqn:E; auto.
  remember (c' :: t') as t eqn:Et.
  assert (Hd : forall x r, re_squeeze a t = x :: r -> is_char a x = is_char a c').
  { subst t. clear. revert c'. induction t' as [|d t'' IH']; intros c' x r.
    - simpl. now intros [= -> _].
    - change (re_squeeze a (c' :: d :: t''))
        with (if is_char a c' && is_char a d then re_squeeze a (d :: t'')
              else c' :: re_squeeze a (d :: t'')).
      destruct (is_char a c' && is_char a d) eqn:E.
      + intros H. apply IH' in H. rewrite H.
        apply andb_true_iff in E as [E1 E2]. now rewrite E1, E2.
      + now intros [= -> _]. }
  destruct (re_squeeze a t) as [|x r] eqn:Er; auto.
  change (no_run a (c :: x :: r)) with
    (negb (is_char a c && is_char a x) && no_run a (x :: r)).
  rewrite IH, (Hd x r eq_refl), E. reflexivity.
Qed.

Lemma squeeze_fixed a l : no_run a l = true -> re_squeeze a l = l.
Proof.
  induction l as [|c t IH]; auto.
  intros H. pose proof (no_run_tail _ _ _ H) as Ht.
  simpl. destruct t as [|c' t']; auto.
  simpl in H. apply andb_true_iff in H as [H _].
  apply negb_true_iff in H. rewrite H. now rewrite (IH Ht).
Qed.

Lemma forallb_squeeze f a l : forallb f l = true -> forallb f (re_squeeze a l) = true.
Proof.
  induction l as [|c t IH]; auto.
  intros H. simpl in H. apply andb_true_iff in H as [H1 H2]. specialize (IH H2).
  destruct t as [|c' t']; [simpl; now rewrite H1|].
  change (re_squeeze a (c :: c' :: t'))
    with (if is_char a c && is_char a c' then re_squeeze a (c' :: t')
          else c :: re_squeeze a (c' :: t')).
  destruct (is_char a c && is_char a c'); [exact IH|].
  change (f c && forallb f (re_squeeze a (c' :: t')) = true).
  now rewrite H1, IH.
Qed.

Lemma forallb_not_hd_last (p f : ascii -> bool) l :
  (forall c, f c = true -> p c = false) ->
  forallb f l = true -> hd_ok p l = true /\ last_ok p l = true.
Proof.
  intros Hfp. induction l as [|c t IH]; auto.
  simpl. intros H. apply andb_true_iff in H as [H1 H2].
  split; [now rewrite (Hfp _ H1)|].
  destruct t; [now rewrite (Hfp _ H1)|]. now apply IH.
Qed.

End PyStrFacts.

(** ** Field-name normalization *)

Section NormalizeFacts.
Import PyStr DataQuality.

Let lower_word (c : ascii) : bool := is_word c && Ascii.eqb (lower_char c) c.

Lemma lower_all_fixed l :
  forallb (fun c => Ascii.eqb (lower_char c) c) (lower l) = true.
Proof.
  induction l as [|c t IH]; [reflexivity|].
  unfold lower in *. cbn [map forallb].
  rewrite IH, lower_char_idem, Ascii.eqb_refl. reflexivity.
Qed.

Lemma replace_lower_word l :
  forallb (fun c => Ascii.eqb (lower_char c) c) l = true ->
  forallb lower_word (re_replace (fun c => negb (is_word c)) underscore l) = true.
Proof.
  unfold re_replace.
  induction l as [|c t IH]; [reflexivity|].
  cbn [map forallb]. intros H. apply andb_true_iff in H as [H1 H2].
  rewrite (IH H2), andb_true_r.
  unfold lower_word. destruct (is_word c) eqn:E; cbn [negb].
  - now rewrite E, H1.
  - vm_compute. reflexivity.
Qed.

Lemma normalize_chars_normalized l : normalized_chars (normalize_chars l) = true.
Proof.
  unfold normalized_chars, normalize_chars.
  pose proof (lower_all_fixed l) as H0.
  apply (forallb_strip_by _ isspace) in H0. fold (strip (lower l)) in H0.
  apply replace_lower_word in H0.
  apply (forallb_squeeze _ underscore) in H0.
  apply (forallb_strip_by _ (is_char underscore)) in H0.
  set (sq := re_squeeze underscore _) in *.
  destruct (strip_by_ends (is_char underscore) sq) as [Hh Hl].
  rewrite Hh, Hl, !andb_true_r.
  apply andb_true_iff. split; [exact H0|].
  apply no_run_strip_by, squeeze_no_run.
Qed.

Lemma normalized_chars_fixed l : normalized_chars l = true -> normalize_chars l = l.
Proof.
  unfold normalized_chars. intros H.
  apply andb_true_iff in H as [H Hl]. apply andb_true_iff in H as [H Hh].
  apply andb_true_iff in H as [Hw Hr].
  assert (Hlow : lower l = l).
  { clear -Hw. unfold lower. induction l as [|c t IH]; [reflexivity|].
    cbn [map forallb] in *.
    apply andb_true_iff in Hw as [H1 H2]. apply andb_true_iff in H1 as [_ H1].
    apply Ascii.eqb_eq in H1. now rewrite H1, (IH H2). }
  assert (Hsp : strip l = l).
  { assert (Hsep : forall c, lower_word c = true -> isspace c = false).
    { intros c Hc. apply andb_true_iff in Hc as [Hc _]. now apply word_not_space. }
    destruct (forallb_not_hd_last isspace lower_word l Hsep Hw) as [A B].
    now apply strip_by_fixed. }
  assert (Hrep : re_replace (fun c => negb (is_word c)) underscore l = l).
  { clear -Hw. unfold re_replace. induction l as [|c t IH]; [reflexivity|].
    cbn [map forallb] in *.
    apply andb_true_iff in Hw as [H1 H2]. apply andb_true_iff in H1 as [H1 _].
    rewrite H1. cbn [negb]. now rewrite (IH H2). }
  unfold normalize_chars. rewrite Hlow, Hsp, Hrep, (squeeze_fixed _ _ Hr).
  now apply strip_by_fixed.
Qed.

Lemma normalize_versions_agree (name : string) :
  IngestedData.normalize_field_name name = DataQuality.normalize_field_name name.
Proof. reflexivity. Qed.

(** C7. Field-name normalization is idempotent, in [data_quality.py] and in
    [ingested_data.py] alike: normalizing a normalized result changes
    nothing, the result is always in normalized form (lower-case word
    characters, no repeated underscore, none at either end), and a name that
    is already in that form is returned unchanged. *)
Theorem normalize_field_name_idempotent (s : string) :
  DataQuality.normalize_field_name (DataQuality.normalize_field_name s)
    = DataQuality.normalize_field_name s
  /\ IngestedData.normalize_field_name (IngestedData.normalize_field_name s)
    = IngestedData.normalize_field_name s
  /\ is_normalized (DataQuality.normalize_field_name s) = true
  /\ (is_normalized s = true ->
      DataQuality.normalize_field_name s = s /\ IngestedData.normalize_field_name s = s).
Proof.
  assert (Hn : is_normalized (DataQuality.normalize_field_name s) = true).
  { unfold is_normalized, DataQuality.normalize_field_name.
    rewrite of_to_string. apply normalize_chars_normalized. }
  assert (Hfix : forall n, is_normalized n = true -> DataQuality.normalize_field_name n = n).
  { intros n H. unfold DataQuality.normalize_field_name.
    rewrite (normalized_chars_fixed _ H). apply to_of_string. }
  split; [exact (Hfix _ Hn)|]. split; [exact (Hfix _ Hn)|].
  split; [exact Hn|]. intros H. split; exact (Hfix _ H).
Qed.

Lemma normalize_field_name_idempotent_witness :
  DataQuality.normalize_field_name "first_name" = "first_name"
  /\ IngestedData.normalize_field_name "first_name" = "first_name".
Proof.
  apply (proj2 (proj2 (proj2 (normalize_field_name_idempotent "first_name")))).
  vm_compute. reflexivity.
Defined.

End NormalizeFacts.

(** ** String cleaning *)

Section CleanFacts.
Import PyStr DataQuality.

Lemma split_cons c t :
  split (c :: t) =
  if isspace c then split t
  else match t with
       | [] => [[c]]
       | c' :: _ =>
           if isspace c' then [c] :: split t
           else match split t with
                | w :: ws => (c :: w) :: ws
                | [] => [[c]]
                end
       end.
Proof. reflexivity. Qed.

Lemma split_good l : good_words (split l).
Proof.
  unfold good_words.
  induction l as [|c t IH]; [constructor|].
  rewrite split_cons. destruct (isspace c) eqn:Ec; [exact IH|].
  assert (Hc : nonspace c = true) by (unfold nonspace; now rewrite Ec).
  assert (H1 : [c] <> [] /\ forallb nonspace [c] = true).
  { split; [discriminate|]. cbn [forallb]. now rewrite Hc. }
  destruct t as [|c' t']; [now constructor|].
  destruct (isspace c'); [now constructor|].
  destruct (split (c' :: t')) as [|w ws]; [now constructor|].
  inversion IH as [|? ? [Hw1 Hw2] Hws]; subst.
  constructor; [|exact Hws].
  split; [discriminate|]. cbn [forallb]. now rewrite Hc, Hw2.
Qed.

Lemma split_concat l : concat (split l) = filter nonspace l.
Proof.
  induction l as [|c t IH]; [reflexivity|].
  rewrite split_cons. cbn [filter]. unfold nonspace at 1.
  destruct (isspace c) eqn:Ec; cbn [negb]; [exact IH|].
  destruct t as [|c' t']; [reflexivity|].
  destruct (isspace c') eqn:Ec'.
  - cbn [concat app]. now rewrite IH.
  - rewrite <- IH. destruct (split (c' :: t')) as [|w ws]; reflexivity.
Qed.

Lemma join_cons sep w ws :
  join sep (w :: ws) = match ws with [] => w | _ :: _ => w ++ sep ++ join sep ws end.
Proof. reflexivity. Qed.

Lemma forallb_join (P : ascii -> bool) ws :
  P space = true -> forallb P (concat ws) = true ->
  forallb P (join [space] ws) = true.
Proof.
  intros Hs. induction ws as [|w ws IH]; [reflexivity|].
  cbn [concat]. rewrite forallb_app. intros H.
  apply andb_true_iff in H as [Hw Hws].
  rewrite join_cons. destruct ws as [|w' ws']; [exact Hw|].
  rewrite !forallb_app, Hw, (IH Hws). cbn [forallb]. now rewrite Hs.
Qed.

Lemma hd_ok_app p (w x : chars) : w <> [] -> hd_ok p (w ++ x) = hd_ok p w.
Proof. destruct w; [congruence|reflexivity]. Qed.

Lemma last_ok_app p (w x : chars) : x <> [] -> last_ok p (w ++ x) = last_ok p x.
Proof.
  intros Hx. induction w as [|c w IH]; [reflexivity|].
  cbn [app last_ok]. destruct (w ++ x) eqn:E; [|exact IH].
  apply app_eq_nil in E as [_ E]. congruence.
Qed.

Lemma last_ok_cons p c (x : chars) : x <> [] -> last_ok p (c :: x) = last_ok p x.
Proof. destruct x; [congruence|reflexivity]. Qed.

Lemma word_ends w :
  forallb nonspace w = true -> hd_ok isspace w = true /\ last_ok isspace w = true.
Proof.
  apply forallb_not_hd_last. intros c Hc. unfold nonspace in Hc.
  now apply negb_true_iff in Hc.
Qed.

Lemma space_is_space : isspace space = true.
Proof. vm_compute. reflexivity. Qed.

Lemma nonspace_not_space c : nonspace c = true -> is_char space c = false.
Proof.
  intros Hc. destruct (is_char space c) eqn:E; [|reflexivity].
  apply is_char_eq in E. subst c. unfold nonspace in Hc.
  rewrite space_is_space in Hc. discriminate.
Qed.

Lemma no_run_word_then (w j : chars) :
  forallb nonspace w = true -> w <> [] ->
  no_run space j = true -> hd_ok isspace j = true ->
  no_run space (w ++ space :: j) = true.
Proof.
  intros Hw Hne Hj Hh.
  assert (Hsj : no_run space (space :: j) = true).
  { destruct j as [|d j']; [reflexivity|].
    change (negb (is_char space space && is_char space d) && no_run space (d :: j') = true).
    rewrite Hj. cbn [hd_ok] in Hh. apply negb_true_iff in Hh.
    destruct (is_char space d) eqn:E.
    - apply is_char_eq in E. subst d. rewrite space_is_space in Hh. discriminate.
    - now rewrite andb_false_r. }
  induction w as [|c w IH]; [congruence|].
  cbn [forallb] in Hw. apply andb_true_iff in Hw as [Hc Hw].
  apply nonspace_not_space in Hc.
  destruct w as [|c2 w'].
  - change (negb (is_char space c && is_char space space) && no_run space (space :: j) = true).
    now rewrite Hc, Hsj.
  - change (negb (is_char space c && is_char space c2)
            && no_run space ((c2 :: w') ++ space :: j) = true).
    rewrite Hc. cbn [andb negb]. apply IH; [exact Hw|discriminate].
Qed.

Lemma no_run_word w : forallb nonspace w = true -> no_run space w = true.
Proof.
  induction w as [|c w IH]; [reflexivity|].
  cbn [forallb]. intros H. apply andb_true_iff in H as [Hc Hw].
  destruct w as [|c2 w']; [reflexivity|].
  change (negb (is_char space c && is_char space c2) && no_run space (c2 :: w') = true).
  now rewrite (nonspace_not_space _ Hc), (IH Hw).
Qed.

Lemma join_nonempty w ws : w <> [] -> join [space] (w :: ws) <> [].
Proof.
  intros Hw. rewrite join_cons. destruct ws; [exact Hw|].
  destruct w; [congruence|discriminate].
Qed.

Lemma join_shape ws :
  good_words ws ->
  no_run space (join [space] ws) = true
  /\ hd_ok isspace (join [space] ws) = true
  /\ last_ok isspace (join [space] ws) = true.
Proof.
  induction 1 as [|w ws [Hne Hw] Hws IH]; [now repeat split|].
  destruct IH as [IH1 [IH2 IH3]]. destruct (word_ends _ Hw) as [Wh Wl].
  rewrite join_cons. destruct ws as [|w' ws'].
  - repeat split; auto. now apply no_run_word.
  - inversion Hws as [|? ? [Hne' _] _]; subst.
    pose proof (join_nonempty w' ws' Hne') as Hj.
    cbn [app]. repeat split.
    + now apply no_run_word_then.
    + now rewrite hd_ok_app.
    + rewrite last_ok_app by discriminate. now rewrite last_ok_cons.
Qed.

Lemma filter_join ws :
  good_words ws -> filter nonspace (join [space] ws) = concat ws.
Proof.
  assert (Hfix : forall w, forallb nonspace w = true -> filter nonspace w = w).
  { induction w as [|c w IH]; [reflexivity|]. cbn [forallb filter].
    intros H. apply andb_true_iff in H as [Hc Hw]. now rewrite Hc, (IH Hw). }
  induction 1 as [|w ws [Hne Hw] Hws IH]; [reflexivity|].
  rewrite join_cons. cbn [concat]. destruct ws as [|w' ws'].
  - cbn [concat]. now rewrite app_nil_r, Hfix.
  - rewrite !filter_app, IH, (Hfix _ Hw). cbn [filter].
    unfold nonspace at 1. now rewrite space_is_space.
Qed.

Lemma split_word_then w rest :
  w <> [] -> forallb nonspace w = true ->
  split (w ++ space :: rest) = w :: split rest.
Proof.
  induction w as [|c w IH]; [congruence|]. intros _ H.
  cbn [forallb] in H. apply andb_true_iff in H as [Hc Hw].
  assert (Ec : isspace c = false) by (unfold nonspace in Hc; now apply negb_true_iff in Hc).
  cbn [app]. rewrite split_cons, Ec. destruct w as [|c2 w'].
  - cbn [app]. rewrite space_is_space.
    rewrite (split_cons space rest). now rewrite space_is_space.
  - assert (E2 : isspace c2 = false).
    { cbn [forallb] in Hw. apply andb_true_iff in Hw as [H2 _].
      unfold nonspace in H2. now apply negb_true_iff in H2. }
    cbn [app]. rewrite E2. cbn [app] in IH. rewrite IH; [reflexivity|discriminate|exact Hw].
Qed.

Lemma split_word w : w <> [] -> forallb nonspace w = true -> split w = [w].
Proof.
  induction w as [|c w IH]; [congruence|]. intros _ H.
  cbn [forallb] in H. apply andb_true_iff in H as [Hc Hw].
  assert (Ec : isspace c = false) by (unfold nonspace in Hc; now apply negb_true_iff in Hc).
  rewrite split_cons, Ec. destruct w as [|c2 w']; [reflexivity|].
  assert (E2 : isspace c2 = false).
  { cbn [forallb] in Hw. apply andb_true_iff in Hw as [H2 _].
    unfold nonspace in H2. now apply negb_true_iff in H2. }
  rewrite E2. rewrite IH; [reflexivity|discriminate|exact Hw].
Qed.

Lemma split_join ws : good_words ws -> split (join [space] ws) = ws.
Proof.
  induction 1 as [|w ws [Hne Hw] Hws IH]; [reflexivity|].
  rewrite join_cons. destruct ws as [|w' ws']; [now apply split_word|].
  cbn [app]. rewrite split_word_then by assumption. now rewrite IH.
Qed.

End CleanFacts.

Section CleanString.
Import PyStr DataQuality.

Lemma clean_chars_joined l :
  clean_chars l = join [space] (split (re_delete is_control l)).
Proof.
  unfold clean_chars.
  destruct (join_shape _ (split_good (re_delete is_control l))) as [_ [Hh Hl]].
  now apply strip_by_fixed.
Qed.

Lemma clean_chars_normal_form l :
  forallb clean_char (clean_chars l) = true
  /\ no_run space (clean_chars l) = true
  /\ hd_ok isspace (clean_chars l) = true
  /\ last_ok isspace (clean_chars l) = true
  /\ filter nonspace (clean_chars l) = filter nonspace (re_delete is_control l).
Proof.
  rewrite clean_chars_joined.
  pose proof (split_good (re_delete is_control l)) as Hg.
  destruct (join_shape _ Hg) as [H1 [H2 H3]].
  repeat split; auto.
  - apply forallb_join; [vm_compute; reflexivity|].
    rewrite split_concat. apply forallb_forall. intros c Hc.
    apply filter_In in Hc as [Hc Hn]. unfold re_delete in Hc.
    apply filter_In in Hc as [_ Hc].
    unfold clean_char. now rewrite Hc, Hn.
  - now rewrite filter_join, split_concat.
Qed.

(** C6, as amended. For every input value, [clean_string] removes the
    control characters U+0000-0008, 000B, 000C, 000E-001F and 007F, then
    turns every run of white space - tab, newline and carriage return
    included - into one space and drops it at both ends: the result is the
    words of what is left of the input (its maximal runs of characters that
    are not white space), in order, with one space between two of them.  So
    it has the same words, holds no control character and no white space but
    single spaces between words (no tab or newline survives), and its other
    characters are those of the input, in order. *)
Theorem clean_string_normal_form (value : option string) :
  let kept :=
    match value with
    | None => []
    | Some s => re_delete is_control (of_string s)
    end in
  let r := of_string (clean_string value) in
  r = join [space] (split kept)
  /\ split r = split kept
  /\ forallb clean_char r = true
  /\ no_run space r = true
  /\ hd_ok isspace r = true
  /\ last_ok isspace r = true
  /\ filter nonspace r = filter nonspace kept.
Proof.
  destruct value as [s|]; cbn zeta.
  - unfold clean_string. rewrite of_to_string.
    split; [apply clean_chars_joined|]. split; [|apply clean_chars_normal_form].
    rewrite clean_chars_joined. apply split_join, split_good.
  - now repeat split.
Qed.

(** C6, counterexample. A tab and a newline of the input do not survive
    cleaning: each comes out as a space. *)
Lemma clean_string_replaces_tab_and_newline :
  let input := String "a" (String "009" (String "b" (String "010" "c"))) in
  count "009" (of_string input) = 1
  /\ count "010" (of_string input) = 1
  /\ clean_string (Some input) = "a b c"
  /\ count "009" (of_string (clean_string (Some input))) = 0
  /\ count "010" (of_string (clean_string (Some input))) = 0.
Proof. vm_compute. repeat split. Qed.

End CleanString.

(** ** Malformed-JSON repair *)

Section JsonFacts.
Import PyStr DataQuality.

Variable JSON : Type.
Variable json_loads : string -> option JSON.

(** C10. Whatever the line, [fix_malformed_json_line] returns [None] or a
    string that [json.loads] parses (the stripped line with its missing
    closers appended); it returns [None] for an empty line and for one of
    white space only. *)
Theorem fix_malformed_json_line_sound (line : string) :
  match fix_malformed_json_line JSON json_loads line with
  | None => True
  | Some fixed =>
      (exists j, json_loads fixed = Some j)
      /\ fixed = to_string (repair_line (of_string line))
  end
  /\ (if is_empty (strip (of_string line))
      then fix_malformed_json_line JSON json_loads line = None
      else True).
Proof.
  unfold fix_malformed_json_line. split.
  - destruct (is_empty (of_string line) || is_empty (strip (of_string line))); [exact I|].
    destruct (json_loads (to_string (repair_line (of_string line)))) as [j|] eqn:E;
      [|exact I].
    split; [now exists j|reflexivity].
  - destruct (is_empty (strip (of_string line))); [|exact I].
    now rewrite orb_true_r.
Qed.

End JsonFacts.

(** The repairs the specification lists, with a parser that accepts the
    repaired array: an unclosed array gets its bracket, a blank line is
    refused. *)
Example fix_malformed_json_line_examples :
  let loads := fun s : string => if String.eqb s "[1,2,3]" then Some tt else None in
  DataQuality.fix_malformed_json_line unit loads "  [1,2,3 " = Some "[1,2,3]"
  /\ DataQuality.fix_malformed_json_line unit loads "   " = None
  /\ DataQuality.fix_malformed_json_line unit loads "" = None
  /\ PyStr.to_string (DataQuality.repair_line (PyStr.of_string "{x:[1,{y:2")) = "{x:[1,{y:2}}]".
Proof. vm_compute. repeat split. Qed.

(** ** Encoding detection *)

Section EncodingFacts.

Variable open_read : string -> nat -> exc string.
Variable chardet_detect : string -> exc (list (string * option string)).

(** [data_quality.detect_encoding_safe] never raises and follows the policy. *)
Lemma data_quality_detect_encoding_total (file_path : string) (sample_size : nat) :
  DataQuality.detect_encoding_safe open_read chardet_detect file_path sample_size
  = inr (DataQuality.fallback_policy open_read chardet_detect file_path sample_size).
Proof.
  unfold DataQuality.detect_encoding_safe, DataQuality.fallback_policy, try_except.
  destruct (open_read file_path sample_size) as [e|raw]; [reflexivity|].
  cbn [bind Monad_either]. destruct (chardet_detect raw) as [e|d]; [reflexivity|].
  destruct (DataQuality.dict_get d "encoding" (Some "utf-8")) as [enc|]; [|reflexivity].
  destruct (PyStr.str_in (DataQuality.lower_str enc) ["ascii"; "us-ascii"]);
    [reflexivity|].
  destruct (String.eqb (DataQuality.lower_str enc) "windows-1252"); reflexivity.
Qed.

Lemma ingested_data_detect_encoding_total (file_path : string) (sample_size : nat) :
  exists enc,
    IngestedData.detect_encoding_safe open_read chardet_detect file_path sample_size
    = inr enc.
Proof.
  unfold IngestedData.detect_encoding_safe, try_except.
  destruct (open_read file_path sample_size) as [e|raw]; [now eexists|].
  cbn [bind Monad_either]. destruct (chardet_detect raw) as [e|d]; [now eexists|].
  destruct (DataQuality.dict_get d "encoding" (Some "utf-8")) as [enc|]; [|now eexists].
  destruct (PyStr.str_in (DataQuality.lower_str enc) ["ascii"; "us-ascii"]);
    now eexists.
Qed.

End EncodingFacts.

(** C5. On a file whose sample [chardet] reports as Windows-1252 the copy in
    [ingested_data.py] - the one the pipeline calls - returns the inference
    verbatim, where the copy in [data_quality.py] returns latin-1. *)
Theorem ingested_data_detect_encoding_windows_1252 :
  let open_read := fun (_ : string) (_ : nat) => inr "caf" : exc string in
  let chardet_detect :=
    fun _ : string =>
      inr [("encoding", Some "Windows-1252"); ("language", Some "")]
      : exc (list (string * option string)) in
  IngestedData.detect_encoding_safe open_read chardet_detect "data.csv" 10000
    = inr "Windows-1252"
  /\ DataQuality.detect_encoding_safe open_read chardet_detect "data.csv" 10000
    = inr "latin-1".
Proof. vm_compute. split; reflexivity. Qed.

(** ** The flattener *)

Section FlattenFacts.
Import IngestedData.

Variable py_str : list value -> string.

(** Induction over values, through the lists and dicts they nest. *)
Section ValueInd.
Variable P : value -> Prop.
Hypothesis HNone : P VNone.
Hypothesis HBool : forall b, P (VBool b).
Hypothesis HInt : forall n, P (VInt n).
Hypothesis HStr : forall s, P (VStr s).
Hypothesis HList : forall l, Forall P l -> P (VList l).
Hypothesis HDict : forall d, Forall (fun kv => P (snd kv)) d -> P (VDict d).

Fixpoint value_induction (v : value) : P v :=
  match v with
  | VNone => HNone
  | VBool b => HBool b
  | VInt n => HInt n
  | VStr s => HStr s
  | VList l =>
      HList l
        ((fix each (l : list value) : Forall P l :=
            match l with
            | [] => Forall_nil P
            | x :: t => Forall_cons x (value_induction x) (each t)
            end) l)
  | VDict d =>
      HDict d
        ((fix each (d : dict) : Forall (fun kv => P (snd kv)) d :=
            match d with
            | [] => Forall_nil _
            | kv :: t => Forall_cons kv (value_induction (snd kv)) (each t)
            end) d)
  end.
End ValueInd.

Lemma flatten_value_dict sep key d :
  flatten_value py_str sep key (VDict d) =
  dict_of_items
    (flat_map (fun kv => flatten_value py_str sep (new_key key sep (fst kv)) (snd kv)) d).
Proof.
  cbn [flatten_value]. f_equal.
  induction d as [|[k v] d IH]; [reflexivity|].
  cbn [flat_map fst snd]. now rewrite <- IH.
Qed.

Lemma dict_set_flat d k v :
  is_flat d = true -> is_scalar v = true -> is_flat (dict_set d k v) = true.
Proof.
  unfold is_flat. intros Hd Hv.
  induction d as [|[k' v'] d IH]; cbn [dict_set forallb snd] in *.
  - now rewrite Hv.
  - apply andb_true_iff in Hd as [H1 H2].
    destruct (String.eqb k' k); cbn [forallb snd].
    + now rewrite Hv, H2.
    + now rewrite H1, (IH H2).
Qed.

Lemma dict_of_items_flat items : is_flat items = true -> is_flat (dict_of_items items) = true.
Proof.
  unfold dict_of_items.
  assert (H : forall acc, is_flat acc = true -> is_flat items = true ->
            is_flat (fold_left (fun d kv => dict_set d (fst kv) (snd kv)) items acc) = true).
  { induction items as [|[k v] items IH]; intros acc Ha Hi; [exact Ha|].
    unfold is_flat in Hi. cbn [forallb snd] in Hi.
    apply andb_true_iff in Hi as [H1 H2].
    cbn [fold_left fst snd]. apply IH; [now apply dict_set_flat|exact H2]. }
  now apply H.
Qed.

Lemma is_flat_app a b : is_flat (a ++ b) = is_flat a && is_flat b.
Proof. apply forallb_app. Qed.

Lemma flatten_value_flat v : forall sep key, is_flat (flatten_value py_str sep key v) = true.
Proof.
  induction v as [| b | n | s | l IH | d IH] using value_induction; intros sep key;
    try reflexivity.
  - destruct l as [|v0 l']; [reflexivity|].
    inversion IH as [|? ? H0 _]; subst.
    destruct v0; try reflexivity. apply H0.
  - rewrite flatten_value_dict. apply dict_of_items_flat.
    induction d as [|[k v] d IHd]; [reflexivity|].
    inversion IH as [|? ? H0 Hd]; subst.
    cbn [flat_map fst snd]. rewrite is_flat_app, (H0 sep _). now apply IHd.
Qed.

Lemma has_key_dict_set d k v x :
  has_key x (dict_set d k v) = has_key x d || String.eqb k x.
Proof.
  unfold has_key.
  induction d as [|[k' v'] d IH]; cbn [dict_set existsb fst].
  - now rewrite orb_false_r.
  - destruct (String.eqb k' k) eqn:E; cbn [existsb fst].
    + apply String.eqb_eq in E. subst k'.
      destruct (String.eqb k x); [reflexivity|]. now rewrite !orb_false_l, orb_false_r.
    + rewrite IH. now rewrite orb_assoc.
Qed.

Lemma distinct_dict_set d k v :
  distinct_keys d = true -> distinct_keys (dict_set d k v) = true.
Proof.
  induction d as [|[k' v'] d IH]; [reflexivity|].
  cbn [distinct_keys dict_set]. intros H. apply andb_true_iff in H as [H1 H2].
  destruct (String.eqb k' k) eqn:E; cbn [distinct_keys].
  - now rewrite H1, H2.
  - rewrite (IH H2), andb_true_r.
    fold (has_key k' (dict_set d k v)). rewrite has_key_dict_set.
    fold (has_key k' d) in H1. apply negb_true_iff in H1. rewrite H1.
    now rewrite String.eqb_sym, E.
Qed.

Lemma dict_of_items_distinct items : distinct_keys (dict_of_items items) = true.
Proof.
  unfold dict_of_items.
  assert (H : forall acc, distinct_keys acc = true ->
            distinct_keys (fold_left (fun d kv => dict_set d (fst kv) (snd kv)) items acc)
            = true).
  { induction items as [|kv items IH]; intros acc Ha; [exact Ha|].
    cbn [fold_left]. apply IH. now apply distinct_dict_set. }
  now apply H.
Qed.

Lemma dict_set_fresh d k v : has_key k d = false -> dict_set d k v = d ++ [(k, v)].
Proof.
  unfold has_key.
  induction d as [|[k' v'] d IH]; [reflexivity|].
  cbn [existsb fst dict_set app]. intros H. apply orb_false_iff in H as [H1 H2].
  now rewrite H1, (IH H2).
Qed.

Lemma distinct_app_fresh a k v b :
  distinct_keys (a ++ (k, v) :: b) = true -> has_key k a = false.
Proof.
  unfold has_key.
  induction a as [|[k0 v0] a IH]; [reflexivity|].
  cbn [app distinct_keys existsb fst]. intros H. apply andb_true_iff in H as [H1 H2].
  rewrite (IH H2), orb_false_r.
  apply negb_true_iff in H1. rewrite existsb_app in H1.
  apply orb_false_iff in H1 as [_ H1]. cbn [existsb fst] in H1.
  apply orb_false_iff in H1 as [H1 _]. now rewrite String.eqb_sym.
Qed.

Lemma dict_of_items_fixed d : distinct_keys d = true -> dict_of_items d = d.
Proof.
  unfold dict_of_items.
  assert (H : forall acc, distinct_keys (acc ++ d) = true ->
            fold_left (fun d kv => dict_set d (fst kv) (snd kv)) d acc = acc ++ d).
  { induction d as [|[k v] d IH]; intros acc Ha; [now rewrite app_nil_r|].
    cbn [fold_left fst snd].
    rewrite (dict_set_fresh _ _ _ (distinct_app_fresh _ _ _ _ Ha)).
    rewrite IH; rewrite <- app_assoc; [reflexivity|exact Ha]. }
  intros Hd. now apply (H []).
Qed.

Lemma flatten_dict_fixed d :
  is_flat d = true -> distinct_keys d = true -> flatten_dict py_str d = d.
Proof.
  intros Hf Hd. unfold flatten_dict, flatten_dict_in. rewrite flatten_value_dict.
  assert (Hitems : flat_map
            (fun kv => flatten_value py_str "_" (new_key "" "_" (fst kv)) (snd kv)) d = d).
  { clear Hd. induction d as [|[k v] d IH]; [reflexivity|].
    unfold is_flat in Hf. cbn [forallb snd] in Hf. apply andb_true_iff in Hf as [H1 H2].
    cbn [flat_map fst snd]. rewrite (IH H2).
    destruct v; try discriminate; reflexivity. }
  rewrite Hitems. now apply dict_of_items_fixed.
Qed.

(** C8. Flattening is idempotent: a flattened record is flat (no value is a
    dict or a list) with distinct keys, so flattening it again changes
    nothing; and a record that is already flat is returned unchanged. *)
Theorem flatten_dict_idempotent (d : dict) :
  flatten_dict py_str (flatten_dict py_str d) = flatten_dict py_str d
  /\ is_flat (flatten_dict py_str d) = true
  /\ (is_flat d = true -> distinct_keys d = true -> flatten_dict py_str d = d).
Proof.
  assert (Hf : is_flat (flatten_dict py_str d) = true) by apply flatten_value_flat.
  assert (Hd : distinct_keys (flatten_dict py_str d) = true).
  { unfold flatten_dict, flatten_dict_in. rewrite flatten_value_dict.
    apply dict_of_items_distinct. }
  split; [now apply flatten_dict_fixed|]. split; [exact Hf|]. apply flatten_dict_fixed.
Qed.

End FlattenFacts.

Lemma flatten_dict_idempotent_witness :
  let py_str := fun _ : list IngestedData.value => "[1, 2]" in
  let d := [("name", IngestedData.VStr "ann"); ("age", IngestedData.VInt 7)] in
  IngestedData.flatten_dict py_str d = d.
Proof.
  cbv zeta.
  apply (proj2 (proj2 (flatten_dict_idempotent (fun _ => "[1, 2]")
           [("name", IngestedData.VStr "ann"); ("age", IngestedData.VInt 7)])));
    reflexivity.
Defined.

(** A nested record and its flattening: nested keys are joined with the
    separator, a list of dicts contributes its first element only, a list of
    scalars is kept as its string, an empty list as the empty string. *)
Example flatten_dict_nested :
  let py_str := fun _ : list IngestedData.value => "[1, 2]" in
  IngestedData.flatten_dict py_str
    [("id", IngestedData.VInt 1);
     ("user", IngestedData.VDict
        [("name", IngestedData.VStr "ann");
         ("tags", IngestedData.VList [IngestedData.VInt 1; IngestedData.VInt 2])]);
     ("orders", IngestedData.VList
        [IngestedData.VDict [("sku", IngestedData.VStr "a")];
         IngestedData.VDict [("sku", IngestedData.VStr "b")]]);
     ("empty", IngestedData.VList [])]
  = [("id", IngestedData.VInt 1);
     ("user_name", IngestedData.VStr "ann");
     ("user_tags", IngestedData.VStr "[1, 2]");
     ("orders_sku", IngestedData.VStr "a");
     ("empty", IngestedData.VStr "")].
Proof. vm_compute. reflexivity. Qed.

(** ** Frames: lookup by column name *)

Section FrameFacts.
Import Spark.

Lemma get_map (g : string -> cell) cols c :
  has_column c cols = true -> get cols (map g cols) c = g c.
Proof.
  unfold has_column.
  induction cols as [|k cols IH]; [discriminate|].
  cbn [existsb map get]. rewrite (String.eqb_sym c k).
  destruct (String.eqb k c) eqn:E.
  - apply String.eqb_eq in E. now subst k.
  - exact IH.
Qed.

Lemma get_absent cols row c : has_column c cols = false -> get cols row c = None.
Proof.
  unfold has_column. revert row.
  induction cols as [|k cols IH]; intros row; [reflexivity|].
  cbn [existsb]. rewrite (String.eqb_sym c k). intros H.
  apply orb_false_iff in H as [H1 H2].
  destruct row as [|v row]; [reflexivity|]. cbn [get]. rewrite H1. now apply IH.
Qed.

Lemma has_column_app c a b : has_column c (a ++ b) = has_column c a || has_column c b.
Proof. apply existsb_app. Qed.

Lemma has_column_self c : has_column c [c] = true.
Proof. unfold has_column. cbn [existsb]. now rewrite String.eqb_refl. Qed.

Lemma has_column_In c cols : has_column c cols = true <-> In c cols.
Proof.
  unfold has_column. rewrite existsb_exists. split.
  - intros [x [Hx E]]. apply String.eqb_eq in E. now subst x.
  - intros H. exists c. split; [exact H|apply String.eqb_refl].
Qed.

End FrameFacts.

(** ** The canonical key *)

Section KeyFacts.
Import Spark IngestedData.

Variable digest : nat -> string -> string.
Variable now : string.




Lemma withColumn_key_cells df e :
  canonical_keys (withColumn digest now df "canonical_key" e)
  = map (fun row => eval digest now (columns df) row e) (rows df).
Proof.
  unfold canonical_keys. cbn [withColumn rows columns]. rewrite map_map.
  apply map_ext. intros row.
  set (cols' := if has_column "canonical_key" (columns df) then _ else _).
  assert (H : has_column "canonical_key" cols' = true).
  { subst cols'. destruct (has_column "canonical_key" (columns df)) eqn:E; [exact E|].
    rewrite has_column_app, has_column_self. apply orb_true_r. }
  rewrite (get_map _ _ _ H). now rewrite String.eqb_refl.
Qed.

Lemma key_cols_identity df : key_cols df = map col (identity_columns (columns df)).
Proof. reflexivity. Qed.


(** The keys of a frame that has no identity column. *)
Lemma canonical_keys_sentinel df :
  identity_columns (columns df) = [] ->
  canonical_keys (generate_canonical_key digest now df)
  = repeat (Some (digest 256 "no_key")) (count df).
Proof.
  intros He. unfold generate_canonical_key. rewrite key_cols_identity, length_map, He.
  cbn [length Nat.eqb]. rewrite withColumn_key_cells. cbn [eval].
  change (valid_bits 256) with true. cbv iota. cbn [option_map]. apply map_const.
Qed.

End KeyFacts.




(** The strings hashed for the two records above, whatever the digest. *)
Example canonical_key_strings_across_sources (digest : nat -> string -> string) :
  IngestedData.canonical_keys
    (IngestedData.generate_canonical_key digest "t0"
       (Spark.mkDataFrame ["name"; "city"] [[Some "ann"; Some "oslo"]]))
    = [Some (digest 256 "ann")]
  /\ IngestedData.canonical_keys
       (IngestedData.generate_canonical_key digest "t0"
          (Spark.mkDataFrame ["name"; "email"] [[Some "ann"; Some ""]]))
    = [Some (digest 256 "ann||")].
Proof. split; reflexivity. Qed.

(** C2, as amended. A frame with none of the columns name, email, phone, dob
    gives every row the same key, the SHA-256 digest of the literal
    "no_key": it depends on neither the row, the frame nor the time of the
    run.  No row is added or dropped. *)
Theorem canonical_key_sentinel (digest : nat -> string -> string) (now : string)
    (df : Spark.DataFrame) :
  IngestedData.identity_columns (Spark.columns df) = [] ->
  IngestedData.canonical_keys (IngestedData.generate_canonical_key digest now df)
  = repeat (Some (digest 256 "no_key")) (Spark.count df)
  /\ Spark.count (IngestedData.generate_canonical_key digest now df) = Spark.count df.
Proof.
  intros He. split; [now apply canonical_keys_sentinel|].
  unfold IngestedData.generate_canonical_key, Spark.count.
  destruct (length (IngestedData.key_cols df) =? 0);
    cbn [Spark.withColumn Spark.rows]; apply length_map.
Qed.

Lemma canonical_key_sentinel_witness :
  let df := Spark.mkDataFrame ["city"; "age"] [[Some "oslo"; Some "7"]; [Some "rome"; None]] in
  IngestedData.canonical_keys (IngestedData.generate_canonical_key (fun _ s => s) "run 1" df)
  = repeat (Some "no_key") (Spark.count df)
  /\ Spark.count (IngestedData.generate_canonical_key (fun _ s => s) "run 1" df)
     = Spark.count df.
Proof.
  cbv zeta.
  apply (canonical_key_sentinel (fun _ s => s) "run 1"
           (Spark.mkDataFrame ["city"; "age"] [[Some "oslo"; Some "7"]; [Some "rome"; None]])).
  reflexivity.
Defined.

(** C2, counterexample. Records without any identity value, in a frame that
    has the columns [name] and [email]: one with both values NULL, one with
    both the empty string.  Neither gets the sentinel: the strings hashed
    are "" and "||", not "no_key". *)
Lemma keyless_record_not_sentinel :
  let digest := fun (_ : nat) (s : string) => s in
  let df := Spark.mkDataFrame ["name"; "email"; "city"]
              [[None; None; Some "oslo"]; [Some ""; Some ""; Some "rome"]] in
  IngestedData.canonical_keys (IngestedData.generate_canonical_key digest "t0" df)
    = [Some ""; Some "||"]
  /\ ~ In (Some (digest 256 "no_key"))
         (IngestedData.canonical_keys (IngestedData.generate_canonical_key digest "t0" df)).
Proof.
  vm_compute. split; [reflexivity|]. intros [H|[H|[]]]; discriminate H.
Qed.

(** Two sources that name and write the same person differently get the
    same key once [normalize_columns] has run. *)
Example prepare_same_key_across_sources :
  let digest := fun (_ : nat) (s : string) => s in
  let csv := Spark.mkDataFrame ["full_name"; "city"] [[Some " Ann Lee "; Some "Oslo"]] in
  let xml := Spark.mkDataFrame ["id"; "name"] [[Some "7"; Some "ann lee"]] in
  IngestedData.canonical_keys (IngestedData.prepare digest "t0" csv) = [Some "ann lee"]
  /\ IngestedData.canonical_keys (IngestedData.prepare digest "t1" xml) = [Some "ann lee"].
Proof. vm_compute. split; reflexivity. Qed.

(** ** Merge and deduplication *)

Section MergeFacts.
Import Spark IngestedData.


Lemma union_columns_spec c a b :
  has_column c (union_columns a b) = has_column c a || has_column c b.
Proof.
  unfold union_columns. rewrite has_column_app.
  destruct (has_column c a) eqn:Ea; [reflexivity|]. cbn [orb].
  unfold has_column at 1 3.
  induction b as [|k b IH]; [reflexivity|].
  cbn [filter existsb].
  destruct (has_column k a) eqn:Ek; cbn [negb existsb].
  - rewrite IH. destruct (String.eqb c k) eqn:E; [|reflexivity].
    apply String.eqb_eq in E. subst k. congruence.
  - now rewrite IH.
Qed.


(** The merged frame has exactly the columns seen in some frame. *)
Lemma merge_columns_union c dfs merged :
  merge dfs = Some merged ->
  has_column c (columns merged) = existsb (fun df => has_column c (columns df)) dfs.
Proof.
  destruct dfs as [|df0 dfs]; [discriminate|].
  cbn [merge existsb]. intros [= <-]. revert df0.
  induction dfs as [|df dfs IH]; intros df0; cbn [fold_left existsb].
  - now rewrite orb_false_r.
  - rewrite IH. cbn [unionByName columns]. rewrite union_columns_spec.
    now rewrite orb_assoc.
Qed.

(** A row of the left frame is NULL under a column only the right frame has. *)
Lemma union_missing_is_null a b row c :
  has_column c (columns a) = false -> has_column c (columns b) = true ->
  get (columns (unionByName a b)) (conform (columns (unionByName a b)) (columns a) row) c
  = None.
Proof.
  intros Ha Hb. unfold conform. rewrite get_map.
  - now apply get_absent.
  - cbn [unionByName columns]. now rewrite union_columns_spec, Hb, orb_true_r.
Qed.

Lemma keep_first_spec (key : Row -> list cell) rs : forall seen,
  NoDup (map key (keep_first key seen rs))
  /\ (forall k, In k (map key (keep_first key seen rs)) <->
                In k (map key rs) /\ ~ In k seen)
  /\ incl (keep_first key seen rs) rs.
Proof.
  induction rs as [|r rs IH]; intros seen.
  - cbn [keep_first map]. split; [constructor|]. split.
    + intros k. split; [intros []|intros [[] _]].
    + intros x [].
  - cbn [keep_first]. destruct (in_dec key_eq_dec (key r) seen) as [Hin|Hout].
    + destruct (IH seen) as [H1 [H2 H3]]. split; [exact H1|]. split.
      * intros k. rewrite H2. cbn [map In]. split.
        -- intros [Hk Hs]. split; [now right|exact Hs].
        -- intros [[E|Hk] Hs]; [subst k; contradiction|now split].
      * now apply incl_tl.
    + destruct (IH (key r :: seen)) as [H1 [H2 H3]]. cbn [map]. split.
      * constructor; [|exact H1]. intros Hk. apply H2 in Hk as [_ Hs].
        apply Hs. now left.
      * split.
        -- intros k. cbn [In]. rewrite H2. cbn [In]. split.
           ++ intros [E|[Hk Hs]].
              ** subst k. split; [now left|exact Hout].
              ** split; [now right|]. intros Hs'. apply Hs. now right.
           ++ intros [[E|Hk] Hs]; [now left|].
              destruct (key_eq_dec (key r) k) as [E|N]; [now left|].
              right. split; [exact Hk|]. intros [E|Hs']; [now apply N|now apply Hs].
        -- intros x [E|Hx]; [now left|]. right. now apply H3.
Qed.

Lemma NoDup_singletons (ks : list cell) :
  NoDup (map (fun k => [k]) ks) -> NoDup ks.
Proof.
  induction ks as [|k ks IH]; [constructor|].
  cbn [map]. intros H. inversion H as [|? ? Hn Hd]; subst.
  constructor; [|now apply IH].
  intros Hk. apply Hn. now apply (in_map (fun k => [k])).
Qed.

Lemma dropDuplicates_keys df :
  has_column "canonical_key" (columns df) = true ->
  NoDup (canonical_keys (deduplicate df))
  /\ (forall k, In k (canonical_keys (deduplicate df)) <-> In k (canonical_keys df))
  /\ incl (rows (deduplicate df)) (rows df)
  /\ columns (deduplicate df) = columns df.
Proof.
  intros H. unfold deduplicate. rewrite H.
  unfold dropDuplicates, canonical_keys. cbn [rows columns].
  set (key := row_key (columns df) ["canonical_key"]).
  destruct (keep_first_spec key (rows df) []) as [H1 [H2 H3]].
  assert (Hkey : forall rs, map key rs
                 = map (fun k => [k]) (map (fun row => get (columns df) row "canonical_key") rs)).
  { intros rs. rewrite map_map. reflexivity. }
  assert (Hin : forall k ks, In [k] (map (fun k : cell => [k]) ks) <-> In k ks).
  { intros k ks. split.
    - intros Hk. apply in_map_iff in Hk as [x [E Hx]]. now injection E as ->.
    - apply (in_map (fun k => [k])). }
  split; [apply NoDup_singletons; now rewrite <- Hkey|].
  split; [|split; [exact H3|reflexivity]].
  intros k. rewrite <- !Hin, <- !Hkey, H2. split; [now intros [Hk _]|].
  intros Hk. split; [exact Hk|intros []].
Qed.

End MergeFacts.


(** C3. Two files, the second with a column the first lacks: the master
    frame has the union of the columns, and the record of the first file is
    NULL - not the empty string - under [email]; read back by the loader,
    [cast_dataframe] turns that cell into the string "None". *)
Theorem merge_fills_missing_with_null :
  let digest := fun (_ : nat) (s : string) => s in
  let file_a := Spark.mkDataFrame ["name"] [[Some "Ann"]] in
  let file_b := Spark.mkDataFrame ["name"; "email"] [[Some "Bob"; Some "bob@x.org"]] in
  exists master,
    IngestedData.main digest "t0" [file_a; file_b] = Some master
    /\ Spark.columns master = ["name"; "ingest_timestamp"; "canonical_key"; "email"]
    /\ Spark.rows master =
       [[Some "ann"; Some "t0"; Some "ann"; None];
        [Some "bob"; Some "t0"; Some "bob||bob@x.org"; Some "bob@x.org"]]
    /\ map (fun row => Spark.get (Spark.columns master) row "email") (Spark.rows master)
       = [None; Some "bob@x.org"]
    /\ Loader.column_values
         (Loader.cast_dataframe (fun c => c) "t1" (Loader.read_parquet master)) "email"
       = Some [Loader.PVal "None"; Loader.PVal "bob@x.org"].
Proof. cbv zeta. eexists. vm_compute. repeat split. Qed.

(** ** Schema evolution in the loader *)

Section LoaderFacts.
Import Loader.

Lemma str_in_In c cols : PyStr.str_in c cols = true <-> In c cols.
Proof. exact (has_column_In c cols). Qed.

Lemma add_column_grows cl cols c ty :
  table cl = Some cols -> alter_fails cl c = false ->
  exists cols', grown cl (fst (command_add_column cl c ty)) cols cols' /\ In c cols'.
Proof.
  intros Ht Ha. unfold command_add_column. rewrite Ht, Ha. cbn [fst].
  destruct (PyStr.str_in c cols) eqn:E.
  - exists cols. split; [|now apply str_in_In].
    repeat split; try reflexivity. apply incl_refl.
  - exists (cols ++ [c]). split; [|apply in_or_app; right; now left].
    repeat split; try reflexivity. now apply incl_appl, incl_refl.
Qed.

Lemma grown_trans cl cl' cl'' a b c :
  grown cl cl' a b -> grown cl' cl'' b c -> grown cl cl'' a c.
Proof.
  intros [H1 [H2 [H3 [H4 H5]]]] [K1 [K2 [K3 [K4 K5]]]].
  repeat split; try congruence. eapply incl_tran; eauto.
Qed.

Lemma grown_refl cl cols : table cl = Some cols -> grown cl cl cols cols.
Proof. intros H. repeat split; auto. apply incl_refl. Qed.

Lemma add_missing_grows existing cl cols col :
  table cl = Some cols -> (forall c, alter_fails cl c = false) ->
  exists cols',
    grown cl (add_missing existing cl col) cols cols'
    /\ (In (safe_col col) existing \/ safe_col col = "ingest_timestamp"
        \/ In (safe_col col) cols').
Proof.
  intros Ht Ha. unfold add_missing.
  destruct (PyStr.str_in (safe_col col) existing) eqn:E1; cbn [negb andb].
  - exists cols. split; [now apply grown_refl|]. left. now apply str_in_In.
  - destruct (String.eqb (safe_col col) "ingest_timestamp") eqn:E2; cbn [negb].
    + exists cols. split; [now apply grown_refl|]. right. left. now apply String.eqb_eq.
    + destruct (add_column_grows cl cols (safe_col col) "String" Ht (Ha _))
        as [cols' [Hg Hin]].
      exists cols'. split; [exact Hg|]. now right; right.
Qed.

Lemma fold_add_missing_grows existing cs : forall cl cols,
  table cl = Some cols -> (forall c, alter_fails cl c = false) ->
  exists cols',
    grown cl (fold_left (add_missing existing) cs cl) cols cols'
    /\ (forall col, In col cs ->
          In (safe_col col) existing \/ safe_col col = "ingest_timestamp"
          \/ In (safe_col col) cols').
Proof.
  induction cs as [|col cs IH]; intros cl cols Ht Ha.
  - exists cols. split; [now apply grown_refl|]. intros col [].
  - cbn [fold_left].
    destruct (add_missing_grows existing cl cols col Ht Ha) as [cols1 [Hg1 H1]].
    assert (Ha1 : forall c, alter_fails (add_missing existing cl col) c = false).
    { intros c. destruct Hg1 as [_ [_ [_ [E _]]]]. rewrite E. apply Ha. }
    destruct (IH _ cols1 (proj1 Hg1) Ha1) as [cols2 [Hg2 H2]].
    exists cols2. split; [eapply grown_trans; eauto|].
    intros c [E|Hc]; [subst c|now apply H2].
    destruct H1 as [H1|[H1|H1]]; auto.
    right; right. now apply (proj1 (proj2 Hg2)).
Qed.

Lemma record_trace cl e t : trace (record cl e t) = trace cl ++ [e].
Proof. reflexivity. Qed.

(** After [ensure_table_schema] on an obliging store, the table holds the
    sanitized name of every column asked for. *)
Lemma ensure_table_schema_grows cl cols cs :
  table cl = Some cols -> obliging cl ->
  exists cols',
    grown cl (ensure_table_schema cl cs) cols cols'
    /\ (forall col, In col cs -> In (safe_col col) cols')
    /\ In "ingest_timestamp" cols'.
Proof.
  intros Ht [Hd Ha]. unfold ensure_table_schema, query_describe. rewrite Ht, Hd.
  set (cl0 := record cl (Describe true) (Some cols)).
  assert (Ht0 : table cl0 = Some cols) by reflexivity.
  assert (Ha0 : forall c, alter_fails cl0 c = false) by exact Ha.
  destruct (fold_add_missing_grows cols cs cl0 cols Ht0 Ha0) as [cols1 [Hg1 H1]].
  set (cl1 := fold_left (add_missing cols) cs cl0) in *.
  assert (Hg01 : grown cl cl1 cols cols1).
  { destruct Hg1 as [K1 [K2 [K3 [K4 K5]]]]. repeat split; auto. }
  destruct (PyStr.str_in "ingest_timestamp" cols) eqn:E; cbn [negb].
  - exists cols1. split; [exact Hg01|]. apply str_in_In in E. split.
    + intros col Hc. destruct (H1 col Hc) as [K|[K|K]]; auto.
      * now apply (proj1 (proj2 Hg1)).
      * rewrite K. now apply (proj1 (proj2 Hg1)).
    + now apply (proj1 (proj2 Hg1)).
  - assert (Ha1 : alter_fails cl1 "ingest_timestamp" = false).
    { destruct Hg1 as [_ [_ [_ [K _]]]]. rewrite K. apply Ha0. }
    destruct (add_column_grows cl1 cols1 "ingest_timestamp" "DateTime" (proj1 Hg1) Ha1)
      as [cols2 [Hg2 H2]].
    exists cols2. split; [eapply grown_trans; eauto|]. split; [|exact H2].
    intros col Hc. destruct (H1 col Hc) as [K|[K|K]].
    * apply (proj1 (proj2 Hg2)). now apply (proj1 (proj2 Hg1)).
    * now rewrite K.
    * now apply (proj1 (proj2 Hg2)).
Qed.

Lemma fold_add_missing_noop existing cs cl :
  (forall col, In col cs -> In (safe_col col) existing) ->
  fold_left (add_missing existing) cs cl = cl.
Proof.
  revert cl. induction cs as [|col cs IH]; intros cl H; [reflexivity|].
  cbn [fold_left]. unfold add_missing at 2.
  assert (E : PyStr.str_in (safe_col col) existing = true).
  { apply str_in_In. apply H. now left. }
  rewrite E. cbn [negb andb]. apply IH. intros c Hc. apply H. now right.
Qed.

(** On a table that already holds every sanitized column and
    [ingest_timestamp], [ensure_table_schema] only describes the table. *)
Lemma ensure_table_schema_noop cl cols cs :
  table cl = Some cols -> describe_fails cl = false ->
  (forall col, In col cs -> In (safe_col col) cols) -> In "ingest_timestamp" cols ->
  ensure_table_schema cl cs = record cl (Describe true) (Some cols).
Proof.
  intros Ht Hd Hc Hi. unfold ensure_table_schema, query_describe. rewrite Ht, Hd.
  rewrite (fold_add_missing_noop cols cs _ Hc).
  apply str_in_In in Hi. now rewrite Hi.
Qed.

Lemma insert_batches_trace colnames fuel : forall i rest cl cols,
  table cl = Some cols ->
  exists evs,
    trace (insert_batches fuel i rest colnames cl) = trace cl ++ evs
    /\ Forall (insert_of colnames cols) evs
    /\ (table (insert_batches fuel i rest colnames cl) = Some cols
        /\ describe_fails (insert_batches fuel i rest colnames cl) = describe_fails cl).
Proof.
  induction fuel as [|fuel IH]; intros i rest cl cols Ht.
  - exists []. cbn [insert_batches]. rewrite app_nil_r. repeat split; auto.
  - destruct rest as [|r rest'].
    + exists []. cbn [insert_batches]. rewrite app_nil_r. repeat split; auto.
    + cbn [insert_batches].
      set (cl1 := fst (insert cl i (firstn BATCH_SIZE (r :: rest')) colnames)).
      assert (Ht1 : table cl1 = Some cols) by exact Ht.
      destruct (IH (i + BATCH_SIZE) (skipn BATCH_SIZE (r :: rest')) cl1 cols Ht1)
        as [evs [H1 [H2 H3]]].
      eexists (_ :: evs). split; [|split; [|exact H3]].
      * rewrite H1. subst cl1. unfold insert. cbn [fst]. rewrite record_trace.
        rewrite <- app_assoc. reflexivity.
      * constructor; [|exact H2]. rewrite Ht. now eexists; eexists.
Qed.

Lemma add_column_calls_app a b :
  add_column_calls (a ++ b) = add_column_calls a ++ add_column_calls b.
Proof.
  induction a as [|e a IH]; [reflexivity|].
  destruct e; cbn [app add_column_calls]; now rewrite IH.
Qed.

Lemma add_column_calls_inserts colnames cols evs :
  Forall (insert_of colnames cols) evs -> add_column_calls evs = [].
Proof.
  induction 1 as [|e evs [n [ok ->]] _ IH]; [reflexivity|exact IH].
Qed.

Lemma add_column_no_insert cl c ty :
  filter is_insert (trace (fst (command_add_column cl c ty))) = filter is_insert (trace cl).
Proof.
  unfold command_add_column.
  destruct (table cl); [destruct (alter_fails cl c)|]; cbn [fst];
    rewrite record_trace, filter_app; cbn [filter is_insert]; apply app_nil_r.
Qed.

Lemma ensure_table_schema_no_insert cl cs :
  filter is_insert (trace (ensure_table_schema cl cs)) = filter is_insert (trace cl).
Proof.
  assert (Hd : forall ok t, filter is_insert (trace (record cl (Describe ok) t))
                            = filter is_insert (trace cl)).
  { intros ok t. rewrite record_trace, filter_app. cbn [filter is_insert]. apply app_nil_r. }
  assert (Hf : forall existing cs cl0,
            filter is_insert (trace (fold_left (add_missing existing) cs cl0))
            = filter is_insert (trace cl0)).
  { clear. intros existing cs. induction cs as [|col cs IH]; intros cl0; [reflexivity|].
    cbn [fold_left]. rewrite IH. unfold add_missing.
    destruct (negb _ && negb _); [apply add_column_no_insert|reflexivity]. }
  unfold ensure_table_schema, query_describe.
  destruct (table cl) as [cols|]; [|apply Hd].
  destruct (describe_fails cl); [apply Hd|].
  destruct (negb (PyStr.str_in "ingest_timestamp" cols)).
  - now rewrite add_column_no_insert, Hf, Hd.
  - now rewrite Hf, Hd.
Qed.

End LoaderFacts.

(** C9, as amended. On a store that refuses neither [DESCRIBE] nor [ALTER
    TABLE], every insert of a file is attempted with a table that already
    holds the sanitized name (spaces and hyphens turned into underscores) of
    every column of the file - the column itself when its name has neither -
    and loading the same columns again issues no [ADD COLUMN] call. *)
Theorem schema_evolved_before_insert (to_datetime : Loader.pcell -> Loader.pcell)
    (timestamp_now : string) (cl : Loader.Client) (df : Loader.PandasFrame)
    (cols : list string) :
  Loader.table cl = Some cols ->
  Loader.obliging cl ->
  let cl1 := Loader.load_file to_datetime timestamp_now (Loader.reset_trace cl) df in
  let colnames := Loader.columns (Loader.cast_dataframe to_datetime timestamp_now df) in
  (forall names n sch ok,
      In (Loader.Insert names n sch ok) (Loader.trace cl1) ->
      names = colnames
      /\ forall c, In c names ->
           In (Loader.safe_col c) sch /\ (Loader.safe_col c = c -> In c sch))
  /\ Loader.add_column_calls
       (Loader.trace
          (Loader.load_file to_datetime timestamp_now (Loader.reset_trace cl1) df)) = [].
Proof.
  intros Ht [Hd Ha]. cbv zeta. unfold Loader.load_file.
  set (colnames := Loader.columns (Loader.cast_dataframe to_datetime timestamp_now df)).
  set (rows := Loader.values_tolist (Loader.cast_dataframe to_datetime timestamp_now df)).
  set (cl0 := Loader.reset_trace cl).
  assert (Ho : Loader.obliging cl0) by (split; [exact Hd|exact Ha]).
  destruct (ensure_table_schema_grows cl0 cols colnames Ht Ho) as [cols' [Hg [H1 H2]]].
  set (cle := Loader.ensure_table_schema cl0 colnames) in *.
  destruct (insert_batches_trace colnames (length rows) 0 rows cle cols' (proj1 Hg))
    as [evs [E1 [E2 [E3 E4]]]].
  set (cl1 := Loader.insert_batches (length rows) 0 rows colnames cle) in *.
  split.
  - intros names n sch ok Hin. rewrite E1 in Hin. apply in_app_or in Hin as [Hin|Hin].
    + exfalso.
      assert (K : In (Loader.Insert names n sch ok)
                    (filter Loader.is_insert (Loader.trace cle))).
      { apply filter_In. split; [exact Hin|reflexivity]. }
      subst cle. rewrite ensure_table_schema_no_insert in K. exact K.
    + rewrite Forall_forall in E2. destruct (E2 _ Hin) as [n' [ok' E]].
      injection E as -> _ -> _. split; [reflexivity|].
      intros c Hc. split; [now apply H1|]. intros <-. now apply H1.
  - assert (Hd1 : Loader.describe_fails (Loader.reset_trace cl1) = false).
    { cbn [Loader.reset_trace Loader.describe_fails]. rewrite E4.
      destruct Hg as [_ [_ [K _]]]. rewrite K. exact Hd. }
    rewrite (ensure_table_schema_noop (Loader.reset_trace cl1) cols' colnames E3 Hd1 H1 H2).
    destruct (insert_batches_trace colnames (length rows) 0 rows
                (Loader.record (Loader.reset_trace cl1) (Loader.Describe true) (Some cols'))
                cols' eq_refl) as [evs' [F1 [F2 _]]].
    rewrite F1, add_column_calls_app, (add_column_calls_inserts _ _ _ F2).
    reflexivity.
Qed.

Lemma schema_evolved_before_insert_witness :
  let cl := Loader.create_table
              (Loader.mkClient None false (fun _ => false) (fun _ => false) []) in
  let df := [Loader.mkSeries "canonical_key" Loader.ObjectDtype [Loader.PVal "k1"];
             Loader.mkSeries "age" Loader.ObjectDtype [Loader.PVal "7"]] in
  let cl1 := Loader.load_file (fun c => c) "t1" (Loader.reset_trace cl) df in
  (forall names n sch ok,
      In (Loader.Insert names n sch ok) (Loader.trace cl1) ->
      names = Loader.columns (Loader.cast_dataframe (fun c => c) "t1" df)
      /\ forall c, In c names ->
           In (Loader.safe_col c) sch /\ (Loader.safe_col c = c -> In c sch))
  /\ Loader.add_column_calls
       (Loader.trace (Loader.load_file (fun c => c) "t1" (Loader.reset_trace cl1) df)) = [].
Proof.
  cbv zeta.
  apply (schema_evolved_before_insert (fun c => c) "t1"
           (Loader.create_table
              (Loader.mkClient None false (fun _ => false) (fun _ => false) []))
           [Loader.mkSeries "canonical_key" Loader.ObjectDtype [Loader.PVal "k1"];
            Loader.mkSeries "age" Loader.ObjectDtype [Loader.PVal "7"]]
           Loader.core_columns).
  - reflexivity.
  - split; reflexivity.
Defined.

(** C9, counterexample. The store refuses the [ALTER TABLE] that would add
    the new column [age]; [ensure_table_schema] reports it and returns, and
    the insert of the batch is attempted on a table without that column. *)
Lemma insert_attempted_without_new_column :
  let cl := Loader.mkClient (Some Loader.core_columns) false (String.eqb "age")
              (fun _ => false) [] in
  let df := [Loader.mkSeries "canonical_key" Loader.ObjectDtype [Loader.PVal "k1"];
             Loader.mkSeries "age" Loader.ObjectDtype [Loader.PVal "7"]] in
  Loader.trace (Loader.load_file (fun c => c) "t1" cl df)
  = [Loader.Describe true;
     Loader.AddColumn "age" "String" false;
     Loader.Insert ["canonical_key"; "age"; "ingest_timestamp"]
       [[Loader.PVal "k1"; Loader.PVal "7"; Loader.PVal "t1"]] Loader.core_columns false]
  /\ PyStr.str_in "age" Loader.core_columns = false.
Proof. vm_compute. split; reflexivity. Qed.

(** A column whose name has a hyphen: the table gets the sanitized name, the
    insert names the column as the file has it, and loading again adds
    nothing. *)
Example insert_names_unsanitized_column :
  let cl := Loader.create_table
              (Loader.mkClient None false (fun _ => false) (fun _ => false) []) in
  let df := [Loader.mkSeries "canonical_key" Loader.ObjectDtype [Loader.PVal "k1"];
             Loader.mkSeries "e-mail" Loader.ObjectDtype [Loader.PVal "a@x"]] in
  Loader.trace (Loader.load_file (fun c => c) "t1" cl df)
  = [Loader.Describe true;
     Loader.AddColumn "e_mail" "String" true;
     Loader.Insert ["canonical_key"; "e-mail"; "ingest_timestamp"]
       [[Loader.PVal "k1"; Loader.PVal "a@x"; Loader.PVal "t1"]]
       (Loader.core_columns ++ ["e_mail"]) false].
Proof. vm_compute. reflexivity. Qed.

(** * Further properties of the loader *)

Section LoaderMore.
Import Loader.

Lemma table_cols_record cl e t :
  table_cols (record cl e t) = match t with Some cols => cols | None => [] end.
Proof. reflexivity. Qed.

(** What one [ALTER TABLE ... ADD COLUMN] does to the table, refused or not. *)
Lemma add_column_additive cl c ty :
  let cl' := fst (command_add_column cl c ty) in
  (table cl = None <-> table cl' = None)
  /\ incl (table_cols cl) (table_cols cl')
  /\ (forall x, In x (table_cols cl') -> In x (table_cols cl) \/ x = c)
  /\ describe_fails cl' = describe_fails cl
  /\ alter_fails cl' = alter_fails cl
  /\ insert_fails cl' = insert_fails cl.
Proof.
  cbv zeta. unfold command_add_column, table_cols.
  destruct (table cl) as [cols|] eqn:Ht; [destruct (alter_fails cl c)|]; cbn [fst record table].
  - repeat split; auto using incl_refl; discriminate.
  - repeat split; try discriminate.
    + destruct (PyStr.str_in c cols); [apply incl_refl|apply incl_appl, incl_refl].
    + intros x Hx. destruct (PyStr.str_in c cols); [now left|].
      apply in_app_or in Hx as [Hx|[Hx|[]]]; [now left|now right].
  - repeat split; auto using incl_refl.
Qed.

Lemma fold_add_missing_additive existing cs : forall cl,
  let cl' := fold_left (add_missing existing) cs cl in
  (table cl = None <-> table cl' = None)
  /\ incl (table_cols cl) (table_cols cl')
  /\ (forall x, In x (table_cols cl') ->
        In x (table_cols cl) \/ In x (map safe_col cs))
  /\ describe_fails cl' = describe_fails cl
  /\ alter_fails cl' = alter_fails cl
  /\ insert_fails cl' = insert_fails cl.
Proof.
  induction cs as [|col cs IH]; intros cl; cbv zeta.
  - cbn [fold_left map]. repeat split; auto using incl_refl.
  - cbn [fold_left map].
    assert (H1 :
      (table cl = None <-> table (add_missing existing cl col) = None)
      /\ incl (table_cols cl) (table_cols (add_missing existing cl col))
      /\ (forall x, In x (table_cols (add_missing existing cl col)) ->
            In x (table_cols cl) \/ x = safe_col col)
      /\ describe_fails (add_missing existing cl col) = describe_fails cl
      /\ alter_fails (add_missing existing cl col) = alter_fails cl
      /\ insert_fails (add_missing existing cl col) = insert_fails cl).
    { unfold add_missing. destruct (negb _ && negb _).
      - apply add_column_additive.
      - repeat split; auto using incl_refl. }
    destruct H1 as [A1 [A2 [A3 [A4 [A5 A6]]]]].
    destruct (IH (add_missing existing cl col)) as [B1 [B2 [B3 [B4 [B5 B6]]]]].
    split; [now rewrite A1|]. split; [eapply incl_tran; eauto|].
    split; [|repeat split; congruence].
    intros x Hx. apply B3 in Hx as [Hx|Hx]; [|right; now right].
    apply A3 in Hx as [Hx|Hx]; [now left|right; left; now symmetry].
Qed.

Lemma ensure_table_schema_effect (cl : Client) (cs : list string) :
  let cl' := ensure_table_schema cl cs in
  (table cl = None <-> table cl' = None)
  /\ incl (table_cols cl) (table_cols cl')
  /\ (forall x, In x (table_cols cl') ->
        In x (table_cols cl) \/ x = "ingest_timestamp" \/ In x (map safe_col cs))
  /\ describe_fails cl' = describe_fails cl
  /\ alter_fails cl' = alter_fails cl
  /\ insert_fails cl' = insert_fails cl.
Proof.
  cbv zeta. unfold ensure_table_schema, query_describe.
  destruct (table cl) as [cols|] eqn:Ht.
  2:{ unfold table_cols. cbn [record table]. rewrite ?Ht.
      repeat split; auto using incl_refl. }
  destruct (describe_fails cl) eqn:Hd.
  { unfold table_cols. cbn [record table]. rewrite ?Ht.
    repeat split; auto using incl_refl; try discriminate. }
  set (cl0 := record cl (Describe true) (Some cols)).
  destruct (fold_add_missing_additive cols cs cl0) as [B1 [B2 [B3 [B4 [B5 B6]]]]].
  set (cl1 := fold_left (add_missing cols) cs cl0) in *.
  assert (T0 : table_cols cl = cols) by (unfold table_cols; now rewrite Ht).
  assert (T0' : table_cols cl0 = cols) by reflexivity.
  assert (D0 : describe_fails cl0 = describe_fails cl) by reflexivity.
  assert (A0 : alter_fails cl0 = alter_fails cl) by reflexivity.
  assert (I0 : insert_fails cl0 = insert_fails cl) by reflexivity.
  rewrite T0. rewrite T0' in *.
  destruct (negb (PyStr.str_in "ingest_timestamp" cols)).
  - destruct (add_column_additive cl1 "ingest_timestamp" "DateTime")
      as [C1 [C2 [C3 [C4 [C5 C6]]]]].
    split; [split; [discriminate|]|].
    { intros H. apply C1 in H. apply B1 in H. discriminate. }
    split; [eapply incl_tran; eauto|]. split; [|repeat split; congruence].
    intros x Hx. apply C3 in Hx as [Hx|Hx]; [|now right; left].
    apply B3 in Hx as [Hx|Hx]; [now left|now right; right].
  - split; [split; [discriminate|]|].
    { intros H. apply B1 in H. discriminate. }
    split; [exact B2|]. split; [|repeat split; congruence].
    intros x Hx. apply B3 in Hx as [Hx|Hx]; [now left|now right; right].
Qed.

(** Schema evolution is additive only, whatever the store refuses:
    [ensure_table_schema] never creates or drops the table, never removes a
    column, and adds nothing but sanitized names of the columns asked for
    and [ingest_timestamp]. *)
Theorem ensure_table_schema_additive (cl : Client) (cs : list string) :
  let cl' := ensure_table_schema cl cs in
  (table cl = None <-> table cl' = None)
  /\ incl (table_cols cl) (table_cols cl')
  /\ (forall x, In x (table_cols cl') ->
        In x (table_cols cl) \/ x = "ingest_timestamp" \/ In x (map safe_col cs))
  /\ describe_fails cl' = describe_fails cl
  /\ alter_fails cl' = alter_fails cl
  /\ insert_fails cl' = insert_fails cl.
Proof. apply ensure_table_schema_effect. Qed.

Lemma add_column_trace cl c ty :
  exists ok, trace (fst (command_add_column cl c ty)) = trace cl ++ [AddColumn c ty ok].
Proof.
  unfold command_add_column.
  destruct (table cl); [destruct (alter_fails cl c)|]; cbn [fst]; now eexists.
Qed.

Lemma fold_add_missing_trace existing cs : forall cl,
  exists evs,
    trace (fold_left (add_missing existing) cs cl) = trace cl ++ evs
    /\ Forall (loop_call existing cs) evs.
Proof.
  induction cs as [|col cs IH]; intros cl.
  - exists []. cbn [fold_left]. now rewrite app_nil_r.
  - cbn [fold_left]. destruct (IH (add_missing existing cl col)) as [evs [H1 H2]].
    assert (H2' : Forall (loop_call existing (col :: cs)) evs).
    { eapply Forall_impl; [|exact H2]. intros e [c [ok [E [A [B C]]]]].
      exists c, ok. repeat split; auto. now right. }
    unfold add_missing in *.
    destruct (PyStr.str_in (safe_col col) existing) eqn:E1; cbn [negb andb] in *.
    + exists evs. now split.
    + destruct (String.eqb (safe_col col) "ingest_timestamp") eqn:E2; cbn [negb] in *.
      * exists evs. now split.
      * destruct (add_column_trace cl (safe_col col) "String") as [ok Hok].
        exists (AddColumn (safe_col col) "String" ok :: evs). split.
        -- rewrite H1, Hok, <- app_assoc. reflexivity.
        -- constructor; [|exact H2']. exists (safe_col col), ok. repeat split.
           ++ intros Hin. apply str_in_In in Hin. congruence.
           ++ intros Heq. apply String.eqb_neq in E2. contradiction.
           ++ now left.
Qed.

(** What [ensure_table_schema] asks of the store: one [DESCRIBE]; when it is
    refused (or there is no table) nothing more; otherwise [ADD COLUMN]
    calls only, each for a column the described table does not have, with type
    [String] for the sanitized name of a requested column and [DateTime] for
    [ingest_timestamp] alone. *)
Theorem ensure_table_schema_calls (cl : Client) (cs : list string) :
  exists ok calls,
    trace (ensure_table_schema (reset_trace cl) cs) = Describe ok :: calls
    /\ (ok = false -> calls = [])
    /\ (ok = true <-> table cl <> None /\ describe_fails cl = false)
    /\ Forall (fun e =>
         exists c ty done, e = AddColumn c ty done
           /\ ~ In c (table_cols cl)
           /\ (c = "ingest_timestamp" /\ ty = "DateTime"
               \/ c <> "ingest_timestamp" /\ ty = "String" /\ In c (map safe_col cs)))
         calls.
Proof.
  unfold ensure_table_schema, query_describe, table_cols.
  cbn [reset_trace table describe_fails].
  destruct (table cl) as [cols|] eqn:Ht.
  2:{ exists false, []. cbn [record trace app]. repeat split; auto; try discriminate.
      intros [H _]. congruence. }
  destruct (describe_fails cl) eqn:Hd.
  { exists false, []. cbn [record trace app]. repeat split; auto; try discriminate.
    intros [_ H]. discriminate. }
  set (cl0 := record _ (Describe true) (Some cols)).
  destruct (fold_add_missing_trace cols cs cl0) as [evs [H1 H2]].
  assert (H2' : Forall (fun e =>
         exists c ty done, e = AddColumn c ty done
           /\ ~ In c cols
           /\ (c = "ingest_timestamp" /\ ty = "DateTime"
               \/ c <> "ingest_timestamp" /\ ty = "String" /\ In c (map safe_col cs)))
         evs).
  { eapply Forall_impl; [|exact H2]. intros e [c [ok [E [A [B C]]]]].
    exists c, "String", ok. repeat split; auto. }
  destruct (PyStr.str_in "ingest_timestamp" cols) eqn:Ets; cbn [negb].
  - exists true, evs. rewrite H1. cbn [cl0 record trace reset_trace app].
    repeat split; auto; discriminate.
  - destruct (add_column_trace (fold_left (add_missing cols) cs cl0)
                "ingest_timestamp" "DateTime") as [ok Hok].
    exists true, (evs ++ [AddColumn "ingest_timestamp" "DateTime" ok]).
    rewrite Hok, H1. cbn [cl0 record trace reset_trace app].
    repeat split; auto; try discriminate.
    apply Forall_app. split; [exact H2'|]. constructor; [|constructor].
    exists "ingest_timestamp", "DateTime", ok. repeat split; auto.
    intros Hin. apply str_in_In in Hin. congruence.
Qed.

Section Batches.

Variable size : nat.
Hypothesis size_pos : 0 < size.

Lemma batch_sizes_shape fuel : forall n,
  n <= fuel ->
  list_sum (batch_sizes size fuel n) = n
  /\ exists full last,
       batch_sizes size fuel n = repeat size full ++ last
       /\ (last = [] \/ exists k, last = [k] /\ 0 < k < size).
Proof.
  induction fuel as [|fuel IH]; intros n Hn.
  - assert (n = 0) by lia. subst n. split; [reflexivity|]. exists 0, []. now split; [|left].
  - cbn [batch_sizes]. destruct (Nat.eqb_spec n 0) as [->|Hpos].
    + split; [reflexivity|]. exists 0, []. now split; [|left].
    + destruct (IH (n - size)) as [Hs [full [last [Hb Hl]]]]; [lia|].
      split.
      { change (list_sum (Nat.min size n :: batch_sizes size fuel (n - size)))
          with (Nat.min size n + list_sum (batch_sizes size fuel (n - size))).
        rewrite Hs. lia. }
      destruct (Nat.le_gt_cases size n) as [Hge|Hlt].
      * exists (S full), last. split; [|exact Hl].
        cbn [repeat app]. rewrite Hb. f_equal. lia.
      * assert (E : n - size = 0) by lia. rewrite E in *.
        assert (Hnil : batch_sizes size fuel 0 = []) by (destruct fuel; reflexivity).
        rewrite Hnil. exists 0, [n]. split; [cbn [repeat app]; f_equal; lia|].
        right. exists n. split; [reflexivity|lia].
Qed.

End Batches.

Lemma BATCH_SIZE_pos : 0 < BATCH_SIZE.
Proof. apply Nat.ltb_lt. vm_compute. reflexivity. Qed.

Lemma insert_trace cl i batch colnames :
  exists ok,
    trace (fst (insert cl i batch colnames))
    = trace cl ++ [Insert colnames batch (table_cols cl) ok]
    /\ table (fst (insert cl i batch colnames)) = table cl.
Proof. unfold insert. cbn [fst record trace table]. now eexists. Qed.

Lemma batches_app a b : batches (a ++ b) = batches a ++ batches b.
Proof.
  induction a as [|e a IH]; [reflexivity|].
  destruct e; cbn [app batches]; now rewrite IH.
Qed.

Lemma offered_app a b : offered (a ++ b) = offered a ++ offered b.
Proof. unfold offered. now rewrite batches_app, concat_app. Qed.

Lemma insert_batches_events colnames fuel : forall i rest cl,
  length rest <= fuel ->
  exists evs,
    trace (insert_batches fuel i rest colnames cl) = trace cl ++ evs
    /\ Forall (insert_of colnames (table_cols cl)) evs
    /\ offered evs = rest
    /\ map (@length (list pcell)) (batches evs) = batch_sizes BATCH_SIZE fuel (length rest)
    /\ table (insert_batches fuel i rest colnames cl) = table cl.
Proof.
  induction fuel as [|fuel IH]; intros i rest cl Hf.
  - destruct rest; [|cbn [length] in Hf; lia].
    exists []. cbn [insert_batches batch_sizes]. rewrite app_nil_r. now repeat split.
  - destruct rest as [|r rest'].
    + exists []. cbn [insert_batches batch_sizes length Nat.eqb]. rewrite app_nil_r.
      now repeat split.
    + cbn [insert_batches]. set (rest := r :: rest') in *.
      destruct (insert_trace cl i (firstn BATCH_SIZE rest) colnames) as [ok [T1 T2]].
      set (cl1 := fst (insert cl i (firstn BATCH_SIZE rest) colnames)) in *.
      assert (Hs : length (skipn BATCH_SIZE rest) <= fuel).
      { rewrite length_skipn. pose proof BATCH_SIZE_pos. subst rest.
        cbn [length] in *. lia. }
      destruct (IH (i + BATCH_SIZE) (skipn BATCH_SIZE rest) cl1 Hs)
        as [evs [H1 [H2 [H3 [H4 H5]]]]].
      exists (Insert colnames (firstn BATCH_SIZE rest) (table_cols cl) ok :: evs).
      assert (Tc : table_cols cl1 = table_cols cl) by (unfold table_cols; now rewrite T2).
      split; [rewrite H1, T1, <- app_assoc; reflexivity|].
      split; [constructor; [now eexists; eexists|now rewrite <- Tc]|].
      split; [|split; [|congruence]].
      * unfold offered in *. cbn [batches concat]. rewrite H3. apply firstn_skipn.
      * cbn [batches map batch_sizes]. rewrite H4, length_firstn, length_skipn.
        subst rest. cbn [length Nat.eqb]. reflexivity.
Qed.

(** The batch loop offers the store the rows of the file, each exactly once
    and in their order - the batches put end to end are the rows - in batches
    of [BATCH_SIZE] rows and a shorter last one, however many inserts the
    store refuses; the inserts name the file's columns and leave the table
    alone. *)
Theorem insert_batches_attempts_every_row (rows : list (list pcell))
    (colnames : list string) (cl : Client) :
  let cl' := insert_batches (length rows) 0 rows colnames (reset_trace cl) in
  Forall (insert_of colnames (table_cols cl)) (trace cl')
  /\ offered (trace cl') = rows
  /\ (exists full last,
        map (@length (list pcell)) (batches (trace cl')) = repeat BATCH_SIZE full ++ last
        /\ (last = [] \/ exists k, last = [k] /\ 0 < k < BATCH_SIZE))
  /\ table cl' = table cl.
Proof.
  cbv zeta.
  destruct (insert_batches_events colnames (length rows) 0 rows (reset_trace cl) (le_n _))
    as [evs [H1 [H2 [H3 [H4 H5]]]]].
  cbn [reset_trace trace app] in H1. rewrite H1, H3, H4.
  destruct (batch_sizes_shape BATCH_SIZE BATCH_SIZE_pos (length rows) (length rows)
              (le_n _)) as [Hs Hshape].
  repeat split; auto.
Qed.

(** ** [cast_dataframe] *)

Section CastFacts.

Variable to_datetime : pcell -> pcell.
Variable timestamp_now : string.

Local Abbreviation cast := (cast_dataframe to_datetime timestamp_now).
Local Abbreviation stamp :=
  (fun s => if String.eqb (name s) "ingest_timestamp"
            then mkSeries (name s) DatetimeDtype (map to_datetime (values s))
            else s).

Lemma cast_column_name s : name (cast_column s) = name s.
Proof.
  unfold cast_column. destruct (String.eqb (name s) "ingest_timestamp"); [reflexivity|].
  now destruct (dty s).
Qed.

Lemma cast_column_length s : length (values (cast_column s)) = length (values s).
Proof.
  unfold cast_column. destruct (String.eqb (name s) "ingest_timestamp"); [reflexivity|].
  destruct (dty s); cbn [values]; apply length_map.
Qed.

Lemma stamp_name s : name (stamp s) = name s.
Proof. cbv beta. now destruct (String.eqb (name s) "ingest_timestamp"). Qed.

Lemma stamp_length s : length (values (stamp s)) = length (values s).
Proof.
  cbv beta.
  destruct (String.eqb (name s) "ingest_timestamp"); [cbn [values]; apply length_map|reflexivity].
Qed.

Lemma nrows_map (f : Series -> Series) df :
  (forall s, length (values (f s)) = length (values s)) -> nrows (map f df) = nrows df.
Proof. intros H. destruct df as [|s df]; [reflexivity|]. cbn [map nrows]. apply H. Qed.

Lemma cast_dataframe_nrows df : nrows (cast df) = nrows df.
Proof.
  unfold cast_dataframe. rewrite (nrows_map _ _ cast_column_length).
  destruct (PyStr.str_in "ingest_timestamp" (columns df)).
  - apply nrows_map. exact stamp_length.
  - destruct df as [|s df]; [reflexivity|reflexivity].
Qed.

Lemma cast_dataframe_columns df :
  columns (cast df)
  = if PyStr.str_in "ingest_timestamp" (columns df) then columns df
    else columns df ++ ["ingest_timestamp"].
Proof.
  unfold cast_dataframe, columns. rewrite map_map.
  destruct (PyStr.str_in "ingest_timestamp" (map name df)).
  - rewrite map_map. apply map_ext. intros s. now rewrite cast_column_name, stamp_name.
  - rewrite map_app. cbn [map]. rewrite cast_column_name. cbn [name]. f_equal.
    apply map_ext, cast_column_name.
Qed.

Lemma cast_column_object s :
  name s <> "ingest_timestamp" ->
  dty (cast_column s) = ObjectDtype /\ forallb is_value (values (cast_column s)) = true.
Proof.
  intros Hn. unfold cast_column. apply String.eqb_neq in Hn. rewrite Hn.
  destruct (dty s); cbn [dty values]; (split; [reflexivity|]);
    apply forallb_forall; intros x Hx; apply in_map_iff in Hx as [c [<- _]]; now destruct c.
Qed.

(** The frame [cast_dataframe] returns: the columns of the input, in order,
    followed by [ingest_timestamp] when the input lacks it; as many rows; and
    every column but [ingest_timestamp] of dtype object without a missing
    cell. *)
Theorem cast_dataframe_shape (df : PandasFrame) :
  columns (cast df)
  = (if PyStr.str_in "ingest_timestamp" (columns df) then columns df
     else columns df ++ ["ingest_timestamp"])
  /\ In "ingest_timestamp" (columns (cast df))
  /\ nrows (cast df) = nrows df
  /\ Forall (fun s => name s = "ingest_timestamp"
                      \/ dty s = ObjectDtype /\ forallb is_value (values s) = true)
       (cast df).
Proof.
  split; [apply cast_dataframe_columns|]. split; [|split; [apply cast_dataframe_nrows|]].
  - rewrite cast_dataframe_columns.
    destruct (PyStr.str_in "ingest_timestamp" (columns df)) eqn:E.
    + now apply str_in_In.
    + apply in_or_app. right. now left.
  - unfold cast_dataframe. apply Forall_forall. intros s Hs.
    apply in_map_iff in Hs as [s0 [<- _]].
    destruct (string_dec (name s0) "ingest_timestamp") as [E|E].
    + left. now rewrite cast_column_name.
    + right. now apply cast_column_object.
Qed.

Lemma find_map_same (p : Series -> bool) (f : Series -> Series) l :
  (forall s, p (f s) = p s) -> find p (map f l) = option_map f (find p l).
Proof.
  intros H. induction l as [|s l IH]; [reflexivity|].
  cbn [map find]. rewrite H. destruct (p s); [reflexivity|exact IH].
Qed.

Lemma find_app_none (p : Series -> bool) l s :
  p s = false -> find p (l ++ [s]) = find p l.
Proof.
  intros H. induction l as [|x l IH]; cbn [app find]; [now rewrite H|].
  destruct (p x); [reflexivity|exact IH].
Qed.

(** What [cast_dataframe] does to the cells of a column other than
    [ingest_timestamp]: a value stays as it is; a missing cell comes out as
    the text [None] or [nan] in an object column, as [NaT] in a datetime
    column, and only in a numeric column as the empty string.  A column the
    input lacks stays absent. *)
Theorem cast_dataframe_cells (df : PandasFrame) (c : string) :
  c <> "ingest_timestamp" ->
  column_values (cast df) c
  = option_map
      (fun s => map (fun x => match x, dty s with
                              | PVal v, _ => PVal v
                              | PNone, ObjectDtype => PVal "None"
                              | PNaN, ObjectDtype => PVal "nan"
                              | _, NumericDtype => PVal ""
                              | _, DatetimeDtype => PVal "NaT"
                              end) (values s))
      (series_of df c).
Proof.
  intros Hc. unfold column_values, series_of, cast_dataframe.
  set (p := fun s : Series => String.eqb (name s) c).
  rewrite find_map_same by (intros s; unfold p; now rewrite cast_column_name).
  assert (E : find p (if PyStr.str_in "ingest_timestamp" (columns df)
                      then map stamp df
                      else df ++ [mkSeries "ingest_timestamp" DatetimeDtype
                                    (repeat (PVal timestamp_now) (nrows df))])
              = find p df).
  { destruct (PyStr.str_in "ingest_timestamp" (columns df)).
    - rewrite find_map_same by (intros s; unfold p; now rewrite stamp_name).
      destruct (find p df) as [s|] eqn:F; [|reflexivity].
      apply find_some in F as [_ F]. unfold p in F. apply String.eqb_eq in F.
      cbn [option_map]. f_equal.
      assert (N : String.eqb (name s) "ingest_timestamp" = false)
        by (apply String.eqb_neq; congruence).
      now rewrite N.
    - apply find_app_none. unfold p. cbn [name]. apply String.eqb_neq. congruence. }
  rewrite E. destruct (find p df) as [s|] eqn:F; [|reflexivity].
  apply find_some in F as [_ F]. unfold p in F. apply String.eqb_eq in F.
  cbn [option_map]. f_equal. unfold cast_column.
  assert (N : String.eqb (name s) "ingest_timestamp" = false)
    by (apply String.eqb_neq; congruence).
  rewrite N. destruct (dty s); cbn [values]; apply map_ext; now intros [| |v].
Qed.

(** ** Loading the files *)

Lemma batches_filter t : batches (filter is_insert t) = batches t.
Proof.
  induction t as [|e t IH]; [reflexivity|].
  destruct e; cbn [filter is_insert batches]; now rewrite ?IH.
Qed.

Lemma load_file_effect cl df :
  let cl' := load_file to_datetime timestamp_now cl df in
  offered (trace cl') = offered (trace cl) ++ values_tolist (cast df)
  /\ (table cl = None <-> table cl' = None)
  /\ incl (table_cols cl) (table_cols cl')
  /\ (forall x, In x (table_cols cl') ->
        In x (table_cols cl) \/ x = "ingest_timestamp"
        \/ In x (map safe_col (columns df))).
Proof.
  cbv zeta. unfold load_file.
  set (colnames := columns (cast df)). set (rows := values_tolist (cast df)).
  destruct (ensure_table_schema_effect cl colnames) as [A1 [A2 [A3 _]]].
  set (cle := ensure_table_schema cl colnames) in *.
  destruct (insert_batches_events colnames (length rows) 0 rows cle (le_n _))
    as [evs [H1 [_ [H3 [_ H4]]]]].
  assert (Tc : table_cols (insert_batches (length rows) 0 rows colnames cle) = table_cols cle)
    by (unfold table_cols; now rewrite H4).
  rewrite H1, offered_app, H3, H4, Tc.
  split; [|split; [exact A1|split; [exact A2|]]].
  - f_equal. subst cle. unfold offered.
    rewrite <- batches_filter, ensure_table_schema_no_insert. now rewrite batches_filter.
  - intros x Hx. apply A3 in Hx as [Hx|[Hx|Hx]]; [now left|now right; left|].
    subst colnames. rewrite cast_dataframe_columns in Hx.
    destruct (PyStr.str_in "ingest_timestamp" (columns df)); [now right; right|].
    rewrite map_app in Hx. apply in_app_or in Hx as [Hx|[Hx|[]]]; [now right; right|].
    right; left. rewrite <- Hx. vm_compute. reflexivity.
Qed.

Lemma fold_load_file_effect files : forall cl,
  let cl' := fold_left (load_file to_datetime timestamp_now) files cl in
  offered (trace cl')
  = offered (trace cl) ++ concat (map (fun df => values_tolist (cast df)) files)
  /\ (table cl = None <-> table cl' = None)
  /\ incl (table_cols cl) (table_cols cl')
  /\ (forall x, In x (table_cols cl') ->
        In x (table_cols cl) \/ x = "ingest_timestamp"
        \/ exists df, In df files /\ In x (map safe_col (columns df))).
Proof.
  induction files as [|df files IH]; intros cl; cbv zeta.
  - cbn [fold_left map concat]. rewrite app_nil_r.
    split; [reflexivity|]. repeat split; auto using incl_refl.
  - cbn [fold_left map concat].
    destruct (load_file_effect cl df) as [A0 [A1 [A2 A3]]].
    destruct (IH (load_file to_datetime timestamp_now cl df)) as [B0 [B1 [B2 B3]]].
    split; [|split; [now rewrite A1|split; [eapply incl_tran; eauto|]]].
    + rewrite B0, A0. now rewrite <- app_assoc.
    + intros x Hx. apply B3 in Hx as [Hx|[Hx|[d [Hd Hx]]]].
      * apply A3 in Hx as [Hx|[Hx|Hx]]; [now left|now right; left|].
        right; right. exists df. split; [now left|exact Hx].
      * now right; left.
      * right; right. exists d. split; [now right|exact Hx].
Qed.

(** A run of [main] over the files.  When the store refuses the
    [CREATE TABLE], [main] raises and loads nothing.  Otherwise, whatever
    [DESCRIBE], [ALTER TABLE] or insert the store refuses afterwards: the
    rows offered to the store are the rows of the cast files, file after
    file, each row exactly once and in order; the table exists with every
    column it had (the core columns when it had to be created); and a column
    the table gains is [ingest_timestamp] or the sanitized name of a column
    of one of the files. *)
Theorem main_offers_every_row (create_refused : bool) (cl : Client)
    (files : list PandasFrame) :
  match main to_datetime timestamp_now create_refused (reset_trace cl) files with
  | inl _ => create_refused = true
  | inr cl' =>
      create_refused = false
      /\ offered (trace cl') = concat (map (fun df => values_tolist (cast df)) files)
      /\ table cl' <> None
      /\ incl (match table cl with Some cols => cols | None => core_columns end)
              (table_cols cl')
      /\ (forall x, In x (table_cols cl') ->
            In x (match table cl with Some cols => cols | None => core_columns end)
            \/ x = "ingest_timestamp"
            \/ exists df, In df files /\ In x (map safe_col (columns df)))
  end.
Proof.
  unfold main, command_create_table. destruct create_refused; [reflexivity|].
  cbn [bind ret Monad_either].
  destruct (fold_load_file_effect files (create_table (reset_trace cl)))
    as [B0 [B1 [B2 B3]]].
  set (cl' := fold_left _ _ _) in *.
  assert (T : table_cols (create_table (reset_trace cl))
              = match table cl with Some cols => cols | None => core_columns end).
  { destruct cl as [[t|] d a i tr]; reflexivity. }
  assert (Tr : trace (create_table (reset_trace cl)) = []).
  { destruct cl as [[t|] d a i tr]; reflexivity. }
  assert (Tn : table (create_table (reset_trace cl)) <> None).
  { destruct cl as [[t|] d a i tr]; discriminate. }
  rewrite T in *. rewrite Tr in B0.
  split; [reflexivity|]. split; [exact B0|].
  split; [intros H; apply Tn; now apply B1|]. split; [exact B2|].
  exact B3.
Qed.

End CastFacts.

End LoaderMore.

(** * Further properties of the Spark pipeline *)

Section PipelineMore.
Import Spark IngestedData.

Variable digest : nat -> string -> string.
Variable now : string.

Lemma get_map_total (g : string -> cell) cols c :
  (has_column c cols = false -> g c = None) -> get cols (map g cols) c = g c.
Proof.
  intros H. destruct (has_column c cols) eqn:E; [now apply get_map|].
  rewrite get_absent by exact E. symmetry. now apply H.
Qed.

Lemma withColumn_has df name e :
  has_column name (columns (withColumn digest now df name e)) = true.
Proof.
  cbn [withColumn columns]. destruct (has_column name (columns df)) eqn:E; [exact E|].
  rewrite has_column_app, has_column_self. apply orb_true_r.
Qed.

Lemma withColumn_keeps df name e c :
  has_column c (columns df) = true ->
  has_column c (columns (withColumn digest now df name e)) = true.
Proof.
  intros H. cbn [withColumn columns]. destruct (has_column name (columns df)); [exact H|].
  rewrite has_column_app, H. reflexivity.
Qed.

Lemma withColumn_cell df name e row c :
  get (columns (withColumn digest now df name e))
      (map (fun c => if String.eqb c name then eval digest now (columns df) row e
                     else get (columns df) row c)
           (columns (withColumn digest now df name e))) c
  = if String.eqb c name then eval digest now (columns df) row e
    else get (columns df) row c.
Proof.
  apply get_map_total with
    (g := fun c => if String.eqb c name then eval digest now (columns df) row e
                   else get (columns df) row c).
  intros H. destruct (String.eqb_spec c name) as [->|N].
  - now rewrite withColumn_has in H.
  - apply get_absent. destruct (has_column c (columns df)) eqn:E; [|reflexivity].
    now rewrite (withColumn_keeps df name e c E) in H.
Qed.

Lemma withColumn_columns df name e :
  columns (withColumn digest now df name e)
  = if has_column name (columns df) then columns df else columns df ++ [name].
Proof. reflexivity. Qed.

Lemma withColumn_count df name e : count (withColumn digest now df name e) = count df.
Proof. unfold count. cbn [withColumn rows]. apply length_map. Qed.

Lemma withColumn_select df name e c :
  select (withColumn digest now df name e) c
  = map (fun row => if String.eqb c name then eval digest now (columns df) row e
                    else get (columns df) row c) (rows df).
Proof.
  unfold select. cbn [withColumn rows]. rewrite map_map. apply map_ext. intros row.
  apply withColumn_cell.
Qed.

Local Abbreviation key_expr df :=
  (if length (key_cols df) =? 0 then sha2 (lit "no_key") 256
   else sha2 (concat_ws "||" (key_cols df)) 256).

Lemma generate_canonical_key_withColumn df :
  generate_canonical_key digest now df
  = withColumn digest now df "canonical_key" (key_expr df).
Proof. unfold generate_canonical_key. now destruct (length (key_cols df) =? 0). Qed.

Lemma identity_not_key f : In f identity_fields -> String.eqb f "canonical_key" = false.
Proof. intros [<-|[<-|[<-|[<-|[]]]]]; reflexivity. Qed.

Lemma key_cols_withColumn df e :
  key_cols (withColumn digest now df "canonical_key" e) = key_cols df.
Proof.
  unfold key_cols. f_equal. apply filter_ext_in. intros f Hf.
  cbn [withColumn columns]. destruct (has_column "canonical_key" (columns df)); [reflexivity|].
  rewrite has_column_app. unfold has_column at 2. cbn [existsb].
  rewrite (identity_not_key f Hf). now rewrite !orb_false_r.
Qed.

Lemma key_expr_eval df e row :
  eval digest now (columns (withColumn digest now df "canonical_key" e))
    (map (fun c => if String.eqb c "canonical_key" then eval digest now (columns df) row e
                   else get (columns df) row c)
         (columns (withColumn digest now df "canonical_key" e)))
    (key_expr df)
  = eval digest now (columns df) row (key_expr df).
Proof.
  destruct (length (key_cols df) =? 0); [reflexivity|].
  set (cols' := columns (withColumn digest now df "canonical_key" e)).
  set (row' := map _ cols').
  assert (M : map (eval digest now cols' row') (key_cols df)
              = map (eval digest now (columns df) row) (key_cols df)).
  { unfold key_cols. rewrite !map_map.
    apply map_ext_in. intros f Hf. apply filter_In in Hf as [Hf _].
    cbn [eval]. subst row' cols'. rewrite withColumn_cell.
    now rewrite (identity_not_key f Hf). }
  cbn [eval]. now rewrite M.
Qed.

Lemma withColumn_again df name e e' :
  (forall row,
     eval digest now (columns (withColumn digest now df name e))
       (map (fun c => if String.eqb c name then eval digest now (columns df) row e
                      else get (columns df) row c)
            (columns (withColumn digest now df name e))) e'
     = eval digest now (columns df) row e) ->
  withColumn digest now (withColumn digest now df name e) name e'
  = withColumn digest now df name e.
Proof.
  intros H. pose proof (withColumn_has df name e) as Hn.
  pose proof (withColumn_cell df name e) as Hc.
  set (cols' := columns (withColumn digest now df name e)) in *.
  unfold withColumn at 1. fold cols'. rewrite Hn.
  change (withColumn digest now df name e)
    with (mkDataFrame cols'
            (map (fun row => map (fun c => if String.eqb c name
                                           then eval digest now (columns df) row e
                                           else get (columns df) row c) cols')
                 (rows df))).
  cbn [rows]. f_equal. rewrite map_map. apply map_ext. intros row.
  apply map_ext_in. intros c _. destruct (String.eqb c name) eqn:E.
  - apply H.
  - rewrite Hc. now rewrite E.
Qed.

(** On a frame whose column names Spark resolves without ambiguity,
    [generate_canonical_key] computes the key from the identity columns and
    nothing else: it puts the column [canonical_key] last unless the frame
    has it, keeps every row and every cell of the other columns, and
    applying it to its own result - where a [canonical_key] column is
    already there - changes nothing. *)
Theorem generate_canonical_key_stable (df : DataFrame) :
  well_named (columns df) = true ->
  let keyed := generate_canonical_key digest now df in
  generate_canonical_key digest now keyed = keyed
  /\ columns keyed
     = (if has_column "canonical_key" (columns df) then columns df
        else columns df ++ ["canonical_key"])
  /\ count keyed = count df
  /\ (forall c, c <> "canonical_key" -> select keyed c = select df c).
Proof.
  intros _.
  cbv zeta. rewrite !generate_canonical_key_withColumn, key_cols_withColumn.
  set (e := key_expr df). split; [|split; [reflexivity|split]].
  - apply withColumn_again. intros row. apply key_expr_eval.
  - unfold count. cbn [withColumn rows]. apply length_map.
  - intros c Hc. rewrite withColumn_select. unfold select. apply map_ext. intros row.
    apply String.eqb_neq in Hc. now rewrite Hc.
Qed.

(** ** Merging and deduplication *)

Lemma get_conform cols' cols row c :
  (has_column c cols = true -> has_column c cols' = true) ->
  get cols' (conform cols' cols row) c = get cols row c.
Proof.
  intros H. unfold conform. apply get_map_total. intros N.
  apply get_absent. destruct (has_column c cols); [|reflexivity].
  rewrite H in N by reflexivity. discriminate.
Qed.

Lemma unionByName_select a b c :
  select (unionByName a b) c = select a c ++ select b c.
Proof.
  unfold select. cbn [unionByName rows columns]. rewrite map_app, !map_map.
  f_equal; apply map_ext; intros row; apply get_conform; intros H;
    rewrite union_columns_spec, H; [reflexivity|apply orb_true_r].
Qed.

Lemma fold_union_select c dfs : forall df0,
  select (fold_left unionByName dfs df0) c
  = select df0 c ++ concat (map (fun df => select df c) dfs).
Proof.
  induction dfs as [|df dfs IH]; intros df0; cbn [fold_left map concat].
  - now rewrite app_nil_r.
  - now rewrite IH, unionByName_select, <- app_assoc.
Qed.

Lemma length_select df c : length (select df c) = count df.
Proof. apply length_map. Qed.

(** Frames that Spark matches by exact name - in each the column names are
    pairwise distinct, and no two names of any of them differ by letter case
    only.  The merged frame, column by column: its column [c] is the column
    [c] of the first frame, then that of the second, and so on, a frame
    without the column giving NULL for each of its rows; so no row is lost
    or reordered, and the merged frame has a column exactly when some frame
    has it. *)
Theorem merge_column_by_column (df0 : DataFrame) (dfs : list DataFrame) (c : string) :
  well_named_together (df0 :: dfs) = true ->
  exists merged,
    merge (df0 :: dfs) = Some merged
    /\ select merged c = concat (map (fun df => select df c) (df0 :: dfs))
    /\ count merged = list_sum (map count (df0 :: dfs))
    /\ has_column c (columns merged)
       = existsb (fun df => has_column c (columns df)) (df0 :: dfs).
Proof.
  intros _.
  exists (fold_left unionByName dfs df0). split; [reflexivity|]. split; [|split].
  - apply fold_union_select.
  - rewrite <- (length_select _ c), fold_union_select. cbn [map].
    change (list_sum (count df0 :: map count dfs)) with (count df0 + list_sum (map count dfs)).
    rewrite length_app, length_select. f_equal.
    induction dfs as [|df dfs IH]; [reflexivity|].
    cbn [map concat]. rewrite length_app, length_select, IH. reflexivity.
  - now apply merge_columns_union.
Qed.

Lemma keep_first_distinct (key : Row -> list cell) rs : forall seen,
  NoDup (map key rs) -> (forall r, In r rs -> ~ In (key r) seen) ->
  keep_first key seen rs = rs.
Proof.
  induction rs as [|r rs IH]; intros seen Hn Hs; [reflexivity|].
  cbn [keep_first]. destruct (in_dec key_eq_dec (key r) seen) as [Hin|_].
  - exfalso. apply (Hs r); [now left|exact Hin].
  - cbn [map] in Hn. inversion Hn as [|? ? Hk Hn']; subst. f_equal. apply IH; [exact Hn'|].
    intros r' Hr' [E|Hin].
    + apply Hk. rewrite E. now apply in_map.
    + apply (Hs r'); [now right|exact Hin].
Qed.

Lemma NoDup_map_singleton (ks : list cell) : NoDup ks -> NoDup (map (fun k => [k]) ks).
Proof.
  induction 1 as [|k ks Hk _ IH]; [constructor|]. cbn [map]. constructor; [|exact IH].
  intros Hin. apply in_map_iff in Hin as [x [E Hx]]. injection E as ->. contradiction.
Qed.

(** Deduplication drops nothing from a frame whose canonical keys are already
    pairwise distinct, so running it on its own result changes nothing. *)
Theorem deduplicate_idempotent (df : DataFrame) :
  (NoDup (canonical_keys df) -> deduplicate df = df)
  /\ deduplicate (deduplicate df) = deduplicate df.
Proof.
  assert (H : forall d, NoDup (canonical_keys d) -> deduplicate d = d).
  { intros [cols rs] Hn. unfold deduplicate, dropDuplicates. cbn [columns rows].
    destruct (has_column "canonical_key" cols); [|reflexivity].
    f_equal. apply keep_first_distinct; [|intros r _ []].
    unfold canonical_keys in Hn. cbn [columns rows] in Hn.
    apply NoDup_map_singleton in Hn. rewrite map_map in Hn. exact Hn. }
  split; [apply H|].
  destruct (has_column "canonical_key" (columns df)) eqn:E.
  - apply H. apply (dropDuplicates_keys df E).
  - unfold deduplicate. now rewrite !E.
Qed.

(** ** [normalize_columns] *)

Lemma rename_step_columns df old new :
  columns (rename_step df (old, new))
  = if has_column old (columns df) && negb (has_column new (columns df))
    then map (fun c => if String.eqb c old then new else c) (columns df)
    else columns df.
Proof. unfold rename_step. now destruct (_ && _). Qed.

Lemma rename_step_rows df on : rows (rename_step df on) = rows df.
Proof. destruct on as [old new]. unfold rename_step. now destruct (_ && _). Qed.

Lemma rename_step_names df old new :
  old <> new ->
  (NoDup (columns df) -> NoDup (columns (rename_step df (old, new))))
  /\ (In old (columns (rename_step df (old, new))) ->
      In new (columns (rename_step df (old, new))))
  /\ (forall x, In x (columns df) -> x <> old -> In x (columns (rename_step df (old, new))))
  /\ (forall x, In x (columns (rename_step df (old, new))) -> In x (columns df) \/ x = new).
Proof.
  intros Hon. rewrite rename_step_columns.
  destruct (has_column old (columns df)) eqn:Ho; cbn [andb];
    [destruct (has_column new (columns df)) eqn:Hn; cbn [negb]|].
  - repeat split; auto. intros _. now apply has_column_In.
  - assert (Nn : ~ In new (columns df)).
    { intros H. apply has_column_In in H. congruence. }
    split; [|split; [|split]].
    + apply NoDup_map_NoDup_ForallPairs. intros x y Hx Hy.
      destruct (String.eqb_spec x old) as [->|Nx], (String.eqb_spec y old) as [->|Ny];
        intros E; subst; try reflexivity; contradiction.
    + intros H. apply in_map_iff in H as [x [E _]].
      destruct (String.eqb_spec x old); congruence.
    + intros x Hx Nx. apply in_map_iff. exists x. split; [|exact Hx].
      destruct (String.eqb_spec x old); [contradiction|reflexivity].
    + intros x H. apply in_map_iff in H as [y [E Hy]].
      destruct (String.eqb_spec y old); [now right|left; now subst].
  - repeat split; auto. intros H. apply has_column_In in H. congruence.
Qed.

Lemma mapping_sep p q : In p mapping -> In q mapping -> fst p <> snd q.
Proof.
  assert (H : forallb (fun p => forallb (fun q => negb (String.eqb (fst p) (snd q))) mapping)
                mapping = true) by (vm_compute; reflexivity).
  intros Hp Hq. rewrite forallb_forall in H. specialize (H p Hp).
  rewrite forallb_forall in H. specialize (H q Hq).
  apply negb_true_iff, String.eqb_neq in H. exact H.
Qed.

Lemma fold_rename_names (m : list (string * string)) :
  (forall p q, In p m -> In q m -> fst p <> snd q) ->
  forall df,
    (NoDup (columns df) -> NoDup (columns (fold_left rename_step m df)))
    /\ (forall p, In p m -> In (fst p) (columns (fold_left rename_step m df)) ->
                  In (snd p) (columns (fold_left rename_step m df)))
    /\ (forall x, In x (columns df) -> ~ In x (map fst m) ->
                  In x (columns (fold_left rename_step m df)))
    /\ (forall x, In x (columns (fold_left rename_step m df)) ->
                  In x (columns df) \/ In x (map snd m))
    /\ rows (fold_left rename_step m df) = rows df.
Proof.
  induction m as [|[old new] m IH] using rev_ind; intros Hsep df.
  - cbn [fold_left map]. repeat split; auto. intros p [].
  - rewrite fold_left_app. cbn [fold_left].
    assert (Hm : forall p q, In p m -> In q m -> fst p <> snd q).
    { intros p q Hp Hq. apply Hsep; apply in_or_app; now left. }
    destruct (IH Hm df) as [A1 [A2 [A3 [A4 A5]]]].
    set (r := fold_left rename_step m df) in *.
    assert (Hon : old <> new).
    { apply (Hsep (old, new) (old, new)); apply in_or_app; right; now left. }
    destruct (rename_step_names r old new Hon) as [B1 [B2 [B3 B4]]].
    split; [auto|]. split; [|split; [|split]].
    + intros p Hp Hin. apply in_app_or in Hp as [Hp|[<-|[]]]; [|now apply B2].
      assert (N1 : snd p <> old).
      { intros E. apply (Hsep (old, new) p); [apply in_or_app; right; now left
                                              |apply in_or_app; now left|now symmetry]. }
      assert (N2 : fst p <> new).
      { apply (Hsep p (old, new)); [apply in_or_app; now left
                                   |apply in_or_app; right; now left]. }
      apply B3; [|exact N1]. apply A2; [exact Hp|].
      apply B4 in Hin as [Hin|Hin]; [exact Hin|contradiction].
    + intros x Hx Hn. rewrite map_app in Hn. apply B3.
      * apply A3; [exact Hx|]. intros H. apply Hn, in_or_app. now left.
      * intros ->. apply Hn, in_or_app. right. now left.
    + intros x Hx. rewrite map_app. apply B4 in Hx as [Hx| ->].
      * apply A4 in Hx as [Hx|Hx]; [now left|right; apply in_or_app; now left].
      * right. apply in_or_app. right. now left.
    + now rewrite rename_step_rows.
Qed.

Lemma tidy_step_columns df g : columns (tidy_step digest now df g) = columns df.
Proof.
  unfold tidy_step. destruct (has_column g (columns df)) eqn:E; [|reflexivity].
  cbn [withColumn columns]. now rewrite E.
Qed.

Lemma tidy_step_count df g : count (tidy_step digest now df g) = count df.
Proof.
  unfold tidy_step, count. destruct (has_column g (columns df)); [|reflexivity].
  cbn [withColumn rows]. apply length_map.
Qed.

Lemma tidy_step_select df g c :
  select (tidy_step digest now df g) c
  = if String.eqb c g && has_column g (columns df)
    then map (option_map (fun s => trim_str (lower_str s))) (select df c)
    else select df c.
Proof.
  unfold tidy_step. destruct (has_column g (columns df)) eqn:E.
  - rewrite withColumn_select, andb_true_r. destruct (String.eqb_spec c g) as [->|N].
    + unfold select. rewrite map_map. apply map_ext. intros row. cbn [eval].
      now destruct (get (columns df) row g).
    + reflexivity.
  - now rewrite andb_false_r.
Qed.

Local Abbreviation tidied df :=
  (fold_left (tidy_step digest now) ["name"; "first_name"; "last_name"; "email"; "phone"] df).

Lemma tidied_columns df : columns (tidied df) = columns df.
Proof. cbn [fold_left]. now rewrite !tidy_step_columns. Qed.

Lemma tidied_count df : count (tidied df) = count df.
Proof. cbn [fold_left]. now rewrite !tidy_step_count. Qed.

Lemma NoDup_snoc (l : list string) x : NoDup l -> ~ In x l -> NoDup (l ++ [x]).
Proof.
  intros Hl Hx. apply NoDup_app; [exact Hl|repeat constructor; intros []|].
  intros a Ha [<-|[]]. contradiction.
Qed.

Lemma distinct_names_NoDup names : distinct_names names = true -> NoDup names.
Proof.
  induction names as [|n names IH]; [constructor|].
  cbn [distinct_names]. intros H. apply andb_true_iff in H as [H1 H2].
  constructor; [|now apply IH].
  intros Hin. apply has_column_In in Hin. rewrite Hin in H1. discriminate.
Qed.

Lemma mapping_not_timestamp p : In p mapping -> fst p <> "ingest_timestamp".
Proof.
  assert (H : forallb (fun p => negb (String.eqb (fst p) "ingest_timestamp")) mapping = true)
    by (vm_compute; reflexivity).
  intros Hp. rewrite forallb_forall in H. specialize (H p Hp).
  now apply negb_true_iff, String.eqb_neq in H.
Qed.

(** The column names [normalize_columns] leaves, on a frame whose column
    names Spark resolves without ambiguity: pairwise distinct; an alias
    ([fname], [e_mail], ...) only beside the canonical name it stands for;
    no name that was not in the file, is not a canonical name and is not
    [ingest_timestamp]; and [ingest_timestamp] always, holding the current
    time in every row - also when the file had such a column.  No row is
    added or dropped. *)
Theorem normalize_columns_names (df : DataFrame) :
  well_named (columns df) = true ->
  let normal := normalize_columns digest now df in
  NoDup (columns normal)
  /\ (forall old new, In (old, new) mapping ->
        In old (columns normal) -> In new (columns normal))
  /\ (forall x, In x (columns normal) ->
        In x (columns df) \/ In x (map snd mapping) \/ x = "ingest_timestamp")
  /\ In "ingest_timestamp" (columns normal)
  /\ select normal "ingest_timestamp" = repeat (Some now) (count df)
  /\ count normal = count df.
Proof.
  intros Hw. apply andb_true_iff in Hw as [Hw _]. apply distinct_names_NoDup in Hw.
  cbv zeta. unfold normalize_columns.
  generalize (fold_rename_names mapping mapping_sep df).
  revert Hw.
  generalize (fold_left rename_step mapping df). intros r Hw [A1 [A2 [A3 [A4 A5]]]].
  assert (Hc : count (tidied r) = count df).
  { rewrite tidied_count. unfold count. rewrite A5. reflexivity. }
  assert (Hcols : columns (withColumn digest now (tidied r) "ingest_timestamp" current_timestamp)
                  = if has_column "ingest_timestamp" (columns r) then columns r
                    else columns r ++ ["ingest_timestamp"]).
  { rewrite withColumn_columns, tidied_columns. reflexivity. }
  rewrite Hcols. split; [|split; [|split; [|split; [|split]]]].
  - destruct (has_column "ingest_timestamp" (columns r)) eqn:E; [auto|].
    apply NoDup_snoc; [auto|]. intros H. apply has_column_In in H. congruence.
  - intros old new Hp Hin.
    assert (H : In old (columns r)).
    { destruct (has_column "ingest_timestamp" (columns r)); [exact Hin|].
      apply in_app_or in Hin as [Hin|[E|[]]]; [exact Hin|].
      exfalso. apply (mapping_not_timestamp (old, new) Hp). symmetry. exact E. }
    apply (A2 (old, new) Hp) in H.
    destruct (has_column "ingest_timestamp" (columns r)); [exact H|].
    apply in_or_app. left. exact H.
  - intros x Hx.
    assert (H : In x (columns r) \/ x = "ingest_timestamp").
    { destruct (has_column "ingest_timestamp" (columns r)); [left; exact Hx|].
      apply in_app_or in Hx as [Hx|[E|[]]]; [left; exact Hx|right; symmetry; exact E]. }
    destruct H as [H|H]; [|right; right; exact H].
    apply A4 in H as [H|H]; [left; exact H|right; left; exact H].
  - destruct (has_column "ingest_timestamp" (columns r)) eqn:E.
    + apply has_column_In. exact E.
    + apply in_or_app. right. left. reflexivity.
  - rewrite withColumn_select. rewrite String.eqb_refl. cbn [eval].
    rewrite map_const. f_equal. exact Hc.
  - rewrite withColumn_count. exact Hc.
Qed.

Lemma rename_get old new c cols : forall row,
  c <> old -> c <> new ->
  get (map (fun k => if String.eqb k old then new else k) cols) row c = get cols row c.
Proof.
  induction cols as [|k cols IH]; intros row Ho Hn; [reflexivity|].
  destruct row as [|v row]; [reflexivity|]. cbn [map get].
  rewrite (IH row Ho Hn).
  destruct (String.eqb_spec k old) as [->|Nk]; [|reflexivity].
  apply not_eq_sym, String.eqb_neq in Ho, Hn. now rewrite Ho, Hn.
Qed.

Lemma rename_step_select df old new c :
  c <> old -> has_column c (columns df) = true ->
  select (rename_step df (old, new)) c = select df c
  /\ has_column c (columns (rename_step df (old, new))) = true.
Proof.
  intros Ho Hc. unfold select. rewrite rename_step_rows, rename_step_columns.
  destruct (has_column old (columns df) && negb (has_column new (columns df))) eqn:E;
    [|now split].
  apply andb_true_iff in E as [_ E]. apply negb_true_iff in E.
  assert (Hn : c <> new) by congruence.
  split.
  - apply map_ext. intros row. now apply rename_get.
  - apply has_column_In, in_map_iff. exists c. split; [|now apply has_column_In].
    destruct (String.eqb_spec c old); [contradiction|reflexivity].
Qed.

Lemma fold_rename_select c (m : list (string * string)) : forall df,
  ~ In c (map fst m) -> has_column c (columns df) = true ->
  select (fold_left rename_step m df) c = select df c
  /\ has_column c (columns (fold_left rename_step m df)) = true.
Proof.
  induction m as [|[old new] m IH]; intros df Hm Hc; [now split|].
  cbn [fold_left]. cbn [map fst In] in Hm.
  assert (Ho : c <> old) by (intros ->; apply Hm; now left).
  destruct (rename_step_select df old new c Ho Hc) as [S1 S2].
  destruct (IH (rename_step df (old, new))) as [T1 T2]; [tauto|exact S2|].
  split; [now rewrite T1|exact T2].
Qed.

(** On a frame whose column names Spark resolves without ambiguity, the
    cells [normalize_columns] leaves under a column the file has under its
    own name (not under an alias), [ingest_timestamp] apart: trimmed and
    lower-cased for name, first_name, last_name, email and phone - NULL
    staying NULL - and untouched for every other column. *)
Theorem normalize_columns_cells (df : DataFrame) (c : string) :
  well_named (columns df) = true ->
  has_column c (columns df) = true ->
  ~ In c (map fst mapping) ->
  c <> "ingest_timestamp" ->
  select (normalize_columns digest now df) c
  = if PyStr.str_in c ["name"; "first_name"; "last_name"; "email"; "phone"]
    then map (option_map (fun s => trim_str (lower_str s))) (select df c)
    else select df c.
Proof.
  intros _ Hc Hm Hts. unfold normalize_columns. cbv zeta.
  generalize (fold_rename_select c mapping df Hm Hc).
  generalize (fold_left rename_step mapping df). intros r [R1 R2].
  rewrite <- R1. clear R1 Hc Hm df.
  rewrite withColumn_select.
  apply String.eqb_neq in Hts. rewrite Hts.
  change (map (fun row => get (columns (tidied r)) row c) (rows (tidied r)))
    with (select (tidied r) c).
  cbn [fold_left]. rewrite !tidy_step_select, !tidy_step_columns.
  assert (K : forall g, String.eqb c g && has_column g (columns r) = String.eqb c g).
  { intros g. destruct (String.eqb_spec c g) as [<-|]; [exact R2|reflexivity]. }
  rewrite !K. unfold PyStr.str_in. cbn [existsb].
  destruct (String.eqb_spec c "name") as [E1|E1];
    destruct (String.eqb_spec c "first_name") as [E2|E2];
    destruct (String.eqb_spec c "last_name") as [E3|E3];
    destruct (String.eqb_spec c "email") as [E4|E4];
    destruct (String.eqb_spec c "phone") as [E5|E5];
    try reflexivity; exfalso; congruence.
Qed.

End PipelineMore.

(** * Further properties of the data-quality helpers *)

Section CleanMore.
Import PyStr DataQuality.

Lemma filter_forallb (P : ascii -> bool) l : forallb P l = true -> filter P l = l.
Proof.
  induction l as [|c l IH]; [reflexivity|]. cbn [forallb filter].
  intros H. apply andb_true_iff in H as [Hc Hl]. now rewrite Hc, (IH Hl).
Qed.

Lemma clean_chars_idempotent l : clean_chars (clean_chars l) = clean_chars l.
Proof.
  destruct (clean_chars_normal_form l) as [Hc _].
  rewrite (clean_chars_joined (clean_chars l)).
  assert (Hd : re_delete is_control (clean_chars l) = clean_chars l).
  { unfold re_delete. apply filter_forallb.
    apply forallb_forall. intros c Hin.
    rewrite forallb_forall in Hc. specialize (Hc c Hin).
    unfold clean_char in Hc. now apply andb_true_iff in Hc as [Hc _]. }
  rewrite Hd. rewrite (clean_chars_joined l) at 1.
  rewrite split_join by apply split_good. symmetry. apply clean_chars_joined.
Qed.

(** Start of a string with white space. *)
Local Abbreviation leading l :=
  (match l with c :: _ => if isspace c then 1 else 0 | [] => 0 end).

Lemma length_join_cons (w : chars) ws :
  length (join [space] (w :: ws))
  = match ws with [] => length w | _ :: _ => length w + 1 + length (join [space] ws) end.
Proof.
  rewrite join_cons. destruct ws as [|w' ws']; [reflexivity|].
  rewrite !length_app. cbn [length]. lia.
Qed.

Lemma length_join_split l :
  length (join [space] (split l)) + leading l <= length l.
Proof.
  induction l as [|c t IH]; [cbn; lia|].
  rewrite split_cons. cbn [length]. destruct (isspace c) eqn:Ec.
  - destruct t as [|c' t']; [cbn; lia|]. destruct (isspace c'); lia.
  - destruct t as [|c' t']; [cbn; lia|].
    destruct (isspace c') eqn:Ec'.
    + rewrite length_join_cons. cbn [length] in *.
      destruct (split (c' :: t')) as [|w ws]; lia.
    + destruct (split (c' :: t')) as [|w ws] eqn:Es; [cbn; lia|].
      rewrite length_join_cons. rewrite length_join_cons in IH.
      cbn [length] in *. destruct ws; lia.
Qed.

Lemma length_clean_chars l : length (clean_chars l) <= length l.
Proof.
  rewrite clean_chars_joined.
  pose proof (length_join_split (re_delete is_control l)) as H.
  assert (H' : length (re_delete is_control l) <= length l) by apply filter_length_le.
  lia.
Qed.

Lemma clean_string_again (value : option string) :
  clean_string (Some (clean_string value)) = clean_string value.
Proof.
  destruct value as [s|]; [|reflexivity]. unfold clean_string.
  rewrite of_to_string. now rewrite clean_chars_idempotent.
Qed.

(** Cleaning a cleaned string changes nothing: [clean_string] is a
    projection onto its normal form, and it never lengthens a string. *)
Theorem clean_string_idempotent (value : option string) :
  clean_string (Some (clean_string value)) = clean_string value
  /\ match value with
     | None => clean_string value = ""
     | Some s => length (of_string (clean_string value)) <= length (of_string s)
     end.
Proof.
  split; [apply clean_string_again|].
  destruct value as [s|]; [|reflexivity]. unfold clean_string.
  rewrite of_to_string. apply length_clean_chars.
Qed.

(** The data-quality [sanitize_for_storage] with a non-negative limit: the
    result is never longer than the limit, it is a cleaned string, and for
    a value that fits the limit it is [clean_string] of the value. *)
Theorem sanitize_for_storage_bounded (value : option string) (max_length : Z) :
  (0 <= max_length)%Z ->
  let r := of_string (sanitize_for_storage value max_length) in
  (Z.of_nat (length r) <= max_length)%Z
  /\ clean_string (Some (sanitize_for_storage value max_length))
     = sanitize_for_storage value max_length
  /\ (match value with
      | None => True
      | Some s => (Z.of_nat (length (of_string s)) <= max_length)%Z
      end ->
      sanitize_for_storage value max_length = clean_string value).
Proof.
  intros Hm. cbv zeta. destruct value as [s|]; cbn [sanitize_for_storage].
  2:{ repeat split. cbn. lia. }
  destruct (Z.ltb_spec max_length (Z.of_nat (length (of_string s)))) as [Hlt|Hge].
  - split; [|split].
    + unfold clean_string. rewrite !of_to_string.
      pose proof (length_clean_chars (slice_to (of_string s) max_length)) as H1.
      assert (H2 : length (slice_to (of_string s) max_length) <= Z.to_nat max_length).
      { unfold slice_to. destruct (Z.leb_spec 0 max_length); [|lia].
        apply firstn_le_length. }
      lia.
    + apply clean_string_again.
    + intros H. lia.
  - split; [|split].
    + unfold clean_string. rewrite of_to_string.
      pose proof (length_clean_chars (of_string s)). lia.
    + apply clean_string_again.
    + reflexivity.
Qed.

End CleanMore.

Section RecoverMore.
Import PyStr DataQuality.

Variable JSON : Type.
Variable json_loads : string -> option JSON.

Lemma count_cons a c l :
  count a (c :: l) = (if is_char a c then 1 else 0) + count a l.
Proof. unfold count. cbn [filter]. now destruct (is_char a c). Qed.

Lemma count_app a l l' : count a (l ++ l') = count a l + count a l'.
Proof. unfold count. now rewrite filter_app, length_app. Qed.

Lemma count_repeat_same a n : count a (repeat a n) = n.
Proof.
  induction n as [|n IH]; [reflexivity|]. cbn [repeat]. rewrite count_cons, IH.
  assert (E : is_char a a = true) by now apply is_char_eq. now rewrite E.
Qed.

Lemma count_repeat_other a b n : is_char a b = false -> count a (repeat b n) = 0.
Proof.
  intros E. induction n as [|n IH]; [reflexivity|]. cbn [repeat].
  now rewrite count_cons, IH, E.
Qed.


Lemma length_split_on d l : length (split_on d l) = S (count d l).
Proof.
  induction l as [|c l IH]; [reflexivity|].
  cbn [split_on]. rewrite count_cons. destruct (is_char d c).
  - cbn [length]. now rewrite IH.
  - destruct (split_on d l) as [|w ws]; [discriminate|exact IH].
Qed.







(** The repair of a JSON line appends closers and nothing else: the result
    is the stripped line followed by as many [}] and then as many [\]] as were
    missing; it has no fewer closers than openers of either kind; a line that was
    balanced comes back stripped and otherwise unchanged. *)
Theorem repair_line_balanced (line : chars) :
  let s := strip line in
  let r := repair_line line in
  r = s ++ repeat "}"%char (count "{"%char s - count "}"%char s)
        ++ repeat "]"%char (count "["%char s - count "]"%char s)
  /\ count "{"%char r <= count "}"%char r
  /\ count "["%char r <= count "]"%char r
  /\ count "{"%char r = count "{"%char s
  /\ count "["%char r = count "["%char s
  /\ (count "{"%char s <= count "}"%char s -> count "["%char s <= count "]"%char s -> r = s).
Proof.
  cbv zeta. unfold repair_line. set (s := strip line).
  set (a := count "{"%char s - count "}"%char s).
  assert (B1 : balance "{"%char "}"%char s = s ++ repeat "}"%char a).
  { unfold balance. fold a. destruct (Nat.ltb_spec (count "}"%char s) (count "{"%char s)).
    - reflexivity.
    - replace a with 0 by (unfold a; lia). cbn [repeat]. now rewrite app_nil_r. }
  rewrite B1. set (s1 := s ++ repeat "}"%char a).
  assert (C1 : count "["%char s1 = count "["%char s).
  { unfold s1. rewrite count_app, count_repeat_other by reflexivity. lia. }
  assert (C2 : count "]"%char s1 = count "]"%char s).
  { unfold s1. rewrite count_app, count_repeat_other by reflexivity. lia. }
  set (b := count "["%char s - count "]"%char s).
  assert (B2 : balance "["%char "]"%char s1 = s1 ++ repeat "]"%char b).
  { unfold balance. rewrite C1, C2. fold b.
    destruct (Nat.ltb_spec (count "]"%char s) (count "["%char s)).
    - reflexivity.
    - replace b with 0 by (unfold b; lia). cbn [repeat]. now rewrite app_nil_r. }
  rewrite B2. unfold s1. rewrite <- app_assoc.
  split; [reflexivity|].
  rewrite !count_app, !count_repeat_same.
  rewrite !count_repeat_other by reflexivity.
  unfold a, b. repeat split; try lia.
  intros H1 H2. replace (count "{"%char s - count "}"%char s) with 0 by lia.
  replace (count "["%char s - count "]"%char s) with 0 by lia.
  cbn [repeat app]. now rewrite app_nil_r.
Qed.

End RecoverMore.

(** ** Encoding detection, both copies *)

Section EncodingMore.

Variable open_read : string -> nat -> exc string.
Variable chardet_detect : string -> exc (list (string * option string)).

(** Neither copy of [detect_encoding_safe] ever raises, and neither ever
    answers ASCII: the answer is an encoding whose lower-case name is not
    [ascii] or [us-ascii] - and, for the copy in [data_quality.py], not
    [windows-1252] either.  When the file cannot be read or [chardet] fails
    the answer is [utf-8]. *)
Theorem detect_encoding_safe_never_ascii (file_path : string) (sample_size : nat) :
  (exists enc,
     DataQuality.detect_encoding_safe open_read chardet_detect file_path sample_size = inr enc
     /\ PyStr.str_in (DataQuality.lower_str enc) ["ascii"; "us-ascii"; "windows-1252"] = false)
  /\ (exists enc,
        IngestedData.detect_encoding_safe open_read chardet_detect file_path sample_size
        = inr enc
        /\ PyStr.str_in (DataQuality.lower_str enc) ["ascii"; "us-ascii"] = false)
  /\ ((forall raw, open_read file_path sample_size = inr raw ->
         exists e, chardet_detect raw = inl e) ->
      DataQuality.detect_encoding_safe open_read chardet_detect file_path sample_size
      = inr "utf-8"
      /\ IngestedData.detect_encoding_safe open_read chardet_detect file_path sample_size
         = inr "utf-8").
Proof.
  unfold DataQuality.detect_encoding_safe, IngestedData.detect_encoding_safe, try_except.
  destruct (open_read file_path sample_size) as [e|raw].
  { repeat split; try (eexists; split; reflexivity). }
  cbn [bind Monad_either]. destruct (chardet_detect raw) as [e|d] eqn:Ed.
  { repeat split; try (eexists; split; reflexivity). }
  split; [|split].
  - destruct (DataQuality.dict_get d "encoding" (Some "utf-8")) as [enc|];
      [|eexists; split; reflexivity].
    destruct (PyStr.str_in (DataQuality.lower_str enc) ["ascii"; "us-ascii"]) eqn:E1;
      [eexists; split; reflexivity|].
    destruct (String.eqb (DataQuality.lower_str enc) "windows-1252") eqn:E2;
      [eexists; split; reflexivity|].
    exists enc. split; [reflexivity|].
    unfold PyStr.str_in in *. cbn [existsb] in *.
    apply orb_false_iff in E1 as [A1 E1]. apply orb_false_iff in E1 as [A2 _].
    now rewrite A1, A2, E2.
  - destruct (DataQuality.dict_get d "encoding" (Some "utf-8")) as [enc|];
      [|eexists; split; reflexivity].
    destruct (PyStr.str_in (DataQuality.lower_str enc) ["ascii"; "us-ascii"]) eqn:E1;
      [eexists; split; reflexivity|].
    exists enc. split; [reflexivity|exact E1].
  - intros H. destruct (H raw eq_refl) as [e He]. congruence.
Qed.

End EncodingMore.

(** * Further properties of the ingestion helpers *)

Section FormatFacts.
Import PyStr.

Lemma of_string_app (a b : string) : of_string (a ++ b) = of_string a ++ of_string b.
Proof.
  unfold of_string. induction a as [|c a IH]; [reflexivity|].
  cbn [String.append list_ascii_of_string app]. now rewrite IH.
Qed.

Lemma lower_idem l : lower (lower l) = lower l.
Proof. unfold lower. rewrite map_map. apply map_ext. intros c. apply lower_char_idem. Qed.

Lemma lower_str_chars (s ext : string) :
  DataQuality.lower_str s = ext -> lower (of_string s) = of_string ext.
Proof. intros <-. unfold DataQuality.lower_str. now rewrite of_to_string. Qed.

Lemma detect_format_suffix (stem e ext fmt : string) :
  In (ext, fmt) IngestedData.extensions ->
  DataQuality.lower_str e = ext ->
  IngestedData.detect_format (stem ++ e) = Some fmt.
Proof.
  intros Hin He. unfold IngestedData.detect_format.
  rewrite of_string_app. unfold lower. rewrite map_app. fold (lower (of_string stem)).
  fold (lower (of_string e)). rewrite (lower_str_chars e ext He).
  generalize (lower (of_string stem)). intros L. clear He.
  unfold endswith. rewrite rev_app_distr. generalize (rev L). clear L. intros R.
  unfold IngestedData.extensions in Hin. cbn [In] in Hin.
  repeat (destruct Hin as [Hin|Hin]; [injection Hin as <- <-; vm_compute; reflexivity|]).
  destruct Hin.
Qed.

(** [detect_format] looks at the extension only and ignores letter case: a
    path that ends, in any letter case, with one of the nine known
    extensions gets that extension's format whatever comes before it; an
    answer is always the format of a known extension the path ends with;
    and the answer for a path is the answer for the path in lower case. *)
Theorem detect_format_by_extension (path : string) :
  (forall stem e ext fmt,
      In (ext, fmt) IngestedData.extensions ->
      DataQuality.lower_str e = ext ->
      IngestedData.detect_format (stem ++ e) = Some fmt)
  /\ (forall fmt,
        IngestedData.detect_format path = Some fmt ->
        exists ext,
          In (ext, fmt) IngestedData.extensions
          /\ endswith (lower (of_string path)) (of_string ext) = true)
  /\ IngestedData.detect_format (DataQuality.lower_str path)
     = IngestedData.detect_format path.
Proof.
  split; [exact detect_format_suffix|]. split.
  - intros fmt. unfold IngestedData.detect_format, IngestedData.extensions.
    destruct (endswith _ (of_string ".csv")) eqn:E1.
    { intros [= <-]. exists ".csv". split; [cbn [In]; tauto|exact E1]. }
    destruct (endswith _ (of_string ".json")) eqn:E2.
    { intros [= <-]. exists ".json". split; [cbn [In]; tauto|exact E2]. }
    destruct (endswith _ (of_string ".jsonl")) eqn:E3.
    { intros [= <-]. exists ".jsonl". split; [cbn [In]; tauto|exact E3]. }
    destruct (endswith _ (of_string ".parquet")) eqn:E4.
    { intros [= <-]. exists ".parquet". split; [cbn [In]; tauto|exact E4]. }
    destruct (endswith _ (of_string ".xml")) eqn:E5.
    { intros [= <-]. exists ".xml". split; [cbn [In]; tauto|exact E5]. }
    destruct (endswith _ (of_string ".xlsx")) eqn:E6.
    { intros [= <-]. exists ".xlsx". split; [cbn [In]; tauto|exact E6]. }
    destruct (endswith _ (of_string ".xls")) eqn:E7.
    { intros [= <-]. exists ".xls". split; [cbn [In]; tauto|exact E7]. }
    destruct (endswith _ (of_string ".sql")) eqn:E8.
    { intros [= <-]. exists ".sql". split; [cbn [In]; tauto|exact E8]. }
    destruct (endswith _ (of_string ".dump")) eqn:E9.
    { intros [= <-]. exists ".dump". split; [cbn [In]; tauto|exact E9]. }
    discriminate.
  - unfold IngestedData.detect_format, DataQuality.lower_str.
    now rewrite of_to_string, lower_idem.
Qed.

Lemma lstrip_split p l :
  exists pre, l = pre ++ lstrip_by p l /\ forallb p pre = true.
Proof.
  induction l as [|c l [pre [E H]]]; [now exists []|].
  cbn [lstrip_by]. destruct (p c) eqn:Ec.
  - exists (c :: pre). cbn [app forallb]. rewrite Ec, H. split; [now f_equal|reflexivity].
  - now exists [].
Qed.

Lemma rstrip_split p l :
  exists post, l = rstrip_by p l ++ post /\ forallb p post = true.
Proof.
  induction l as [|c l [post [E H]]]; [now exists []|].
  cbn [rstrip_by]. destruct (rstrip_by p l) as [|c' t'] eqn:R.
  - cbn [app] in E. subst post. destruct (p c) eqn:Ec.
    + exists (c :: l). cbn [app forallb]. now rewrite Ec, H.
    + exists l. now split.
  - exists post. split; [|exact H]. cbn [app] in E |- *. now f_equal.
Qed.

Lemma strip_split l :
  exists pre post,
    l = pre ++ strip l ++ post
    /\ forallb isspace pre = true /\ forallb isspace post = true.
Proof.
  unfold strip, strip_by.
  destruct (lstrip_split isspace l) as [pre [E1 H1]].
  destruct (rstrip_split isspace (lstrip_by isspace l)) as [post [E2 H2]].
  exists pre, post. split; [|now split]. now rewrite <- E2.
Qed.

(** The ingestion [sanitize_for_storage] with a non-negative limit: the
    result is the value, cut to the limit when longer, without the white
    space at its two ends and otherwise untouched; so it is never longer
    than the limit and neither starts nor ends with white space. *)
Theorem ingested_sanitize_for_storage_bounded (s : string) (max_length : Z) :
  (0 <= max_length)%Z ->
  let r := of_string (IngestedData.sanitize_for_storage (Some s) max_length) in
  (Z.of_nat (length r) <= max_length)%Z
  /\ hd_ok isspace r = true /\ last_ok isspace r = true
  /\ exists pre post,
       firstn (Z.to_nat max_length) (of_string s) = pre ++ r ++ post
       /\ forallb isspace pre = true /\ forallb isspace post = true.
Proof.
  intros Hm. cbv zeta. unfold IngestedData.sanitize_for_storage. rewrite of_to_string.
  set (cut := if (max_length <? Z.of_nat (length (of_string s)))%Z then _ else _).
  assert (Hcut : cut = firstn (Z.to_nat max_length) (of_string s)).
  { unfold cut. destruct (Z.ltb_spec max_length (Z.of_nat (length (of_string s)))).
    - unfold DataQuality.slice_to. destruct (Z.leb_spec 0 max_length); [reflexivity|lia].
    - symmetry. apply firstn_all2. lia. }
  destruct (strip_split cut) as [pre [post [E [H1 H2]]]].
  destruct (strip_by_ends isspace cut) as [Hh Hl].
  split; [|split; [exact Hh|split; [exact Hl|]]].
  - assert (L : length cut <= Z.to_nat max_length).
    { rewrite Hcut. apply firstn_le_length. }
    assert (L' : length (strip cut) <= length cut).
    { rewrite E at 2. rewrite !length_app. lia. }
    lia.
  - exists pre, post. rewrite <- Hcut. now split.
Qed.

End FormatFacts.

(** ** The SQL dump parser *)

Section SqlFacts.
Import PyStr IngestedData.

Variable py_str : list value -> string.

Lemma split_on_cons d l : exists p ps, DataQuality.split_on d l = p :: ps.
Proof.
  pose proof (length_split_on d l) as H.
  destruct (DataQuality.split_on d l) as [|p ps]; [discriminate|]. now exists p, ps.
Qed.

Lemma parse_loop_cons c l st : parse_loop (c :: l) st = parse_loop l (parse_char st c).
Proof. reflexivity. Qed.

Lemma parse_char_plain vals cur c :
  is_quote c = false ->
  parse_char (mkParse vals cur false None) c
  = if Ascii.eqb c comma then mkParse (vals ++ [unquote cur]) [] false None
    else mkParse vals (cur ++ [c]) false None.
Proof.
  intros Hq. unfold parse_char. cbn [in_quotes quote_char values current_value].
  rewrite Hq. cbn [andb negb]. now rewrite andb_true_r.
Qed.

Lemma parse_loop_plain l : forall vals cur,
  forallb (fun c => negb (is_quote c)) l = true ->
  parse_loop l (mkParse vals cur false None)
  = match DataQuality.split_on comma l with
    | p :: ps =>
        mkParse (vals ++ map unquote (removelast ((cur ++ p) :: ps)))
          (last ((cur ++ p) :: ps) []) false None
    | [] => mkParse vals cur false None
    end.
Proof.
  induction l as [|c t IH]; intros vals cur H.
  - cbn [DataQuality.split_on removelast last map]. now rewrite !app_nil_r.
  - cbn [forallb] in H. apply andb_true_iff in H as [Hc Ht]. apply negb_true_iff in Hc.
    rewrite parse_loop_cons, (parse_char_plain vals cur c Hc).
    cbn [DataQuality.split_on]. unfold is_char. rewrite (eqb_sym comma c).
    destruct (split_on_cons comma t) as [p [ps E]].
    destruct (Ascii.eqb c comma).
    + rewrite (IH _ _ Ht), E. cbn [app]. rewrite app_nil_r.
      change (removelast (cur :: p :: ps)) with (cur :: removelast (p :: ps)).
      change (last (cur :: p :: ps) []) with (last (p :: ps) []).
      cbn [map]. now rewrite <- app_assoc.
    + rewrite (IH _ _ Ht), E. now rewrite <- app_assoc.
Qed.

Lemma drop_empty_last_map (pieces : list chars) :
  pieces <> [] ->
  (if DataQuality.is_empty (last pieces [])
   then map unquote (removelast pieces)
   else map unquote (removelast pieces) ++ [unquote (last pieces [])])
  = map unquote (drop_empty_last pieces).
Proof.
  intros Hne. unfold drop_empty_last.
  destruct (DataQuality.is_empty (last pieces [])); [reflexivity|].
  rewrite (app_removelast_last [] Hne) at 3. now rewrite map_app.
Qed.

(** A row without quote characters: its values are the pieces between the
    commas of the row (stripped of white space and of its parentheses), each
    stripped of white space and of quote marks; an empty piece is kept as the
    empty string, except after the last comma, where it is dropped. *)
Theorem parse_values_plain (row_str : chars) :
  forallb (fun c => negb (is_quote c)) row_str = true ->
  parse_values row_str
  = map unquote
      (drop_empty_last
         (DataQuality.split_on comma
            (strip_chars ["("%char; ")"%char] (strip row_str)))).
Proof.
  intros H. unfold parse_values.
  assert (H' : forallb (fun c => negb (is_quote c))
                 (strip_chars ["("%char; ")"%char] (strip row_str)) = true).
  { unfold strip_chars, strip. now do 2 apply forallb_strip_by. }
  rewrite (parse_loop_plain _ [] [] H').
  destruct (split_on_cons comma (strip_chars ["("%char; ")"%char] (strip row_str)))
    as [p [ps E]].
  rewrite E. cbn [app values current_value].
  apply (drop_empty_last_map (p :: ps)). discriminate.
Qed.

Lemma parse_loop_inside q vals body : forall cur tail,
  forallb (fun c => negb (Ascii.eqb c q)) body = true ->
  parse_loop (body ++ tail) (mkParse vals cur true (Some q))
  = parse_loop tail (mkParse vals (cur ++ body) true (Some q)).
Proof.
  induction body as [|c body IH]; intros cur tail H.
  - cbn [app]. now rewrite app_nil_r.
  - cbn [forallb] in H. apply andb_true_iff in H as [Hc Hb]. apply negb_true_iff in Hc.
    cbn [app]. rewrite parse_loop_cons. unfold parse_char at 1.
    cbn [in_quotes quote_char values current_value negb orb]. rewrite Hc.
    rewrite !andb_false_r. rewrite (IH _ _ Hb). now rewrite <- app_assoc.
Qed.

(** Outside quotes, a quoted group - an opening quote, a body without that
    quote character, the same quote again - goes into the current value
    whole: its commas do not split, the other quote character does not
    close it, and the loop is outside quotes again after it. *)
Theorem parse_loop_quoted (q : ascii) (body rest : chars)
    (vals : list string) (cur : chars) :
  is_quote q = true ->
  forallb (fun c => negb (Ascii.eqb c q)) body = true ->
  parse_loop ([q] ++ body ++ [q] ++ rest) (mkParse vals cur false None)
  = parse_loop rest (mkParse vals (cur ++ [q] ++ body ++ [q]) false None).
Proof.
  intros Hq Hb. cbn [app]. rewrite parse_loop_cons. unfold parse_char at 1.
  cbn [in_quotes quote_char values current_value negb orb]. rewrite Hq. cbn [andb].
  rewrite (parse_loop_inside q vals body _ _ Hb).
  rewrite parse_loop_cons. unfold parse_char at 1.
  cbn [in_quotes quote_char values current_value negb orb].
  rewrite Hq, Ascii.eqb_refl. cbn [andb]. now rewrite <- !app_assoc.
Qed.

Lemma In_dict_set d k v kv : In kv (dict_set d k v) -> In kv d \/ kv = (k, v).
Proof.
  induction d as [|[k' v'] d IH]; cbn [dict_set In].
  - intros [<-|[]]. now right.
  - destruct (String.eqb_spec k' k) as [->|N]; cbn [In].
    + intros [<-|H]; [now right|left; now right].
    + intros [<-|H]; [left; now left|]. destruct (IH H) as [H'|H']; [left; now right|now right].
Qed.

Lemma length_dict_set d k v : length (dict_set d k v) <= S (length d).
Proof.
  induction d as [|[k' v'] d IH]; cbn [dict_set length]; [lia|].
  destruct (String.eqb k' k); cbn [length]; lia.
Qed.

Lemma dict_of_items_sub items :
  (forall kv, In kv (dict_of_items items) -> In kv items)
  /\ length (dict_of_items items) <= length items.
Proof.
  unfold dict_of_items.
  assert (H : forall acc,
    (forall kv, In kv (fold_left (fun d kv => dict_set d (fst kv) (snd kv)) items acc) ->
                In kv acc \/ In kv items)
    /\ length (fold_left (fun d kv => dict_set d (fst kv) (snd kv)) items acc)
       <= length acc + length items).
  { induction items as [|[k v] items IH]; intros acc; cbn [fold_left fst snd length].
    - split; [now left|lia].
    - destruct (IH (dict_set acc k v)) as [H1 H2]. split.
      + intros kv Hin. apply H1 in Hin as [Hin|Hin]; [|right; now right].
        apply In_dict_set in Hin as [Hin|Hin]; [now left|right; now left].
      + pose proof (length_dict_set acc k v). lia. }
  destruct (H []) as [H1 H2]. split; [|exact H2].
  intros kv Hin. now destruct (H1 kv Hin).
Qed.

Lemma sql_items_flat cvs : is_flat (map sql_item cvs) = true.
Proof.
  unfold is_flat. apply forallb_forall. intros kv Hin.
  apply in_map_iff in Hin as [cv [<- _]]. reflexivity.
Qed.

(** The record made of a row.  A row without values gives no record, unless
    the column list is empty too.  The record pairs the columns with the
    values position by position, as far as both go; its keys are normalized
    and pairwise distinct, its values are the sanitized values, and the
    closing call to [flatten_dict] changes nothing. *)
Theorem make_record_shape (columns vals : list string) :
  (make_record py_str columns vals = None <-> vals = [] /\ columns <> [])
  /\ forall r,
       make_record py_str columns vals = Some r ->
       r = dict_of_items (map sql_item (combine columns vals))
       /\ is_flat r = true
       /\ distinct_keys r = true
       /\ length r <= Nat.min (length columns) (length vals)
       /\ forall k v,
            In (k, v) r ->
            DataQuality.is_normalized k = true
            /\ exists col val,
                 In (col, val) (combine columns vals)
                 /\ k = normalize_field_name col
                 /\ v = VStr (sanitize_for_storage (Some val) 10000).
Proof.
  set (items := map sql_item (combine columns vals)).
  assert (F : flatten_dict py_str (dict_of_items items) = dict_of_items items).
  { apply flatten_dict_fixed; [|apply dict_of_items_distinct].
    apply dict_of_items_flat, sql_items_flat. }
  assert (E : make_record py_str columns vals
              = if (length vals =? length columns) || (0 <? length vals)
                then Some (dict_of_items items) else None).
  { unfold make_record. fold items. rewrite F.
    destruct (length vals =? length columns); [reflexivity|].
    now destruct (0 <? length vals). }
  rewrite E. split.
  - split.
    + intros Hn.
      destruct (Nat.eqb_spec (length vals) (length columns)) as [E1|E1]; [discriminate|].
      destruct (Nat.ltb_spec 0 (length vals)) as [E2|E2]; [discriminate|].
      destruct vals as [|v vals]; [|cbn [length] in E2; lia].
      split; [reflexivity|]. intros ->. now apply E1.
    + intros [-> Hc]. destruct columns as [|c columns]; [congruence|reflexivity].
  - intros r Hr.
    destruct ((length vals =? length columns) || (0 <? length vals)); [|discriminate].
    injection Hr as <-. destruct (dict_of_items_sub items) as [S1 S2].
    split; [reflexivity|]. split; [apply dict_of_items_flat, sql_items_flat|].
    split; [apply dict_of_items_distinct|]. split.
    + unfold items in S2. rewrite length_map, length_combine in S2. exact S2.
    + intros k v Hin. apply S1 in Hin. unfold items in Hin.
      apply in_map_iff in Hin as [[col val] [Ei Hin]]. unfold sql_item in Ei.
      cbn [fst snd] in Ei. injection Ei as <- <-. split.
      * unfold DataQuality.is_normalized.
        change (normalize_field_name col)
          with (to_string (DataQuality.normalize_chars (of_string col))).
        rewrite of_to_string. apply normalize_chars_normalized.
      * now exists col, val.
Qed.

End SqlFacts.

(** ** The XML reader *)

Section XmlFacts.
Import IngestedData.

Variable py_str : list value -> string.
Variable open_read : string -> nat -> exc string.
Variable chardet_detect : string -> exc (list (string * option string)).
Variable parse : string -> exc Element.

Lemma dict_set_nonempty d k v : dict_set d k v <> [].
Proof. destruct d as [|[k' v'] d]; cbn [dict_set]; [|destruct (String.eqb k' k)]; discriminate. Qed.

Lemma add_text_nonempty r e : has_text e = true -> add_text r e <> [].
Proof.
  intros H. unfold add_text. rewrite H.
  destruct (dict_lookup r (tag_of e)); apply dict_set_nonempty.
Qed.

Lemma add_text_skip r e : has_text e = false -> add_text r e = r.
Proof. intros H. unfold add_text. now rewrite H. Qed.

Lemma fold_add_text_nil es : forall r,
  fold_left add_text es r = [] -> r = [] /\ Forall (fun e => has_text e = false) es.
Proof.
  induction es as [|e es IH]; intros r H; [now split|].
  cbn [fold_left] in H. destruct (IH _ H) as [H1 H2].
  destruct (has_text e) eqn:E.
  - exfalso. now apply (add_text_nonempty r e E).
  - rewrite (add_text_skip r e E) in H1. split; [exact H1|]. now constructor.
Qed.

Lemma fold_add_text_skip es : forall r,
  Forall (fun e => has_text e = false) es -> fold_left add_text es r = r.
Proof.
  induction es as [|e es IH]; intros r H; [reflexivity|].
  inversion H as [|? ? He Hes]; subst. cbn [fold_left].
  rewrite (add_text_skip r e He). now apply IH.
Qed.

Lemma add_child_nil acc c :
  add_child py_str acc c = [] -> acc = [] /\ fold_left add_text (iter c) [] = [].
Proof.
  unfold add_child. destruct (fold_left add_text (iter c) []) as [|kv r]; cbn [is_nil].
  - now split.
  - intros H. now apply app_eq_nil in H as [_ H].
Qed.

Lemma fold_add_child_nil cs : forall acc,
  fold_left (add_child py_str) cs acc = [] ->
  acc = [] /\ Forall (fun c => fold_left add_text (iter c) [] = []) cs.
Proof.
  induction cs as [|c cs IH]; intros acc H; [now split|].
  cbn [fold_left] in H. destruct (IH _ H) as [H1 H2].
  apply add_child_nil in H1 as [H1 H3]. split; [exact H1|]. now constructor.
Qed.

Lemma fold_add_child_skip cs : forall acc,
  Forall (fun e => has_text e = false) (flat_map iter cs) ->
  fold_left (add_child py_str) cs acc = acc.
Proof.
  induction cs as [|c cs IH]; intros acc H; [reflexivity|].
  cbn [flat_map] in H. apply Forall_app in H as [H1 H2].
  cbn [fold_left]. unfold add_child at 2. rewrite (fold_add_text_skip _ _ H1).
  cbn [is_nil]. now apply IH.
Qed.

Lemma fold_set_text_skip root es : forall r,
  Forall (fun e => has_text e && negb (String.eqb (tag_of e) (tag_of root)) = false) es ->
  fold_left (set_text root) es r = r.
Proof.
  induction es as [|e es IH]; intros r H; [reflexivity|].
  inversion H as [|? ? He Hes]; subst. cbn [fold_left].
  unfold set_text at 2. rewrite He. now apply IH.
Qed.

Lemma iter_root root : iter root = root :: flat_map iter (children_of root).
Proof. now destruct root. Qed.

(** The second pass over the root never adds a record. *)
Lemma xml_records_first_pass root :
  xml_records py_str root = fold_left (add_child py_str) (children_of root) [].
Proof.
  unfold xml_records.
  destruct (fold_left (add_child py_str) (children_of root) []) as [|r rs] eqn:E;
    [|reflexivity].
  cbn [is_nil]. apply fold_add_child_nil in E as [_ E].
  assert (H : Forall (fun e => has_text e = false) (flat_map iter (children_of root))).
  { induction E as [|c cs Hc _ IH]; [constructor|].
    cbn [flat_map]. apply Forall_app. split; [|exact IH].
    now apply fold_add_text_nil in Hc as [_ Hc]. }
  rewrite fold_set_text_skip; [reflexivity|].
  rewrite iter_root. constructor.
  - now rewrite String.eqb_refl, andb_false_r.
  - eapply Forall_impl; [|exact H]. intros e He. now rewrite He.
Qed.

Local Abbreviation texts_only r := (Forall (fun kv : string * value => is_texts (snd kv) = true) r).

Lemma dict_set_texts d k v : texts_only d -> is_texts v = true -> texts_only (dict_set d k v).
Proof.
  intros Hd Hv. induction d as [|[k' v'] d IH]; cbn [dict_set].
  - now repeat constructor.
  - inversion Hd as [|? ? H1 H2]; subst. destruct (String.eqb k' k).
    + now constructor.
    + constructor; [exact H1|now apply IH].
Qed.

Lemma dict_lookup_texts d k v :
  texts_only d -> dict_lookup d k = Some v -> is_texts v = true.
Proof.
  induction d as [|[k' v'] d IH]; cbn [dict_lookup]; [discriminate|].
  intros Hd. inversion Hd as [|? ? H1 H2]; subst.
  destruct (String.eqb k' k); [intros [= <-]; exact H1|now apply IH].
Qed.

Lemma add_text_texts r e : texts_only r -> texts_only (add_text r e).
Proof.
  intros Hr. unfold add_text. destruct (has_text e); [|exact Hr].
  destruct (dict_lookup r (tag_of e)) as [old|] eqn:L.
  - apply dict_set_texts; [exact Hr|].
    pose proof (dict_lookup_texts _ _ _ Hr L) as Ho.
    destruct old as [| | | s | l | d]; try discriminate; [reflexivity|].
    destruct l as [|[| | | s | |] l]; try discriminate. reflexivity.
  - now apply dict_set_texts.
Qed.

Lemma fold_add_text_texts es : forall r,
  texts_only r -> texts_only (fold_left add_text es r).
Proof.
  induction es as [|e es IH]; intros r Hr; [exact Hr|].
  cbn [fold_left]. now apply IH, add_text_texts.
Qed.

Lemma fold_dict_set_nonempty items : forall acc : dict,
  acc <> [] -> fold_left (fun d kv => dict_set d (fst kv) (snd kv)) items acc <> [].
Proof.
  induction items as [|kv items IH]; intros acc H; [exact H|].
  cbn [fold_left]. apply IH, dict_set_nonempty.
Qed.

Lemma flatten_dict_texts_nonempty r :
  r <> [] -> texts_only r -> flatten_dict py_str r <> [].
Proof.
  intros Hne Hr. unfold flatten_dict, flatten_dict_in. rewrite flatten_value_dict.
  destruct r as [|[k v] r]; [congruence|].
  inversion Hr as [|? ? Hv _]; subst. cbn [snd] in Hv.
  cbn [flat_map fst snd].
  assert (E : exists kv, flatten_value py_str "_" (new_key "" "_" k) v = [kv]).
  { destruct v as [| | | s | l | d]; try discriminate; [now eexists|].
    destruct l as [|[| | | s | |] l]; try discriminate. now eexists. }
  destruct E as [kv E]. rewrite E. cbn [app]. unfold dict_of_items. cbn [fold_left].
  apply fold_dict_set_nonempty, dict_set_nonempty.
Qed.

Lemma fold_add_child_records cs : forall acc,
  Forall (fun r => r <> [] /\ is_flat r = true /\ distinct_keys r = true) acc ->
  Forall (fun r => r <> [] /\ is_flat r = true /\ distinct_keys r = true)
    (fold_left (add_child py_str) cs acc)
  /\ length (fold_left (add_child py_str) cs acc) <= length acc + length cs.
Proof.
  induction cs as [|c cs IH]; intros acc H; cbn [fold_left length]; [split; [exact H|unfold dict; lia]|].
  assert (Hc : Forall (fun r => r <> [] /\ is_flat r = true /\ distinct_keys r = true)
                 (add_child py_str acc c)
               /\ length (add_child py_str acc c) <= S (length acc)).
  { unfold add_child.
    pose proof (fold_add_text_texts (iter c) [] (Forall_nil _)) as Ht.
    destruct (fold_left add_text (iter c) []) as [|kv r] eqn:E; cbn [is_nil].
    - split; [exact H|unfold dict; lia].
    - split; [|rewrite length_app; cbn [length]; unfold dict; lia].
      apply Forall_app. split; [exact H|]. constructor; [|constructor].
      split; [apply flatten_dict_texts_nonempty; [discriminate|exact Ht]|].
      split; [apply flatten_value_flat|].
      unfold flatten_dict, flatten_dict_in. rewrite flatten_value_dict.
      apply dict_of_items_distinct. }
  destruct Hc as [C1 C2]. destruct (IH _ C1) as [I1 I2]. split; [exact I1|unfold dict in *; lia].
Qed.

(** [read_xml_to_dicts] never raises; a file that does not parse gives no
    record.  Otherwise the records are those of the children of the root,
    at most one per child, each non-empty and flat with pairwise distinct
    keys; the second pass over the root never adds one, so a document with
    no text below its root gives no record. *)
Theorem read_xml_to_dicts_records (file_path : string) :
  exists records,
    read_xml_to_dicts py_str open_read chardet_detect parse file_path = inr records
    /\ match parse file_path with
       | inl _ => records = []
       | inr root =>
           records = fold_left (add_child py_str) (children_of root) []
           /\ length records <= length (children_of root)
           /\ Forall (fun r => r <> [] /\ is_flat r = true /\ distinct_keys r = true)
                records
           /\ (Forall (fun e => has_text e = false) (flat_map iter (children_of root)) ->
               records = [])
       end.
Proof.
  unfold read_xml_to_dicts, try_except, detect_encoding.
  destruct (ingested_data_detect_encoding_total open_read chardet_detect file_path 10000)
    as [enc ->].
  cbn [bind Monad_either]. destruct (parse file_path) as [e|root].
  - exists []. now split.
  - exists (xml_records py_str root). split; [reflexivity|].
    rewrite xml_records_first_pass.
    destruct (fold_add_child_records (children_of root) [] (Forall_nil _)) as [R1 R2].
    split; [reflexivity|]. split; [exact R2|]. split; [exact R1|].
    intros H. now apply fold_add_child_skip.
Qed.

End XmlFacts.

(** * Instances *)

Lemma cast_dataframe_cells_witness :
  let df := [Loader.mkSeries "age" Loader.NumericDtype [Loader.PNaN; Loader.PVal "7"];
             Loader.mkSeries "seen" Loader.DatetimeDtype
               [Loader.PNaN; Loader.PVal "2024-01-01"];
             Loader.mkSeries "email" Loader.ObjectDtype [Loader.PNone; Loader.PVal "a@x"]] in
  Loader.column_values (Loader.cast_dataframe (fun c => c) "t1" df) "seen"
  = option_map
      (fun s => map (fun x => match x, Loader.dty s with
                              | Loader.PVal v, _ => Loader.PVal v
                              | Loader.PNone, Loader.ObjectDtype => Loader.PVal "None"
                              | Loader.PNaN, Loader.ObjectDtype => Loader.PVal "nan"
                              | _, Loader.NumericDtype => Loader.PVal ""
                              | _, Loader.DatetimeDtype => Loader.PVal "NaT"
                              end) (Loader.values s))
      (Loader.series_of df "seen").
Proof.
  cbv zeta.
  apply (cast_dataframe_cells (fun c => c) "t1"
           [Loader.mkSeries "age" Loader.NumericDtype [Loader.PNaN; Loader.PVal "7"];
            Loader.mkSeries "seen" Loader.DatetimeDtype
              [Loader.PNaN; Loader.PVal "2024-01-01"];
            Loader.mkSeries "email" Loader.ObjectDtype [Loader.PNone; Loader.PVal "a@x"]]
           "seen").
  vm_compute. discriminate.
Defined.

Lemma generate_canonical_key_stable_witness :
  let df := Spark.mkDataFrame ["name"; "City"; "canonical_key"]
              [[Some "ann"; Some "Oslo"; Some "old"]] in
  let keyed := IngestedData.generate_canonical_key (fun _ s => s) "t0" df in
  IngestedData.generate_canonical_key (fun _ s => s) "t0" keyed = keyed
  /\ Spark.columns keyed
     = (if Spark.has_column "canonical_key" (Spark.columns df) then Spark.columns df
        else Spark.columns df ++ ["canonical_key"])
  /\ Spark.count keyed = Spark.count df
  /\ (forall c, c <> "canonical_key" -> Spark.select keyed c = Spark.select df c).
Proof.
  cbv zeta.
  apply (generate_canonical_key_stable (fun _ s => s) "t0"
           (Spark.mkDataFrame ["name"; "City"; "canonical_key"]
              [[Some "ann"; Some "Oslo"; Some "old"]])).
  vm_compute. reflexivity.
Defined.

Lemma merge_column_by_column_witness :
  let df0 := Spark.mkDataFrame ["name"] [[Some "ann"]] in
  let df1 := Spark.mkDataFrame ["name"; "city"] [[Some "bob"; Some "oslo"]] in
  exists merged,
    IngestedData.merge [df0; df1] = Some merged
    /\ Spark.select merged "city"
       = concat (map (fun df => Spark.select df "city") [df0; df1])
    /\ Spark.count merged = list_sum (map Spark.count [df0; df1])
    /\ Spark.has_column "city" (Spark.columns merged)
       = existsb (fun df => Spark.has_column "city" (Spark.columns df)) [df0; df1].
Proof.
  cbv zeta.
  apply (merge_column_by_column (Spark.mkDataFrame ["name"] [[Some "ann"]])
           [Spark.mkDataFrame ["name"; "city"] [[Some "bob"; Some "oslo"]]] "city").
  vm_compute. reflexivity.
Defined.

Lemma normalize_columns_names_witness :
  let df := Spark.mkDataFrame ["full_name"; "e_mail"; "email"; "Age"]
              [[Some " Ann "; Some "A@x"; Some "B@y"; Some "7"]] in
  let normal := IngestedData.normalize_columns (fun _ s => s) "t0" df in
  NoDup (Spark.columns normal)
  /\ (forall old new, In (old, new) IngestedData.mapping ->
        In old (Spark.columns normal) -> In new (Spark.columns normal))
  /\ (forall x, In x (Spark.columns normal) ->
        In x (Spark.columns df) \/ In x (map snd IngestedData.mapping)
        \/ x = "ingest_timestamp")
  /\ In "ingest_timestamp" (Spark.columns normal)
  /\ Spark.select normal "ingest_timestamp" = repeat (Some "t0") (Spark.count df)
  /\ Spark.count normal = Spark.count df.
Proof.
  cbv zeta.
  apply (normalize_columns_names (fun _ s => s) "t0"
           (Spark.mkDataFrame ["full_name"; "e_mail"; "email"; "Age"]
              [[Some " Ann "; Some "A@x"; Some "B@y"; Some "7"]])).
  vm_compute. reflexivity.
Defined.

Lemma normalize_columns_cells_witness :
  let df := Spark.mkDataFrame ["name"; "Age"] [[Some " Ann "; Some "7"]] in
  Spark.select (IngestedData.normalize_columns (fun _ s => s) "t0" df) "name"
  = if PyStr.str_in "name" ["name"; "first_name"; "last_name"; "email"; "phone"]
    then map (option_map (fun s => Spark.trim_str (Spark.lower_str s)))
           (Spark.select df "name")
    else Spark.select df "name".
Proof.
  cbv zeta.
  apply (normalize_columns_cells (fun _ s => s) "t0"
           (Spark.mkDataFrame ["name"; "Age"] [[Some " Ann "; Some "7"]]) "name").
  - vm_compute. reflexivity.
  - reflexivity.
  - vm_compute. intuition discriminate.
  - vm_compute. discriminate.
Defined.

Lemma sanitize_for_storage_bounded_witness :
  let value := Some " a   b c " in
  let r := PyStr.of_string (DataQuality.sanitize_for_storage value 5) in
  (Z.of_nat (length r) <= 5)%Z
  /\ DataQuality.clean_string (Some (DataQuality.sanitize_for_storage value 5))
     = DataQuality.sanitize_for_storage value 5
  /\ (match value with
      | None => True
      | Some s => (Z.of_nat (length (PyStr.of_string s)) <= 5)%Z
      end ->
      DataQuality.sanitize_for_storage value 5 = DataQuality.clean_string value).
Proof.
  cbv zeta. apply (sanitize_for_storage_bounded (Some " a   b c ") 5). lia.
Defined.

Lemma ingested_sanitize_for_storage_bounded_witness :
  let r := PyStr.of_string (IngestedData.sanitize_for_storage (Some " a   b c ") 5) in
  (Z.of_nat (length r) <= 5)%Z
  /\ PyStr.hd_ok PyStr.isspace r = true /\ PyStr.last_ok PyStr.isspace r = true
  /\ exists pre post,
       firstn (Z.to_nat 5) (PyStr.of_string " a   b c ") = pre ++ r ++ post
       /\ forallb PyStr.isspace pre = true /\ forallb PyStr.isspace post = true.
Proof.
  cbv zeta. apply (ingested_sanitize_for_storage_bounded " a   b c " 5). lia.
Defined.

Lemma parse_values_plain_witness :
  let row_str := PyStr.of_string "(1, Ann ,,x,)" in
  IngestedData.parse_values row_str
  = map IngestedData.unquote
      (IngestedData.drop_empty_last
         (DataQuality.split_on IngestedData.comma
            (IngestedData.strip_chars ["("%char; ")"%char] (PyStr.strip row_str)))).
Proof.
  cbv zeta. apply (parse_values_plain (PyStr.of_string "(1, Ann ,,x,)")).
  vm_compute. reflexivity.
Defined.

Lemma parse_loop_quoted_witness :
  let q := IngestedData.single_quote in
  let body := PyStr.of_string "a,b" in
  let rest := PyStr.of_string ",c" in
  IngestedData.parse_loop ([q] ++ body ++ [q] ++ rest)
    (IngestedData.mkParse ["1"] [] false None)
  = IngestedData.parse_loop rest
      (IngestedData.mkParse ["1"] ([] ++ [q] ++ body ++ [q]) false None).
Proof.
  cbv zeta.
  apply (parse_loop_quoted IngestedData.single_quote (PyStr.of_string "a,b")
           (PyStr.of_string ",c") ["1"] []).
  - vm_compute. reflexivity.
  - vm_compute. reflexivity.
Defined.
